(** * grdblend: streaming blend of overlapping grids (src/grdblend.c)

    A shallow embedding of the row-by-row blending engine of GMT's
    [grdblend] module: the per-tile set-up of [grdblend_init_blend_job]
    (overlap tests, the decision to resample, index bounds and taper
    coefficients), the row synchroniser [grdblend_sync_input_rows], and the
    per-node combination loop of [GMT_grdblend] with its output modes and
    statistics.

    Conventions.
    - [double] is IEEE binary64, embedded as Rocq's primitive [float];
      [gmt_grdfloat] values are the binary64 numbers that survive
      [to_grdfloat], the narrowing to binary32.
    - C [int] and [unsigned int] indices are embedded as [Z]; the theorems
      speak of runs in which index arithmetic stays inside the range of
      [int] (signed overflow is undefined in C); the unsigned products of
      lines 544 and 548 wrap as C has them.
    - Everything outside the module (libm's [cos], the grid reader, the
      resampler, file removal) is reached through the record
      [Collaborators]; the model never looks inside it. *)

From Stdlib Require Import Strings.String Strings.Ascii.
From Stdlib Require Import ZArith List Bool Lia Floats.
Import ListNotations.
Local Open Scope Z_scope.

(* ================================================================== *)
(** ** C99 and GMT helper layer *)
(* ================================================================== *)

Module C99.

(** [M_PI] of gmt_constants.h, 3.14159265358979323846 as a binary64. *)
Definition M_PI : float := 0x1.921fb54442d18p+1%float.

(** [GMT_CONV8_LIMIT] of gmt_constants.h, 1.0e-8 as a binary64. *)
Definition GMT_CONV8_LIMIT : float := 0x1.5798ee2308c3ap-27%float.

(** The literal 0.002 of the increment test, as a binary64. *)
Definition INC_TOLERANCE : float := 0x1.0624dd2f1a9fcp-9%float.

(** Conversion of an out-of-range integer to [int] (two's complement). *)
Definition wrap_int (z : Z) : Z := (z + 2 ^ 31) mod 2 ^ 32 - 2 ^ 31.

(** Conversion of a [size_t] to [off_t], both 64 bits wide (two's
    complement). *)
Definition wrap_off_t (z : Z) : Z := (z + 2 ^ 63) mod 2 ^ 64 - 2 ^ 63.

(** [(double) i] for an [int] [i]; exact below 2^53. *)
Definition float_of_int (z : Z) : float :=
  match z with
  | Z0 => 0%float
  | Zpos _ => of_uint63 (Uint63.of_Z z)
  | Zneg p => (- of_uint63 (Uint63.of_Z (Zpos p)))%float
  end.

(** Quotient of [m] by [d] rounded to nearest, ties to even. *)
Definition round_half_even (m d : Z) : Z :=
  let q := m / d in
  let r := m mod d in
  match Z.compare (2 * r) d with
  | Lt => q
  | Gt => q + 1
  | Eq => if Z.even q then q else q + 1
  end.

(** [lrint] of C99 in the default rounding mode (to nearest, ties to
    even); a NaN or an infinity, for which C leaves the result
    unspecified, is sent to 0. *)
Definition lrint (x : float) : Z :=
  match Prim2SF x with
  | S754_finite s m e =>
      let n := if 0 <=? e then Zpos m * 2 ^ e
               else round_half_even (Zpos m) (2 ^ (- e)) in
      if s then - n else n
  | _ => 0
  end.

(** Modelled from the spec: the macro [irint] is not under src/; section
    4.1 gives the index rule as [round((coord - origin) / increment)],
    here [lrint] converted to [int]. *)
Definition irint (x : float) : Z := wrap_int (lrint x).

(** Modelled from the spec: the macro [urint] is not under src/; it is
    the same rounding converted to [unsigned int]. *)
Definition urint (x : float) : Z := lrint x mod 2 ^ 32.

(** [fmod (x, 1.0)] of libm: exact, with the sign of [x]. *)
Definition fmod_one (x : float) : float :=
  match Prim2SF x with
  | S754_finite s m e =>
      if 0 <=? e then (if s then neg_zero else zero)
      else
        let r := Zpos m mod 2 ^ (- e) in
        SF2Prim (binary_normalize prec emax (if s then - r else r) e s)
  | S754_infinity _ => nan
  | _ => x
  end.

(** Modelled from the spec: the typedef [gmt_grdfloat] is not under src/;
    the spec speaks of rows of floats, GMT's default single precision.
    [(gmt_grdfloat) x] rounds a binary64 to the nearest binary32. *)
Definition to_grdfloat (x : float) : float :=
  match Prim2SF x with
  | S754_finite s m e => SF2Prim (binary_round 24 128 s m e)
  | _ => x
  end.

(** A value that a [gmt_grdfloat] variable can hold. *)
Definition is_grdfloat (x : float) : Prop := to_grdfloat x = x.

(** Modelled from the spec: the macro [gmt_M_is_fnan] is not under src/;
    section 4.5 has the loop skip a tile whose value at the node is NaN. *)
Definition gmt_M_is_fnan (x : float) : bool := is_nan x.

End C99.

Import C99.

(* ================================================================== *)
(** ** Data model *)
(* ================================================================== *)

(** The member [registration].  In GMT's public header
    [GMT_GRID_NODE_REG] is 0 and [GMT_GRID_PIXEL_REG] is 1: [reg_code] is
    the number that lines 530 and 534 subtract, and [is_node_reg] the
    test [!h->registration] of line 397. *)
Inductive grid_registration : Type :=
  | GMT_GRID_NODE_REG
  | GMT_GRID_PIXEL_REG.

Definition reg_code (r : grid_registration) : Z :=
  match r with
  | GMT_GRID_NODE_REG => 0
  | GMT_GRID_PIXEL_REG => 1
  end.

Definition is_node_reg (r : grid_registration) : bool :=
  match r with
  | GMT_GRID_NODE_REG => true
  | GMT_GRID_PIXEL_REG => false
  end.

(** A [double wesn[4]], indexed by XLO = 0, XHI = 1, YLO = 2, YHI = 3. *)
Record region : Type := mk_region {
  XLO : float;
  XHI : float;
  YLO : float;
  YHI : float
}.

Definition side_of (w : region) (side : nat) : float :=
  match side with
  | 0%nat => XLO w
  | 1%nat => XHI w
  | 2%nat => YLO w
  | _ => YHI w
  end.

Definition set_lon (w : region) (lo hi : float) : region :=
  {| XLO := lo; XHI := hi; YLO := YLO w; YHI := YHI w |}.

(** First letter of the grid format name, as tested at line 542. *)
Inductive grid_format : Type :=
  | fmt_c      (* old-style 1-D netCDF *)
  | fmt_n      (* new 2-D netCDF *)
  | fmt_other. (* native binary *)

(** The fields of [struct GMT_GRID_HEADER] that grdblend reads, with the
    hidden [r_inc] of [struct GMT_GRID_HEADER_HIDDEN]. *)
Record GMT_GRID_HEADER : Type := mk_header {
  wesn : region;
  inc_x : float;
  inc_y : float;
  registration : grid_registration;
  xy_off : float;
  n_columns : Z;
  format : grid_format;
  r_inc_x : float;
  r_inc_y : float
}.

Definition inc_of (g : GMT_GRID_HEADER) (way : nat) : float :=
  match way with
  | 0%nat => inc_x g
  | _ => inc_y g
  end.

Definition set_header_lon (g : GMT_GRID_HEADER) (lo hi : float) : GMT_GRID_HEADER :=
  mk_header (set_lon (wesn g) lo hi) (inc_x g) (inc_y g) (registration g)
            (xy_off g) (n_columns g) (format g) (r_inc_x g) (r_inc_y g).

(** The fields of [struct GMT_GRID_ROWBYROW] that grdblend touches. *)
Record GMT_GRID_ROWBYROW : Type := mk_RbR {
  n_byte : Z;
  start0 : Z;   (* start[0], the netCDF row cursor *)
  fpos : Z      (* position of [fp], the native binary cursor *)
}.

(** [struct GRDBLEND_INFO].  [G] holds the header of the tile's grid and
    [data] the rows of a grid that lives in memory; [z] is the row buffer,
    empty once freed. *)
Record GRDBLEND_INFO : Type := mk_info {
  G : GMT_GRID_HEADER;
  data : list (list float);
  RbR : GMT_GRID_ROWBYROW;
  in_i0 : Z; in_i1 : Z; out_i0 : Z; out_i1 : Z;
  in_j0 : Z; in_j1 : Z; out_j0 : Z; out_j1 : Z;
  offset : Z;
  skip : Z;
  ignore : bool;
  outside : bool;
  invert : bool;
  open : bool;
  delete : bool;
  memory : bool;
  file : string;
  weight : float; wt_y : float;
  wxr : float; wxl : float; wyu : float; wyd : float;
  inner : region;          (* the member [wesn]: boundaries of inner region *)
  z : list float
}.

(** [-C], [-W], [-Z] of [struct GRDBLEND_CTRL]. *)
Inductive clobber_mode : Type :=
  | BLEND_UPPER
  | BLEND_LOWER
  | BLEND_FIRST
  | BLEND_LAST.

Record GRDBLEND_CTRL : Type := mk_ctrl {
  C_active : bool;
  C_mode : clobber_mode;
  C_sign : Z;
  W_active : bool;
  W_mode : Z;
  Z_active : bool;
  Z_scale : float
}.

(** Return codes that the modelled functions hand back. *)
Inductive gmt_status : Type :=
  | GMT_NOERROR
  | GMT_RUNTIME_ERROR
  | GMT_DATA_READ_ERROR
  | GMT_GRID_READ_ERROR
  | GMT_GRDIO_SEEK_FAILED.

(** What leaves the engine towards its collaborators, tile by tile
    ([k] is the index of the tile in the blend array). *)
Inductive event : Type :=
  | ev_open (k : nat)                           (* GMT_Read_Data, row-by-row *)
  | ev_seek (k : nat) (bytes : Z)               (* fseek (fp, skip, SEEK_CUR) *)
  | ev_get_row (k : nat)                        (* GMT_Get_Row *)
  | ev_close (k : nat)                          (* gmtlib_close_grd *)
  | ev_destroy (k : nat)                        (* GMT_Destroy_Data succeeded *)
  | ev_free_z (k : nat)                         (* gmt_M_free (GMT, B[k].z) *)
  | ev_free_RbR (k : nat)                       (* gmt_M_free (GMT, B[k].RbR) *)
  | ev_remove (k : nat) (name : string). (* gmt_remove_file *)

(** What the module takes from outside: libm, the macro [gmt_M_is_zero]
    of a GMT header that is not under src/, and the services of the GMT
    library.  A [bool] result of a service is C's "non-zero means
    failure"; [None] is a NULL pointer. *)
Record Collaborators : Type := mk_collab {
  cos : float -> float;
  gmt_M_is_zero : float -> bool;
  gmt_grd_is_global : GMT_GRID_HEADER -> bool;
  GMT_Read_Data : string -> option (GMT_GRID_HEADER * GMT_GRID_ROWBYROW);
  GMT_Destroy_Data : string -> bool;
  gmt_get_tempname : string -> option string;
  GMT_Call_Module : string -> string -> bool;
  fseek : string -> Z -> bool;
  gmt_remove_file : string -> bool;
  GMT_Get_Row : string -> GMT_GRID_ROWBYROW -> list float * GMT_GRID_ROWBYROW
}.
(** Assignments to one member of a [struct GRDBLEND_INFO]. *)

Definition set_G (v : GMT_GRID_HEADER) (B : GRDBLEND_INFO) : GRDBLEND_INFO :=
  mk_info v (data B) (RbR B) (in_i0 B) (in_i1 B) (out_i0 B) (out_i1 B) (in_j0 B)
          (in_j1 B) (out_j0 B) (out_j1 B) (offset B) (skip B) (ignore B) (outside B)
          (invert B) (open B) (delete B) (memory B) (file B) (weight B) (wt_y B) (wxr B)
          (wxl B) (wyu B) (wyd B) (inner B) (z B).

Definition set_RbR (v : GMT_GRID_ROWBYROW) (B : GRDBLEND_INFO) : GRDBLEND_INFO :=
  mk_info (G B) (data B) v (in_i0 B) (in_i1 B) (out_i0 B) (out_i1 B) (in_j0 B) (in_j1 B)
          (out_j0 B) (out_j1 B) (offset B) (skip B) (ignore B) (outside B) (invert B)
          (open B) (delete B) (memory B) (file B) (weight B) (wt_y B) (wxr B) (wxl B)
          (wyu B) (wyd B) (inner B) (z B).

Definition set_z (v : list float) (B : GRDBLEND_INFO) : GRDBLEND_INFO :=
  mk_info (G B) (data B) (RbR B) (in_i0 B) (in_i1 B) (out_i0 B) (out_i1 B) (in_j0 B)
          (in_j1 B) (out_j0 B) (out_j1 B) (offset B) (skip B) (ignore B) (outside B)
          (invert B) (open B) (delete B) (memory B) (file B) (weight B) (wt_y B) (wxr B)
          (wxl B) (wyu B) (wyd B) (inner B) v.

Definition set_offset (v : Z) (B : GRDBLEND_INFO) : GRDBLEND_INFO :=
  mk_info (G B) (data B) (RbR B) (in_i0 B) (in_i1 B) (out_i0 B) (out_i1 B) (in_j0 B)
          (in_j1 B) (out_j0 B) (out_j1 B) v (skip B) (ignore B) (outside B) (invert B)
          (open B) (delete B) (memory B) (file B) (weight B) (wt_y B) (wxr B) (wxl B)
          (wyu B) (wyd B) (inner B) (z B).

Definition set_skip (v : Z) (B : GRDBLEND_INFO) : GRDBLEND_INFO :=
  mk_info (G B) (data B) (RbR B) (in_i0 B) (in_i1 B) (out_i0 B) (out_i1 B) (in_j0 B)
          (in_j1 B) (out_j0 B) (out_j1 B) (offset B) v (ignore B) (outside B) (invert B)
          (open B) (delete B) (memory B) (file B) (weight B) (wt_y B) (wxr B) (wxl B)
          (wyu B) (wyd B) (inner B) (z B).

Definition set_ignore (v : bool) (B : GRDBLEND_INFO) : GRDBLEND_INFO :=
  mk_info (G B) (data B) (RbR B) (in_i0 B) (in_i1 B) (out_i0 B) (out_i1 B) (in_j0 B)
          (in_j1 B) (out_j0 B) (out_j1 B) (offset B) (skip B) v (outside B) (invert B)
          (open B) (delete B) (memory B) (file B) (weight B) (wt_y B) (wxr B) (wxl B)
          (wyu B) (wyd B) (inner B) (z B).

Definition set_outside (v : bool) (B : GRDBLEND_INFO) : GRDBLEND_INFO :=
  mk_info (G B) (data B) (RbR B) (in_i0 B) (in_i1 B) (out_i0 B) (out_i1 B) (in_j0 B)
          (in_j1 B) (out_j0 B) (out_j1 B) (offset B) (skip B) (ignore B) v (invert B)
          (open B) (delete B) (memory B) (file B) (weight B) (wt_y B) (wxr B) (wxl B)
          (wyu B) (wyd B) (inner B) (z B).

Definition set_invert (v : bool) (B : GRDBLEND_INFO) : GRDBLEND_INFO :=
  mk_info (G B) (data B) (RbR B) (in_i0 B) (in_i1 B) (out_i0 B) (out_i1 B) (in_j0 B)
          (in_j1 B) (out_j0 B) (out_j1 B) (offset B) (skip B) (ignore B) (outside B) v
          (open B) (delete B) (memory B) (file B) (weight B) (wt_y B) (wxr B) (wxl B)
          (wyu B) (wyd B) (inner B) (z B).

Definition set_open (v : bool) (B : GRDBLEND_INFO) : GRDBLEND_INFO :=
  mk_info (G B) (data B) (RbR B) (in_i0 B) (in_i1 B) (out_i0 B) (out_i1 B) (in_j0 B)
          (in_j1 B) (out_j0 B) (out_j1 B) (offset B) (skip B) (ignore B) (outside B)
          (invert B) v (delete B) (memory B) (file B) (weight B) (wt_y B) (wxr B)
          (wxl B) (wyu B) (wyd B) (inner B) (z B).

Definition set_delete (v : bool) (B : GRDBLEND_INFO) : GRDBLEND_INFO :=
  mk_info (G B) (data B) (RbR B) (in_i0 B) (in_i1 B) (out_i0 B) (out_i1 B) (in_j0 B)
          (in_j1 B) (out_j0 B) (out_j1 B) (offset B) (skip B) (ignore B) (outside B)
          (invert B) (open B) v (memory B) (file B) (weight B) (wt_y B) (wxr B) (wxl B)
          (wyu B) (wyd B) (inner B) (z B).

Definition set_memory (v : bool) (B : GRDBLEND_INFO) : GRDBLEND_INFO :=
  mk_info (G B) (data B) (RbR B) (in_i0 B) (in_i1 B) (out_i0 B) (out_i1 B) (in_j0 B)
          (in_j1 B) (out_j0 B) (out_j1 B) (offset B) (skip B) (ignore B) (outside B)
          (invert B) (open B) (delete B) v (file B) (weight B) (wt_y B) (wxr B) (wxl B)
          (wyu B) (wyd B) (inner B) (z B).

Definition set_file (v : string) (B : GRDBLEND_INFO) : GRDBLEND_INFO :=
  mk_info (G B) (data B) (RbR B) (in_i0 B) (in_i1 B) (out_i0 B) (out_i1 B) (in_j0 B)
          (in_j1 B) (out_j0 B) (out_j1 B) (offset B) (skip B) (ignore B) (outside B)
          (invert B) (open B) (delete B) (memory B) v (weight B) (wt_y B) (wxr B)
          (wxl B) (wyu B) (wyd B) (inner B) (z B).

Definition set_weight (v : float) (B : GRDBLEND_INFO) : GRDBLEND_INFO :=
  mk_info (G B) (data B) (RbR B) (in_i0 B) (in_i1 B) (out_i0 B) (out_i1 B) (in_j0 B)
          (in_j1 B) (out_j0 B) (out_j1 B) (offset B) (skip B) (ignore B) (outside B)
          (invert B) (open B) (delete B) (memory B) (file B) v (wt_y B) (wxr B) (wxl B)
          (wyu B) (wyd B) (inner B) (z B).

Definition set_wt_y (v : float) (B : GRDBLEND_INFO) : GRDBLEND_INFO :=
  mk_info (G B) (data B) (RbR B) (in_i0 B) (in_i1 B) (out_i0 B) (out_i1 B) (in_j0 B)
          (in_j1 B) (out_j0 B) (out_j1 B) (offset B) (skip B) (ignore B) (outside B)
          (invert B) (open B) (delete B) (memory B) (file B) (weight B) v (wxr B)
          (wxl B) (wyu B) (wyd B) (inner B) (z B).

Definition set_inner (v : region) (B : GRDBLEND_INFO) : GRDBLEND_INFO :=
  mk_info (G B) (data B) (RbR B) (in_i0 B) (in_i1 B) (out_i0 B) (out_i1 B) (in_j0 B)
          (in_j1 B) (out_j0 B) (out_j1 B) (offset B) (skip B) (ignore B) (outside B)
          (invert B) (open B) (delete B) (memory B) (file B) (weight B) (wt_y B) (wxr B)
          (wxl B) (wyu B) (wyd B) v (z B).

Definition set_indices (oi0 ii0 ii1 oi1 oj0 ij0 ij1 oj1 : Z) (B : GRDBLEND_INFO) : GRDBLEND_INFO :=
  mk_info (G B) (data B) (RbR B) ii0 ii1 oi0 oi1 ij0 ij1 oj0 oj1 (offset B) (skip B)
          (ignore B) (outside B) (invert B) (open B) (delete B) (memory B) (file B)
          (weight B) (wt_y B) (wxr B) (wxl B) (wyu B) (wyd B) (inner B) (z B).

Definition set_tapers (xl xr yu yd : float) (B : GRDBLEND_INFO) : GRDBLEND_INFO :=
  mk_info (G B) (data B) (RbR B) (in_i0 B) (in_i1 B) (out_i0 B) (out_i1 B) (in_j0 B)
          (in_j1 B) (out_j0 B) (out_j1 B) (offset B) (skip B) (ignore B) (outside B)
          (invert B) (open B) (delete B) (memory B) (file B) (weight B) (wt_y B) xr xl
          yu yd (inner B) (z B).

(* ================================================================== *)
(** ** grdblend_init_blend_job: the per-tile set-up (lines 399-565) *)
(* ================================================================== *)

(** Lines 144-157.  [phase_residual] is the value of [a] after line 150;
    the loop over the four sides leaves with [true] at the first side that
    is out of phase. *)
Definition phase_residual (g h : GMT_GRID_HEADER) (side : nat) : float :=
  let way := Nat.div side 2 in
  fmod_one (abs (((side_of (wesn g) side + xy_off g * inc_of g way)
                  - (side_of (wesn h) side + xy_off h * inc_of h way))
                 / inc_of h way))%float.

Fixpoint out_of_phase_from (sides : list nat) (g h : GMT_GRID_HEADER) : bool :=
  match sides with
  | [] => false
  | side :: rest =>
      let a := phase_residual g h side in
      if (a <? GMT_CONV8_LIMIT)%float then out_of_phase_from rest g h
      else
        let a := (1 - a)%float in
        if (a <? GMT_CONV8_LIMIT)%float then out_of_phase_from rest g h
        else true
  end.

Definition grdblend_out_of_phase (g h : GMT_GRID_HEADER) : bool :=
  out_of_phase_from [0; 1; 2; 3]%nat g h.

(** Lines 185-193. *)
Definition grdblend_outside_y_range (h : GMT_GRID_HEADER) (w : region) : bool :=
  match registration h with
  | GMT_GRID_NODE_REG =>
      (YHI w <? YLO (wesn h))%float || (YHI (wesn h) <? YLO w)%float
  | GMT_GRID_PIXEL_REG =>
      (YHI w <=? YLO (wesn h))%float || (YHI (wesn h) <=? YLO w)%float
  end.

(** Lines 195-203. *)
Definition grdblend_outside_cartesian_x_range (h : GMT_GRID_HEADER) (w : region) : bool :=
  match registration h with
  | GMT_GRID_NODE_REG =>
      (XHI w <? XLO (wesn h))%float || (XHI (wesn h) <? XLO w)%float
      || (YHI w <? YLO (wesn h))%float || (YHI (wesn h) <? YLO w)%float
  | GMT_GRID_PIXEL_REG =>
      (XHI w <=? XLO (wesn h))%float || (XHI (wesn h) <=? XLO w)%float
      || (YHI w <=? YLO (wesn h))%float || (YHI (wesn h) <=? YLO w)%float
  end.

(** The [while] of line 167; [None] when it has not finished after [fuel]
    turns. *)
Fixpoint shift_east (fuel : nat) (west : float) (w e shift : float)
  : option (float * float * float) :=
  match fuel with
  | O => if (e <? west)%float then None else Some (w, e, shift)
  | S fuel' =>
      if (e <? west)%float
      then shift_east fuel' west (w + 360)%float (e + 360)%float (shift - 360)%float
      else Some (w, e, shift)
  end.

(** Lines 429-430. *)
Definition inc_mismatch (t h : GMT_GRID_HEADER) : bool :=
  (INC_TOLERANCE <? abs ((inc_x t - inc_x h) / inc_x h))%float
  || (INC_TOLERANCE <? abs ((inc_y t - inc_y h) / inc_y h))%float.

(** Lines 423-457: the bits of [do_sample]; the region handed to the
    resampler is text of a command line and is not modelled. *)
Definition do_sample_bits (not_supported : Z) (t h : GMT_GRID_HEADER) : Z :=
  let d0 := 0 in
  let d1 := if not_supported =? 0 then d0 else Z.lor d0 2 in
  let d2 := if inc_mismatch t h then Z.lor d1 1 else d1 in
  if grdblend_out_of_phase t h then Z.lor d2 1 else d2.

(** Lines 527-539: index bounds and taper coefficients of one tile; [t]
    is the header of the tile's grid, [h] that of the output grid. *)
Definition blend_geometry (h : GMT_GRID_HEADER) (B : GRDBLEND_INFO) : GRDBLEND_INFO :=
  let t := G B in
  let one_or_zero := if is_node_reg (registration h) then 1 else 0 in
  let B1 :=
    set_indices
      (irint ((XLO (wesn t) - XLO (wesn h)) * r_inc_x h)%float)
      (irint ((XLO (inner B) - XLO (wesn h)) * r_inc_x h)%float - 1)
      (irint ((XHI (inner B) - XLO (wesn h)) * r_inc_x h)%float + one_or_zero)
      (irint ((XHI (wesn t) - XLO (wesn h)) * r_inc_x h)%float - reg_code (registration t))
      (irint ((YHI (wesn h) - YHI (wesn t)) * r_inc_y h)%float)
      (irint ((YHI (wesn h) - YHI (inner B)) * r_inc_y h)%float - 1)
      (irint ((YHI (wesn h) - YLO (inner B)) * r_inc_y h)%float + one_or_zero)
      (irint ((YHI (wesn h) - YLO (wesn t)) * r_inc_y h)%float - reg_code (registration t))
      B in
  set_tapers
    (M_PI * inc_x h / (XLO (inner B) - XLO (wesn t)))%float
    (M_PI * inc_x h / (XHI (wesn t) - XHI (inner B)))%float
    (M_PI * inc_y h / (YHI (wesn t) - YHI (inner B)))%float
    (M_PI * inc_y h / (YLO (inner B) - YLO (wesn t)))%float
    B1.

(** Lines 541-549.  [n_columns] is an [unsigned int]: the product of
    line 544 is formed in 32 bits and wraps modulo 2^32 before it is
    widened to the [off_t] of [offset].  [n_byte] is a [size_t]: the
    product of line 548 is formed in 64 bits and converted to [off_t]. *)
Definition blend_skip (B : GRDBLEND_INFO) : GRDBLEND_INFO :=
  if out_j0 B <? 0 then
    match format (G B) with
    | fmt_c => set_offset ((n_columns (G B) * Z.abs (out_j0 B)) mod 2 ^ 32) B
    | fmt_n => set_offset (out_j0 B) B
    | fmt_other => set_skip (wrap_off_t (n_byte (RbR B) * Z.abs (out_j0 B))) B
    end
  else B.

(** How the body of the loop at line 399 ends for one tile. *)
Inductive tile_outcome : Type :=
  | tile_skipped (B : GRDBLEND_INFO)                (* [continue], tile ignored *)
  | tile_failed (negated : bool) (code : gmt_status) (* [return], the job is abandoned *)
  | tile_ready (B : GRDBLEND_INFO)                  (* the end of the body is reached *)
  | tile_unfinished.                                (* line 167 still turning *)

Section InitBlendJob.

Variable env : Collaborators.

(** Turns granted to the loop of line 167. *)
Variable fuel : nat.

(** Lines 159-183; [mode] is [true] for the inner region. *)
Definition grdblend_overlap_check (B : GRDBLEND_INFO) (h : GMT_GRID_HEADER) (mode : bool)
  : option (bool * GRDBLEND_INFO) :=
  if gmt_grd_is_global env h then Some (false, B)
  else if gmt_grd_is_global env (G B) then Some (false, B)
  else
    let w0 := ((if mode then XLO (inner B) else XLO (wesn (G B))) - 720)%float in
    let e0 := ((if mode then XHI (inner B) else XHI (wesn (G B))) - 720)%float in
    match shift_east fuel (XLO (wesn h)) w0 e0 720%float with
    | None => None
    | Some (w, e, shift) =>
        if match registration h with
           | GMT_GRID_NODE_REG => (XHI (wesn h) <? w)%float
           | GMT_GRID_PIXEL_REG => (XHI (wesn h) <=? w)%float
           end
        then Some (true, set_ignore true B)
        else if negb (gmt_M_is_zero env shift)
        then Some (false, if mode then set_inner (set_lon (inner B) w e) B
                          else set_G (set_header_lon (G B) w e) B)
        else Some (false, B)
    end.

(** Lines 512-564: from the weight sign to the release of the grid. *)
Definition finish_tile (h : GMT_GRID_HEADER) (B : GRDBLEND_INFO) : tile_outcome :=
  let B1 := if (weight B <? 0)%float
            then set_invert true (set_weight (abs (weight B)) B) else B in
  let B2 := blend_skip (blend_geometry h B1) in
  let B3 := set_z (repeat 0%float (Z.to_nat (n_columns (G B2)))) B2 in
  if memory B3 then tile_ready B3
  else if GMT_Destroy_Data env (file B3) then tile_failed true GMT_RUNTIME_ERROR
  else tile_ready B3.

(** Lines 468-511: the tile is rebuilt by grdsample (bit 1 of
    [do_sample]) or grdconvert, and read again. *)
Definition rebuild_tile (h : GMT_GRID_HEADER) (do_sample : Z) (B : GRDBLEND_INFO)
  : tile_outcome :=
  let resample := Z.testbit do_sample 0 in
  match gmt_get_tempname env (if resample then "grdblend_resampled"
                              else "grdblend_reformatted")%string with
  | None => tile_failed false GMT_RUNTIME_ERROR
  | Some buffer =>
      if GMT_Call_Module env (if resample then "grdsample" else "grdconvert")%string (file B)
      then tile_failed true GMT_RUNTIME_ERROR
      else
        let B1 := set_delete true (set_file buffer B) in
        if GMT_Destroy_Data env (file B) then tile_failed true GMT_RUNTIME_ERROR
        else
          match GMT_Read_Data env (file B1) with
          | None => tile_failed true GMT_DATA_READ_ERROR
          | Some (t, rbr) =>
              let B2 := set_memory false (set_RbR rbr (set_G t B1)) in
              match grdblend_overlap_check B2 h false with
              | None => tile_unfinished
              | Some (true, B3) => tile_skipped B3
              | Some (false, B3) => finish_tile h B3
              end
          end
  end.

(** Lines 420-511, after the overlap tests. *)
Definition align_tile (h : GMT_GRID_HEADER) (not_supported : Z) (B : GRDBLEND_INFO)
  : tile_outcome :=
  let do_sample := do_sample_bits not_supported (G B) h in
  if do_sample =? 0 then finish_tile h B
  else rebuild_tile h do_sample B.

(** The body of the loop at line 399 for one tile.  [x_is_lon] is
    [gmt_M_x_is_lon (GMT, GMT_IN)]; [not_supported] is the variable of
    that name as the loop finds it. *)
Definition init_tile (x_is_lon : bool) (h : GMT_GRID_HEADER) (not_supported : Z)
           (B : GRDBLEND_INFO) : tile_outcome :=
  if grdblend_outside_y_range h (inner B) then tile_skipped (set_ignore true B)
  else if x_is_lon then
    match grdblend_overlap_check B h false with
    | None => tile_unfinished
    | Some (true, B1) => tile_skipped B1
    | Some (false, B1) =>
        match grdblend_overlap_check B1 h true with
        | None => tile_unfinished
        | Some (true, B2) => tile_skipped B2
        | Some (false, B2) => align_tile h not_supported B2
        end
    end
  else if grdblend_outside_cartesian_x_range h (inner B)
  then tile_skipped (set_ignore true B)
  else align_tile h not_supported B.

End InitBlendJob.

(* ================================================================== *)
(** ** grdblend_sync_input_rows (lines 576-637) *)
(* ================================================================== *)

Section RowSynchronizer.

Variable env : Collaborators.

(** Lines 597-602: the cosine taper in y of the current row. *)
Definition taper_y (row : Z) (half : float) (B : GRDBLEND_INFO) : float :=
  if row <=? in_j0 B then
    (0.5 * (1 - cos env ((float_of_int (row - out_j0 B) + half) * wyu B)))%float
  else if row >=? in_j1 B then
    (0.5 * (1 - cos env ((float_of_int (out_j1 B - row) + half) * wyd B)))%float
  else 1%float.

(** Lines 583-595: the row is outside the tile.  The third component is
    [Some s] when the function leaves with [return s]. *)
Definition leave_tile (k : nat) (B : GRDBLEND_INFO)
  : GRDBLEND_INFO * list event * option gmt_status :=
  let B1 := set_outside true B in
  if open B1 then
    if GMT_Destroy_Data env (file B1) then (B1, [ev_close k], Some GMT_NOERROR)
    else
      (set_z [] (set_open false B1),
       [ev_close k; ev_destroy k; ev_free_z k; ev_free_RbR k]
         ++ (if delete B1 then [ev_remove k (file B1)] else []),
       None)
  else (B1, [], None).

(** Line 633. *)
Definition get_row (k : nat) (B : GRDBLEND_INFO)
  : GRDBLEND_INFO * list event * option gmt_status :=
  let (r, rbr) := GMT_Get_Row env (file B) (RbR B) in
  (set_z r (set_RbR rbr B), [ev_get_row k], None).

(** Lines 605-634: the tile's row is fetched, the file being opened on
    the first visit. *)
Definition fetch_tile (k : nat) (row : Z) (B : GRDBLEND_INFO)
  : GRDBLEND_INFO * list event * option gmt_status :=
  if memory B then
    (set_z (nth (Z.to_nat (row - out_j0 B)) (data B) []) B, [], None)
  else if open B then get_row k B
  else
    match GMT_Read_Data env (file B) with
    | None => (B, [], Some GMT_GRID_READ_ERROR)
    | Some (t, rbr) =>
        let B1 := set_RbR rbr (set_G t B) in
        if negb (skip B1 =? 0) then
          if fseek env (file B1) (skip B1)
          then (B1, [ev_open k; ev_seek k (skip B1)], Some GMT_GRDIO_SEEK_FAILED)
          else
            let B2 := set_RbR (mk_RbR (n_byte rbr) (start0 rbr) (fpos rbr + skip B1)) B1 in
            let '(B3, evs, ret) := get_row k (set_open true B2) in
            (B3, [ev_open k; ev_seek k (skip B1)] ++ evs, ret)
        else
          let B2 := set_RbR (mk_RbR (n_byte rbr) (start0 rbr + offset B1) (fpos rbr)) B1 in
          let '(B3, evs, ret) := get_row k (set_open true B2) in
          (B3, ev_open k :: evs, ret)
    end.

(** The body of the loop at line 581 for tile [k]. *)
Definition sync_tile (row : Z) (half : float) (k : nat) (B : GRDBLEND_INFO)
  : GRDBLEND_INFO * list event * option gmt_status :=
  if ignore B then (B, [], None)
  else if (row <? out_j0 B) || (row >? out_j1 B) then leave_tile k B
  else
    let B1 := set_outside false B in
    let B2 := set_wt_y (taper_y row half B1 * weight B1)%float B1 in
    fetch_tile k row B2.

(** The loop at line 581, from tile [k] on: a [return] leaves the later
    tiles as they were. *)
Fixpoint sync_from (k : nat) (row : Z) (half : float) (Bs : list GRDBLEND_INFO)
  : list GRDBLEND_INFO * list event * gmt_status :=
  match Bs with
  | [] => ([], [], GMT_NOERROR)
  | B :: rest =>
      let '(B', evs, ret) := sync_tile row half k B in
      match ret with
      | Some s => (B' :: rest, evs, s)
      | None =>
          let '(rest', evs', s) := sync_from (S k) row half rest in
          (B' :: rest', evs ++ evs', s)
      end
  end.

Definition grdblend_sync_input_rows (row : Z) (Bs : list GRDBLEND_INFO) (half : float)
  : list GRDBLEND_INFO * list event * gmt_status :=
  sync_from 0 row half Bs.

End RowSynchronizer.

(* ================================================================== *)
(** ** The node loop of GMT_grdblend (lines 1013-1092) *)
(* ================================================================== *)

(** The scalars of one output node: [z[col]], [w], [m], [first_grid],
    [not_nan]. *)
Record node_state : Type := mk_node {
  nz : float;
  nw : float;
  nm : Z;
  first_grid : bool;
  seen_not_nan : bool
}.

(** Lines 1005 and 1015-1018. *)
Definition node_init : node_state := mk_node 0 0 0 true false.

(** [n_fill] and the running extrema of the output header. *)
Record blend_stats : Type := mk_stats {
  n_fill : Z;
  z_min : float;
  z_max : float
}.

(** The [while] of line 1023. *)
Fixpoint wind_pcol (fuel : nat) (last nx pcol : Z) : Z :=
  match fuel with
  | O => pcol
  | S fuel' => if last <? pcol then wind_pcol fuel' last nx (pcol - nx) else pcol
  end.

(** Lines 1035-1037: [true] when the [switch] on the mode ends in
    [continue]. *)
Definition clobber_keeps (mode : clobber_mode) (m : Z) (v zc : float) : bool :=
  match mode with
  | BLEND_FIRST => negb (m =? 0)
  | BLEND_UPPER => negb (m =? 0) && (v <=? zc)%float
  | BLEND_LOWER => negb (m =? 0) && (zc <=? v)%float
  | BLEND_LAST => false
  end.

(** Line 1001: the number of columns in 360 degrees of longitude. *)
Definition grid_nx_360 (h : GMT_GRID_HEADER) : Z := urint (360 * r_inc_x h)%float.

Section Compositor.

Variable env : Collaborators.
Variable Ctrl : GRDBLEND_CTRL.

(** The output header: [wrap_x], [nx_360] and [xy_off] of lines 1000-1001
    and 1056. *)
Variable wrap_x : bool.
Variable nx_360 : Z.
Variable half : float.

(** Lines 1021-1029: the column of the tile that lies under output
    column [col], or [None] when the tile is passed over.  With
    [nx_360 = 0] the loop of line 1023 never ends; the model then passes
    the tile over. *)
Definition tile_pcol (col : Z) (B : GRDBLEND_INFO) : option Z :=
  if wrap_x then
    let p0 := col + nx_360 in
    let p := wind_pcol (Z.to_nat (p0 - out_i1 B)) (out_i1 B) nx_360 p0 in
    if out_i1 B <? p then None
    else if p <? out_i0 B then None
    else Some p
  else if (col <? out_i0 B) || (col >? out_i1 B) then None
  else Some col.

(** The value [blend[k].z[kk]] that tile [B] offers to the node, when the
    loop gets as far as line 1032 (lines 1019-1031). *)
Definition tile_value (col : Z) (B : GRDBLEND_INFO) : option (Z * float) :=
  if ignore B then None
  else if outside B then None
  else
    match tile_pcol col B with
    | None => None
    | Some pcol =>
        let v := nth (Z.to_nat (pcol - out_i0 B)) (z B) nan in
        if gmt_M_is_fnan v then None else Some (pcol, v)
    end.

(** Lines 1055-1060. *)
Definition taper_x (pcol : Z) (B : GRDBLEND_INFO) : float :=
  if pcol <=? in_i0 B then
    (0.5 * (1 - cos env ((float_of_int (pcol - out_i0 B) + half) * wxl B)))%float
  else if pcol >=? in_i1 B then
    (0.5 * (1 - cos env ((float_of_int (out_i1 B - pcol) + half) * wxr B)))%float
  else 1%float.

(** Lines 1061-1062. *)
Definition blend_weight (pcol : Z) (B : GRDBLEND_INFO) : float :=
  let wt := (taper_x pcol B * wt_y B)%float in
  if invert B then (weight B - wt)%float else wt.

(** Lines 1050-1052. *)
Definition pick (v : float) (st : node_state) : node_state :=
  mk_node v 1 1 (first_grid st) (seen_not_nan st).

(** Lines 1041 and 1044: the first grid seeds [z[col]] only. *)
Definition seed (v : float) (st : node_state) : node_state :=
  mk_node v (nw st) (nm st) false (seen_not_nan st).

(** Lines 1033-1053. *)
Definition clobber_step (v : float) (st : node_state) : node_state :=
  if clobber_keeps (C_mode Ctrl) (nm st) v (nz st) then st
  else
    match C_sign Ctrl with
    | -1 => if first_grid st then seed v st
            else if (0 <? v)%float then st else pick v st
    | 1 => if first_grid st then seed v st
           else if (v <? 0)%float then st else pick v st
    | _ => pick v st
    end.

(** Lines 1054-1066. *)
Definition blend_step (wt v : float) (st : node_state) : node_state :=
  mk_node (to_grdfloat (nz st + to_grdfloat (wt * v)))%float
          (nw st + wt)%float (nm st + 1) (first_grid st) (seen_not_nan st).

(** The body of the loop at line 1018 for one tile. *)
Definition node_step (col : Z) (st : node_state) (B : GRDBLEND_INFO) : node_state :=
  match tile_value col B with
  | None => st
  | Some (pcol, v) =>
      let st1 := mk_node (nz st) (nw st) (nm st) (first_grid st) true in
      if C_active Ctrl then clobber_step v st1
      else blend_step (blend_weight pcol B) v st1
  end.

(** Line 1069. *)
Definition sign_fixup (st : node_state) : node_state :=
  if negb (C_sign Ctrl =? 0) && (nm st =? 0) && seen_not_nan st
  then mk_node (nz st) 1 1 (first_grid st) (seen_not_nan st)
  else st.

(** Lines 1015-1069: the scalars of the node once all tiles are seen. *)
Definition node_gather (blend : list GRDBLEND_INFO) (col : Z) : node_state :=
  sign_fixup (fold_left (node_step col) blend node_init).

(** Line 996. *)
Definition out_case : Z := if W_active Ctrl then 1 + W_mode Ctrl else 0.

(** Lines 1072-1083. *)
Definition node_output (zc w : float) : float :=
  match out_case with
  | 0 =>
      let a := to_grdfloat (if (w =? 0)%float then 0 else zc / w)%float in
      if Z_active Ctrl then to_grdfloat (a * to_grdfloat (Z_scale Ctrl))%float else a
  | 1 => to_grdfloat w
  | 2 => to_grdfloat (zc * w)%float
  | _ => zc
  end.

(** Lines 1084-1086. *)
Definition count_node (v : float) (s : blend_stats) : blend_stats :=
  let lo := if (v <? z_min s)%float then v else z_min s in
  let hi := if (z_max s <? v)%float then v else z_max s in
  mk_stats ((n_fill s + 1) mod 2 ^ 64) lo hi.

(** Lines 1071-1091: the value stored in [z[col]] and the statistics.
    Lines 1087-1088 write only [m], which line 1018 sets anew for the
    next node. *)
Definition node_emit (no_data_f : float) (st : node_state) (s : blend_stats)
  : float * blend_stats :=
  if negb (nm st =? 0) then
    let v := node_output (nz st) (nw st) in
    (v, count_node v s)
  else (no_data_f, s).

Definition blend_node (no_data_f : float) (blend : list GRDBLEND_INFO) (col : Z)
           (s : blend_stats) : float * blend_stats :=
  node_emit no_data_f (node_gather blend col) s.

(** The loop at line 1013 over the columns [col, col + n). *)
Fixpoint blend_columns (n : nat) (col : Z) (no_data_f : float)
         (blend : list GRDBLEND_INFO) (s : blend_stats) : list float * blend_stats :=
  match n with
  | O => ([], s)
  | S n' =>
      let (v, s1) := blend_node no_data_f blend col s in
      let (vs, s2) := blend_columns n' (col + 1) no_data_f blend s1 in
      (v :: vs, s2)
  end.

(** The loop at line 1003 over the rows [row, row + n): what the run
    leaves behind. *)
Record blend_run : Type := mk_run {
  run_tiles : list GRDBLEND_INFO;
  run_trace : list (Z * event);
  run_rows : list (list float);
  run_stats : blend_stats;
  run_status : gmt_status
}.

Fixpoint blend_rows (n : nat) (row : Z) (n_cols : nat) (no_data_f : float)
         (blend : list GRDBLEND_INFO) (s : blend_stats) : blend_run :=
  match n with
  | O => mk_run blend [] [] s GMT_NOERROR
  | S n' =>
      let '(blend1, evs, status) := grdblend_sync_input_rows env row blend half in
      let here := map (pair row) evs in
      match status with
      | GMT_NOERROR =>
          let (zrow, s1) := blend_columns n_cols 0 no_data_f blend1 s in
          let r := blend_rows n' (row + 1) n_cols no_data_f blend1 s1 in
          mk_run (run_tiles r) (here ++ run_trace r) (zrow :: run_rows r)
                 (run_stats r) (run_status r)
      | _ => mk_run blend1 here [] s status
      end
  end.

End Compositor.

(* ================================================================== *)
(** ** Views of a node used in the statements *)
(* ================================================================== *)

Section NodeViews.

Variable env : Collaborators.
Variable wrap_x : bool.
Variable nx_360 : Z.
Variable half : float.

(** The values that reach line 1032 for a node, in the order of the
    blend array. *)
Definition node_offers (blend : list GRDBLEND_INFO) (col : Z) : list float :=
  flat_map (fun B => match tile_value wrap_x nx_360 col B with
                     | Some (_, v) => [v]
                     | None => []
                     end) blend.

(** The same tiles with the weight line 1062 gives each of them. *)
Definition node_terms (blend : list GRDBLEND_INFO) (col : Z) : list (float * float) :=
  flat_map (fun B => match tile_value wrap_x nx_360 col B with
                     | Some (pcol, v) => [(blend_weight env half pcol B, v)]
                     | None => []
                     end) blend.

End NodeViews.

(** Sum of weight times value, added up in [gmt_grdfloat] as line 1063
    does, and the sum of the weights of line 1064. *)
Definition weighted_sum (terms : list (float * float)) : float :=
  fold_left (fun acc t => to_grdfloat (acc + to_grdfloat (fst t * snd t))%float) terms 0%float.

Definition weight_sum (terms : list (float * float)) : float :=
  fold_left (fun acc t => (acc + fst t)%float) terms 0%float.

(** The tile an outcome carries on, if any. *)
Definition outcome_tile (o : tile_outcome) : option GRDBLEND_INFO :=
  match o with
  | tile_ready B => Some B
  | _ => None
  end.

(** The side test of lines 151-154: the residual is neither below the
    limit nor within the limit of one. *)
Definition side_out_of_phase (g h : GMT_GRID_HEADER) (side : nat) : bool :=
  let a := phase_residual g h side in
  negb (a <? GMT_CONV8_LIMIT)%float && negb (1 - a <? GMT_CONV8_LIMIT)%float.

(* ------------------------------------------------------------------ *)
(** *** The specification's wording, for comparison with the code *)

(** Section 4.5 on the output modes: [Value] divides the weighted sum by
    the weight sum (and may scale it), [WeightOnly] gives the weight sum,
    [WeightTimesValue] the weighted sum itself. *)
Definition spec_output (Ctrl : GRDBLEND_CTRL) (zsum wsum : float) : float :=
  if W_active Ctrl then
    if W_mode Ctrl =? 0 then to_grdfloat wsum else to_grdfloat zsum
  else
    let a := to_grdfloat (zsum / wsum)%float in
    if Z_active Ctrl then to_grdfloat (a * to_grdfloat (Z_scale Ctrl))%float else a.

(** Section 4.2 on the phase test: the residual of the distance between
    the tile's edge and the output's edge, which must be within 1e-8 of 0
    or of 1. *)
Definition spec_phase_residual (t h : GMT_GRID_HEADER) (side : nat) : float :=
  fmod_one (abs ((side_of (wesn t) side - side_of (wesn h) side)
                 / inc_of h (Nat.div side 2)))%float.

Definition spec_must_resample (t h : GMT_GRID_HEADER) : bool :=
  inc_mismatch t h
  || existsb (fun side =>
                let a := spec_phase_residual t h side in
                (GMT_CONV8_LIMIT <? abs (a - 0))%float
                && (GMT_CONV8_LIMIT <? abs (a - 1))%float)
             [0; 1; 2; 3]%nat.


(** Section 4.1: an inner edge that coincides with its outer edge. *)
Definition degenerate_taper (B : GRDBLEND_INFO) : bool :=
  (XLO (inner B) =? XLO (wesn (G B)))%float || (XHI (inner B) =? XHI (wesn (G B)))%float
  || (YLO (inner B) =? YLO (wesn (G B)))%float || (YHI (inner B) =? YHI (wesn (G B)))%float.

(** The usage text of [-C]: [+n] considers a value only if it is <= 0,
    [+p] only if it is >= 0. *)
Definition passes_sign_filter (sign : Z) (v : float) : bool :=
  match sign with
  | -1 => (v <=? 0)%float
  | 1 => (0 <=? v)%float
  | _ => true
  end.

(* ------------------------------------------------------------------ *)
(** *** Predicates on tiles, events and services *)

(** Line 1032. *)
Definition mark (st : node_state) : node_state :=
  mk_node (nz st) (nw st) (nm st) (first_grid st) true.

(** What the synchroniser never writes to. *)
Definition same_static (B B' : GRDBLEND_INFO) : Prop :=
  ignore B' = ignore B /\ out_j0 B' = out_j0 B /\ out_j1 B' = out_j1 B
  /\ delete B' = delete B /\ file B' = file B /\ memory B' = memory B.

(** The guard under which the synchroniser lets event [e] happen to tile
    [k] at row [row]: reading inside the row range, releasing outside
    it, removal only of a file flagged for deletion. *)
Definition event_guard (row : Z) (k : nat) (B : GRDBLEND_INFO) (e : event) : Prop :=
  ignore B = false
  /\ match e with
     | ev_open j | ev_seek j _ | ev_get_row j =>
         j = k /\ out_j0 B <= row <= out_j1 B
     | ev_close j | ev_destroy j | ev_free_z j | ev_free_RbR j =>
         j = k /\ (row < out_j0 B \/ out_j1 B < row)
     | ev_remove j name =>
         j = k /\ (row < out_j0 B \/ out_j1 B < row)
         /\ delete B = true /\ name = file B
     end.

(** The grid reader does what it is asked: grids are released and
    opened, and seeks succeed. *)
Definition reader_succeeds (env : Collaborators) : Prop :=
  (forall name, GMT_Destroy_Data env name = false)
  /\ (forall name, GMT_Read_Data env name <> None)
  /\ (forall name bytes, fseek env name bytes = false).

(** The index bounds and taper coefficients of [B] are those that lines
    527-539 compute from its header and inner region. *)
Definition settled (h : GMT_GRID_HEADER) (B : GRDBLEND_INFO) : Prop :=
  blend_geometry h B = B.

(** Every service of the GMT library does what it is asked. *)
Definition services_succeed (env : Collaborators) : Prop :=
  (forall name, GMT_Destroy_Data env name = false)
  /\ (forall name, GMT_Read_Data env name <> None)
  /\ (forall prefix, gmt_get_tempname env prefix <> None)
  /\ (forall module name, GMT_Call_Module env module name = false).

(* ================================================================== *)
(** ** Statement vocabulary for the clobber modes *)
(* ================================================================== *)

(** The same options without the sign modifier of [-C]. *)
Definition without_sign (Ctrl : GRDBLEND_CTRL) : GRDBLEND_CTRL :=
  mk_ctrl (C_active Ctrl) (C_mode Ctrl) 0 (W_active Ctrl) (W_mode Ctrl)
          (Z_active Ctrl) (Z_scale Ctrl).

(** What every step of a clobber mode keeps once a value was offered:
    [z[col]] holds one of the values on offer, and [w] and [m] are both
    one, or both still unset under a sign modifier. *)
Definition clobbered (Ctrl : GRDBLEND_CTRL) (vs : list float) (st : node_state) : Prop :=
  In (nz st) vs /\ seen_not_nan st = true
  /\ (nm st = 1 /\ nw st = 1%float
      \/ nm st = 0 /\ nw st = 0%float /\ (C_sign Ctrl = -1 \/ C_sign Ctrl = 1)).

(* ================================================================== *)
(** ** Statement vocabulary for the extrema *)
(* ================================================================== *)

(** [v], if it is a number, lies between the extrema of [s]. *)
Definition within (s : blend_stats) (v : float) : Prop :=
  is_nan v = false -> (z_min s <=? v)%float = true /\ (v <=? z_max s)%float = true.

(** The extrema of [s'] are numbers that enclose those of [s]. *)
Definition widened (s s' : blend_stats) : Prop :=
  (z_min s' <=? z_min s)%float = true /\ (z_max s <=? z_max s')%float = true.

(** [DBL_MAX] of the C library, the largest finite binary64. *)
Definition DBL_MAX : float := 0x1.fffffffffffffp+1023%float.

(** Line 998: the extrema of the output header before the first row; the
    fill count starts at zero (line 951). *)
Definition stats_init : blend_stats := mk_stats 0 DBL_MAX (- DBL_MAX)%float.

(* ================================================================== *)
(** ** Statement vocabulary for the synchroniser *)
(* ================================================================== *)

(** What the synchroniser never writes to, besides [same_static]: the
    column bounds, the taper coefficients and the weight. *)
Definition same_columns (B B' : GRDBLEND_INFO) : Prop :=
  in_i0 B' = in_i0 B /\ in_i1 B' = in_i1 B /\ out_i0 B' = out_i0 B /\ out_i1 B' = out_i1 B
  /\ wxl B' = wxl B /\ wxr B' = wxr B /\ weight B' = weight B /\ invert B' = invert B
  /\ skip B' = skip B.

(* ================================================================== *)
(** ** The release of the tiles (lines 1124-1135) and the trace of a whole scan *)
(* ================================================================== *)

(** The tile an event belongs to. *)
Definition ev_tile (e : event) : nat :=
  match e with
  | ev_open k | ev_seek k _ | ev_get_row k | ev_close k | ev_destroy k
  | ev_free_z k | ev_free_RbR k | ev_remove k _ => k
  end.

(** The events of tile [k], in the order in which they happen. *)
Definition tile_events (k : nat) (evs : list event) : list event :=
  filter (fun e => Nat.eqb (ev_tile e) k) evs.


(** How the scan of [GMT_grdblend] ends (lines 1003-1135). *)
Inductive job_end : Type :=
  | job_completed                       (* line 1137 is reached *)
  | job_sync_failed (s : gmt_status)    (* [Return (status)] of line 1010 *)
  | job_write_failed                    (* a [Return] of lines 1106-1119 *)
  | job_release_failed (k : nat).       (* [Return (error)] of line 1133 *)

Record blend_job : Type := mk_job {
  job_run : blend_run;
  job_release : list event;
  job_end_of : job_end
}.

Section Release.

Variable env : Collaborators.

(** Lines 1125-1134 for tile [k]; the second component is [true] when
    [GMT_Destroy_Data] fails and line 1133 leaves the function. *)
Definition release_tile (k : nat) (B : GRDBLEND_INFO) : list event * bool :=
  let freed := if open B || memory B then [ev_free_z k; ev_free_RbR k] else [] in
  if open B then
    let closed := ev_close k :: (if delete B then [ev_remove k (file B)] else []) in
    if GMT_Destroy_Data env (file B) then (freed ++ closed, true)
    else (freed ++ closed ++ [ev_destroy k], false)
  else (freed, false).

(** The loop of line 1124, from tile [k] on. *)
Fixpoint release_from (k : nat) (Bs : list GRDBLEND_INFO) : list event * option nat :=
  match Bs with
  | [] => ([], None)
  | B :: rest =>
      let (evs, failed) := release_tile k B in
      if failed then (evs, Some k)
      else
        let (evs', r) := release_from (S k) rest in
        (evs ++ evs', r)
  end.

(** Lines 1003-1135: the scan of the rows, the completion of the output
    grid ([written] tells whether the calls of lines 1106-1119
    succeeded), and the release of the tiles. *)
Definition scan_and_release (Ctrl : GRDBLEND_CTRL) (wrap_x : bool) (nx_360 : Z)
           (half : float) (n_rows n_cols : nat) (no_data_f : float) (written : bool)
           (blend : list GRDBLEND_INFO) (s : blend_stats) : blend_job :=
  let r := blend_rows env Ctrl wrap_x nx_360 half n_rows 0 n_cols no_data_f blend s in
  match run_status r with
  | GMT_NOERROR =>
      if written then
        let (evs, failed) := release_from 0 (run_tiles r) in
        mk_job r evs match failed with
                     | Some k => job_release_failed k
                     | None => job_completed
                     end
      else mk_job r [] job_write_failed
  | st => mk_job r [] (job_sync_failed st)
  end.

End Release.

(** Everything that happened to the tiles, scan and release. *)
Definition job_events (j : blend_job) : list event :=
  map snd (run_trace (job_run j)) ++ job_release j.

(** The three passages in the life of a tile read from a file: the
    first visit (lines 613-631), the release during the scan (lines
    586-592) and the release after it (lines 1125-1134). *)
Definition tile_opening (k : nat) (B : GRDBLEND_INFO) : list event :=
  ev_open k :: (if skip B =? 0 then [] else [ev_seek k (skip B)]).

Definition release_in_scan (k : nat) (B : GRDBLEND_INFO) : list event :=
  [ev_close k; ev_destroy k; ev_free_z k; ev_free_RbR k]
    ++ (if delete B then [ev_remove k (file B)] else []).

Definition release_at_end (k : nat) (B : GRDBLEND_INFO) : list event :=
  [ev_free_z k; ev_free_RbR k; ev_close k]
    ++ (if delete B then [ev_remove k (file B)] else []) ++ [ev_destroy k].

(** The rows [row, row + n) as one tile sees them: the tile at the end
    and its events. *)
Fixpoint tile_history (env : Collaborators) (half : float) (k : nat) (n : nat) (row : Z)
         (B : GRDBLEND_INFO) : GRDBLEND_INFO * list event :=
  match n with
  | O => (B, [])
  | S n' =>
      let '(B1, evs, _) := sync_tile env row half k B in
      let (B2, evs') := tile_history env half k n' (row + 1) B1 in
      (B2, evs ++ evs')
  end.

(** What two tiles with the same static fields have in common. *)
Definition same_life (B B' : GRDBLEND_INFO) : Prop :=
  same_static B B' /\ skip B' = skip B.

(* ================================================================== *)
(** ** parse, option -C (lines 740-767) and its usage text (lines 689-697) *)
(* ================================================================== *)

(** [s[i]] of a C string: the characters, then the terminating NUL;
    [None] beyond the terminator, where the read is undefined. *)
Definition char_at (s : string) (i : nat) : option ascii :=
  match String.get i s with
  | Some c => Some c
  | None => if Nat.eqb i (String.length s) then Some Ascii.zero else None
  end.

(** [strstr (hay, needle) != NULL]. *)
Fixpoint strstr (hay needle : string) : bool :=
  String.prefix needle hay
  || match hay with
     | EmptyString => false
     | String _ rest => strstr rest needle
     end.

(** Lines 742-766 of [parse]: the argument of [-C].  [C] holds
    [Ctrl->C.mode] and [Ctrl->C.sign] as the option finds them; the result
    is the new mode, the new sign and the number of errors counted, or
    [None] when line 757 reads beyond the terminator of [arg]. *)
Definition parse_C (arg : string) (C : clobber_mode * Z) : option (clobber_mode * Z * Z) :=
  let c0 := match char_at arg 0 with Some c => c | None => Ascii.zero end in
  let '(mode, n_errors) :=
    if Ascii.eqb c0 "f" then (BLEND_FIRST, 0)
    else if Ascii.eqb c0 "l" then (BLEND_LOWER, 0)
    else if Ascii.eqb c0 "o" then (BLEND_LAST, 0)
    else if Ascii.eqb c0 "u" then (BLEND_UPPER, 0)
    else (fst C, 1) in
  if strstr arg "+p" then Some (mode, 1, n_errors)
  else if strstr arg "+n" then Some (mode, -1, n_errors)
  else
    match char_at arg 1 with
    | None => None
    | Some c1 =>
        if Ascii.eqb c1 "-" then Some (mode, -1, n_errors)
        else if Ascii.eqb c1 "+" then Some (mode, 1, n_errors)
        else if Ascii.eqb c1 Ascii.zero then Some (mode, 0, n_errors)
        else Some (mode, snd C, n_errors + 1)
    end.

(** The argument that the usage text (lines 689-697) gives for a mode
    and a sign: [f|l|o|u] followed by nothing, [+n] or [+p]. *)
Definition usage_C (mode : clobber_mode) (sign : Z) : string :=
  (match mode with
   | BLEND_FIRST => "f"
   | BLEND_LOWER => "l"
   | BLEND_LAST => "o"
   | BLEND_UPPER => "u"
   end
   ++ match sign with
      | -1 => "+n"
      | 1 => "+p"
      | _ => ""
      end)%string.

(* ================================================================== *)
(** ** The blend file (lines 262-285) and grdblend_found_unsupported_format (lines 109-126) *)
(* ================================================================== *)

(** One entry of the [struct BLEND_LIST] of line 223. *)
Record BLEND_LIST : Type := mk_entry {
  L_file : string;
  L_region : string;
  L_weight : float
}.

Section BlendFile.

(** [gmt_char_count] and [atof], which live outside the module. *)
Variable gmt_char_count : string -> ascii -> Z.
Variable atof : string -> float.

(** Lines 262-285: one record of the blend file.  [ret] is what [sscanf]
    returned and [file], [r_in], [weight] what the three variables hold
    after the call; [n_scanned] is an [unsigned int].  [None] is the
    [return (-GMT_DATA_READ_ERROR)] of line 266. *)
Definition blend_record (ret : Z) (file r_in : string) (weight : float)
  : option BLEND_LIST :=
  let n_scanned := ret mod 2 ^ 32 in
  if n_scanned <? 1 then None
  else
    let nr := if 1 <? n_scanned then gmt_char_count r_in "/" else 0 in
    let got_region := (1 <? n_scanned) && (nr =? 3) in
    let region := if got_region
                  then (if String.prefix "-R" r_in then r_in else "-R" ++ r_in)%string
                  else "-"%string in
    let weight1 := if (n_scanned =? 2) && negb got_region then atof r_in else weight in
    Some (mk_entry file region
            (if (n_scanned =? 1) || ((n_scanned =? 2) && got_region) then 1%float
             else weight1)).

End BlendFile.

(** Line 112: the formats without row-by-row input. *)
Definition not_supported_names : list string :=
  ["rb"; "rf"; "sf"; "sd"; "af"; "ei"; "ef"; "gd"]%string.

(** What [grdblend_found_unsupported_format] returns: [GMT_NOERROR], 1 or
    [GMT_GRDIO_UNKNOWN_FORMAT]. *)
Inductive format_verdict : Type :=
  | format_row_by_row
  | format_needs_reformat
  | format_unknown.

(** Lines 113-125; [decoder] is [gmt_grd_format_decoder], [None] when it
    does not return [GMT_NOERROR], and [h_type] the member [type] of the
    header. *)
Fixpoint found_unsupported_from (decoder : string -> option Z) (names : list string)
         (h_type : Z) : format_verdict :=
  match names with
  | [] => format_row_by_row
  | name :: rest =>
      match decoder name with
      | None => format_unknown
      | Some type =>
          if h_type =? type then format_needs_reformat
          else found_unsupported_from decoder rest h_type
      end
  end.

Definition grdblend_found_unsupported_format (decoder : string -> option Z) (h_type : Z)
  : format_verdict :=
  found_unsupported_from decoder not_supported_names h_type.

(* ================================================================== *)
(** ** grdblend_init_blend_job as a whole (lines 207-574) *)
(* ================================================================== *)

Definition reg_eqb (a b : grid_registration) : bool :=
  Z.eqb (reg_code a) (reg_code b).

(** What the first loop of [grdblend_init_blend_job] gathers when no
    output region was given (lines 315 and 348-360). *)
Record region_scan : Type := mk_scan {
  scan_wesn : region;
  common_inc : bool;
  common_reg : bool
}.

(** Lines 212 and 315. *)
Definition scan_start : region_scan :=
  mk_scan (mk_region DBL_MAX (- DBL_MAX) DBL_MAX (- DBL_MAX)) true true.

(** Lines 349-359 for the tile with header [t]; [t0] is the header of
    tile 0 and [first] tells whether [n] is 0. *)
Definition scan_tile (t0 : GMT_GRID_HEADER) (first : bool) (st : region_scan)
           (t : GMT_GRID_HEADER) : region_scan :=
  let w := scan_wesn st in
  let ylo := if (YLO (wesn t) <? YLO w)%float then YLO (wesn t) else YLO w in
  let yhi := if (YHI w <? YHI (wesn t))%float then YHI (wesn t) else YHI w in
  let xlo := if (XLO (wesn t) <? XLO w)%float then XLO (wesn t) else XLO w in
  let xhi := if (XHI w <? XHI (wesn t))%float then XHI (wesn t) else XHI w in
  let ci := if first then common_inc st
            else if (INC_TOLERANCE <? abs ((inc_x t - inc_x t0) / inc_x t0))%float
                    || (INC_TOLERANCE <? abs ((inc_y t - inc_y t0) / inc_y t0))%float
                 then false else common_inc st in
  let cr := if reg_eqb (registration t) (registration t0) then common_reg st else false in
  mk_scan (mk_region xlo xhi ylo yhi) ci cr.

Fixpoint scan_from (t0 : GMT_GRID_HEADER) (first : bool) (st : region_scan)
         (ts : list GMT_GRID_HEADER) : region_scan :=
  match ts with
  | [] => st
  | t :: rest => scan_from t0 false (scan_tile t0 first st t) rest
  end.

(** The scan over the headers of all tiles, in the order of the list. *)
Definition scan_tiles (ts : list GMT_GRID_HEADER) : region_scan :=
  match ts with
  | [] => scan_start
  | t0 :: _ => scan_from t0 true scan_start ts
  end.

(** Lines 369-374: [true] when the job is abandoned with
    [-GMT_RUNTIME_ERROR]; [iset] and [gset] tell whether [-I] and [-r]
    were given. *)
Definition needs_I_or_r (st : region_scan) (iset gset : bool) : bool :=
  (negb (common_inc st) && negb iset) || (negb (common_reg st) && negb gset).

Definition region_numbers (w : region) : Prop :=
  is_nan (XLO w) = false /\ is_nan (XHI w) = false
  /\ is_nan (YLO w) = false /\ is_nan (YHI w) = false.

(** [w] lies within [u]. *)
Definition region_within (w u : region) : Prop :=
  (XLO u <=? XLO w)%float = true /\ (XHI w <=? XHI u)%float = true
  /\ (YLO u <=? YLO w)%float = true /\ (YHI w <=? YHI u)%float = true.

(** How [grdblend_init_blend_job] ends: with [return (status)], the
    blend array being passed back through [*blend] only at line 571, or
    with the loop of line 167 still turning. *)
Inductive job_result : Type :=
  | job_returns (status : Z) (blend : option (list GRDBLEND_INFO)) (h : GMT_GRID_HEADER)
  | job_unfinished.

Inductive loop_result : Type :=
  | loop_done (Bs : list GRDBLEND_INFO)
  | loop_returns (status : Z)
  | loop_unfinished.

(** The value of [not_supported] after line 339. *)
Definition format_flag (v : format_verdict) : Z :=
  match v with
  | format_needs_reformat => 1
  | _ => 0
  end.

(** [&s[2]]. *)
Definition skip_two (s : string) : string :=
  match s with
  | String _ (String _ rest) => rest
  | _ => EmptyString
  end.

(** Line 917: what [GMT_grdblend] does with the status: [inl c] is
    [Return (c)], [inr n] goes on with [n_blend = n]. *)
Definition takes_status (status : Z) : Z + Z :=
  if status <? 0 then inl (- status) else inr status.

Section BlendJob.

Variable env : Collaborators.
Variable fuel : nat.

(** [gmt_M_x_is_lon (GMT, GMT_IN)]. *)
Variable x_is_lon : bool.

(** What lives outside the module: the values of the error codes, the
    macro [gmt_M_file_is_memory], the rows of a grid held in memory, the
    format decoder, the member [type] of a header, and the scanner of
    [grdblend_decode_R] (lines 128-142) applied to a zeroed [wesn]. *)
Variable code_of : gmt_status -> Z.
Variable GMT_NOT_A_VALID_LOGMODE : Z.
Variable gmt_M_file_is_memory : string -> bool.
Variable memory_rows : string -> list (list float).
Variable decoder : string -> option Z.
Variable header_type : GMT_GRID_HEADER -> Z.
Variable grdblend_decode_R : string -> region.

(** Lines 328-347 for one entry of the list; [B[n]] comes zeroed from
    [gmt_M_memory] (line 314).  [inr] is the status of a [return]. *)
Definition read_tile (L : BLEND_LIST) : (GRDBLEND_INFO * format_verdict) + Z :=
  let mem := gmt_M_file_is_memory (L_file L) in
  match GMT_Read_Data env (L_file L) with
  | None => inr (- code_of GMT_DATA_READ_ERROR)
  | Some (t, rbr) =>
      match grdblend_found_unsupported_format decoder (header_type t) with
      | format_unknown => inr (- GMT_NOT_A_VALID_LOGMODE)
      | v =>
          let inner := if String.eqb (L_region L) "-" then wesn t
                       else grdblend_decode_R (skip_two (L_region L)) in
          inl (mk_info t (if mem then memory_rows (L_file L) else []) rbr
                       0 0 0 0 0 0 0 0 0 0 false false false false false mem
                       (L_file L) (L_weight L) 0 0 0 0 0 inner [], v)
      end
  end.

(** The loop of line 318 for an output header that is preset; the second
    component is [not_supported] as the loop leaves it. *)
Fixpoint read_tiles (Ls : list BLEND_LIST) (not_supported : Z)
  : (list GRDBLEND_INFO * Z) + Z :=
  match Ls with
  | [] => inl ([], not_supported)
  | L :: rest =>
      match read_tile L with
      | inr status => inr status
      | inl (B, v) =>
          match read_tiles rest (format_flag v) with
          | inr status => inr status
          | inl (Bs, ns) => inl (B :: Bs, ns)
          end
      end
  end.

(** The loop of line 399. *)
Fixpoint init_tiles (h : GMT_GRID_HEADER) (not_supported : Z) (Bs : list GRDBLEND_INFO)
  : loop_result :=
  match Bs with
  | [] => loop_done []
  | B :: rest =>
      match init_tile env fuel x_is_lon h not_supported B with
      | tile_unfinished => loop_unfinished
      | tile_failed negated code =>
          loop_returns (if negated then - code_of code else code_of code)
      | tile_skipped B' | tile_ready B' =>
          match init_tiles h not_supported rest with
          | loop_done rest' => loop_done (B' :: rest')
          | r => r
          end
      end
  end.

(** Lines 299-312: the shift of the output region of an SRTM job. *)
Definition srtm_sub (srtm_job : bool) (h : GMT_GRID_HEADER) : float :=
  if srtm_job then
    if (180 <? XHI (wesn h))%float then 360%float
    else if (XLO (wesn h) <? -180)%float then (-360)%float
    else 0%float
  else 0%float.

(** [grdblend_init_blend_job] (lines 299-574) from the list [L] on, for
    a job whose output header [h] is preset ([h != NULL] on entry). *)
Definition grdblend_init_blend_job (Ls : list BLEND_LIST) (srtm_job : bool)
           (h : GMT_GRID_HEADER) : job_result :=
  let sub := srtm_sub srtm_job h in
  let shifted := srtm_job && ((180 <? XHI (wesn h))%float || (XLO (wesn h) <? -180)%float) in
  let h1 := if shifted
            then set_header_lon h (XLO (wesn h) - sub)%float (XHI (wesn h) - sub)%float
            else h in
  match read_tiles Ls 0 with
  | inr status => job_returns status None h1
  | inl (Bs, not_supported) =>
      match init_tiles h1 not_supported Bs with
      | loop_unfinished => job_unfinished
      | loop_returns status => job_returns status None h1
      | loop_done Bs' =>
          let h2 := if (0 <? abs sub)%float
                    then set_header_lon h1 (XLO (wesn h1) + sub)%float
                                        (XHI (wesn h1) + sub)%float
                    else h1 in
          job_returns (Z.of_nat (length Ls)) (Some Bs') h2
      end
  end.

End BlendJob.

(* ================================================================== *)
(** ** Statement vocabulary for the overlap and range tests *)
(* ================================================================== *)

(** [x] after [n] turns of [x += 360.0], and of [x -= 360.0]. *)
Definition east_by (n : nat) (x : float) : float :=
  Nat.iter n (fun y => (y + 360)%float) x.

Definition west_by (n : nat) (x : float) : float :=
  Nat.iter n (fun y => (y - 360)%float) x.

(** The test of line 168. *)
Definition beyond_east (h : GMT_GRID_HEADER) (w : float) : bool :=
  match registration h with
  | GMT_GRID_NODE_REG => (XHI (wesn h) <? w)%float
  | GMT_GRID_PIXEL_REG => (XHI (wesn h) <=? w)%float
  end.

(** The header [h] with the other registration. *)
Definition as_pixel (h : GMT_GRID_HEADER) : GMT_GRID_HEADER :=
  mk_header (wesn h) (inc_x h) (inc_y h) GMT_GRID_PIXEL_REG (xy_off h) (n_columns h)
            (format h) (r_inc_x h) (r_inc_y h).

Definition as_node (h : GMT_GRID_HEADER) : GMT_GRID_HEADER :=
  mk_header (wesn h) (inc_x h) (inc_y h) GMT_GRID_NODE_REG (xy_off h) (n_columns h)
            (format h) (r_inc_x h) (r_inc_y h).

(** What the set-up of a tile leaves alone until line 512. *)
Definition same_start (B B' : GRDBLEND_INFO) : Prop :=
  skip B' = skip B /\ offset B' = offset B /\ weight B' = weight B /\ invert B' = invert B.

(* ================================================================== *)
(** ** A small world to run the model in *)
(* ================================================================== *)

Module Sample.

(** A stand-in for libm's cosine, good to 1e-6 on [-pi, pi]. *)
Definition cos_series (x : float) : float :=
  let x2 := (x * x)%float in
  (1 - x2 / 2 * (1 - x2 / 12 * (1 - x2 / 30 * (1 - x2 / 56 * (1 - x2 / 90
     * (1 - x2 / 132 * (1 - x2 / 182 * (1 - x2 / 240))))))))%float.

(** Output grid of the end-to-end example of section 8: 4 x 4 nodes,
    gridline registration, increment 1, region 0/3/0/3. *)
Definition out_header : GMT_GRID_HEADER :=
  mk_header (mk_region 0 3 0 3) 1 1 GMT_GRID_NODE_REG 0 4 fmt_n 1 1.

(** A grid over the same region with pixel registration: 3 x 3 cells
    whose centres lie half an increment off the nodes of [out_header]. *)
Definition pixel_header : GMT_GRID_HEADER :=
  mk_header (mk_region 0 3 0 3) 1 1 GMT_GRID_PIXEL_REG 0.5 3 fmt_n 1 1.

(** A grid whose western edge lies exactly [GMT_CONV8_LIMIT] east of that
    of [out_header]. *)
Definition nudged_header : GMT_GRID_HEADER :=
  mk_header (mk_region GMT_CONV8_LIMIT 3 0 3) 1 1 GMT_GRID_NODE_REG 0 4 fmt_n 1 1.

(** A 4 x 2 strip over the two northern rows of [out_header]. *)
Definition strip_header : GMT_GRID_HEADER :=
  mk_header (mk_region 0 3 2 3) 1 1 GMT_GRID_NODE_REG 0 4 fmt_n 1 1.

Definition fresh_RbR : GMT_GRID_ROWBYROW := mk_RbR 16 0 0.

Definition grid_rows : list (list float) :=
  [[1; 2; 3; 4]; [5; 6; 7; 8]; [9; 10; 11; 12]; [13; 14; 15; 16]]%float.

(** Every service succeeds; a file holds [grid_rows] and is 4 x 4 unless
    its name says it is the strip. *)
Definition env : Collaborators :=
  mk_collab cos_series
            (fun x => abs x <? GMT_CONV8_LIMIT)%float
            (fun _ => false)
            (fun name => Some (if String.eqb name "strip.nc" then strip_header
                               else out_header, fresh_RbR))
            (fun _ => false)
            (fun prefix => Some (prefix ++ ".nc")%string)
            (fun _ _ => false)
            (fun _ _ => false)
            (fun _ => false)
            (fun _ r => (nth (Z.to_nat (start0 r)) grid_rows [],
                         mk_RbR (n_byte r) (start0 r + 1) (fpos r))).

(** A tile as the first loop of [grdblend_init_blend_job] leaves it:
    header read, inner region and weight set, nothing else. *)
Definition raw_tile (t : GMT_GRID_HEADER) (w : region) (name : string)
           (mem : bool) (wgt : float) : GRDBLEND_INFO :=
  mk_info t (if mem then grid_rows else []) fresh_RbR 0 0 0 0 0 0 0 0 0 0
          false false false false false mem name wgt 0 0 0 0 0 w [].

(** One tile equal to the output grid, inner region = outer region. *)
Definition whole_tile (mem : bool) (wgt : float) : GRDBLEND_INFO :=
  raw_tile out_header (wesn out_header) "whole.nc" mem wgt.

Definition strip_tile : GRDBLEND_INFO :=
  raw_tile strip_header (wesn strip_header) "strip.nc" false 1.

(** The blend array after set-up: the tiles that came out ready. *)
Definition set_up (h : GMT_GRID_HEADER) (tiles : list GRDBLEND_INFO) : list GRDBLEND_INFO :=
  flat_map (fun B => match init_tile env 8 false h 0 B with
                     | tile_ready B' => [B']
                     | tile_skipped B' => [B']
                     | _ => []
                     end) tiles.

(** A tile over the whole grid whose inner region is the central 2 x 2
    block, so that its outermost rows and columns are tapered. *)
Definition tapered_tile : GRDBLEND_INFO :=
  raw_tile out_header (mk_region 1 2 1 2) "tapered.nc" true 1.

(** The tile as set-up leaves it. *)
Definition ready (h : GMT_GRID_HEADER) (B : GRDBLEND_INFO) : GRDBLEND_INFO :=
  match init_tile env 8 false h 0 B with
  | tile_ready B' => B'
  | _ => B
  end.

(** Plain blending, no [-C], [-W] or [-Z]. *)
Definition plain : GRDBLEND_CTRL := mk_ctrl false BLEND_UPPER 0 false 0 false 1.

Definition clobber (mode : clobber_mode) (sign : Z) : GRDBLEND_CTRL :=
  mk_ctrl true mode sign false 0 false 1.

Definition no_stats : blend_stats := mk_stats 0 infinity neg_infinity.

(** A row buffer in hand: a tile of [out_header] synchronised to a row
    holding [row_values]. *)
Definition loaded_tile (row_values : list float) (wgt : float) : GRDBLEND_INFO :=
  mk_info out_header [] fresh_RbR (-1) 4 0 3 (-1) 4 0 3 0 0
          false false false true false false "whole.nc" wgt wgt
          infinity infinity infinity infinity (wesn out_header) row_values.

(** A Cartesian output of 2001 x 4 nodes over 0/2000/0/3, and its
    eastern half as a gridline-registered and as a pixel-registered
    grid. *)
Definition wide_out : GMT_GRID_HEADER :=
  mk_header (mk_region 0 2000 0 3) 1 1 GMT_GRID_NODE_REG 0 2001 fmt_n 1 1.

Definition east_part : GMT_GRID_HEADER :=
  mk_header (mk_region 1000 2000 0 3) 1 1 GMT_GRID_NODE_REG 0 1001 fmt_n 1 1.

Definition east_cells : GMT_GRID_HEADER :=
  mk_header (mk_region 1000 2000 0 3) 1 1 GMT_GRID_PIXEL_REG 0.5 1000 fmt_n 1 1.

(** The grid of [out_header] one turn of 360 degrees further east, and a
    grid whose eastern edge is at -2^100. *)
Definition next_turn : GMT_GRID_HEADER :=
  mk_header (mk_region 360 363 0 3) 1 1 GMT_GRID_NODE_REG 0 4 fmt_n 1 1.

Definition far_west : GMT_GRID_HEADER :=
  mk_header (mk_region (-0x1p+101) (-0x1p+100) 0 3) 1 1 GMT_GRID_NODE_REG 0 4 fmt_n 1 1.

(** An output over the three southern rows of [out_header] only. *)
Definition south_header : GMT_GRID_HEADER :=
  mk_header (mk_region 0 3 0 2) 1 1 GMT_GRID_NODE_REG 0 4 fmt_n 1 1.

(** An output of 70000 columns and two rows, and a grid in the old
    netCDF format over the same columns that reaches 70000 rows further
    north. *)
Definition wide_rows : GMT_GRID_HEADER :=
  mk_header (mk_region 0 69999 0 1) 1 1 GMT_GRID_NODE_REG 0 70000 fmt_n 1 1.

Definition tall_grid : GMT_GRID_HEADER :=
  mk_header (mk_region 0 69999 0 70001) 1 1 GMT_GRID_NODE_REG 0 70000 fmt_c 1 1.

(** The world of [env] with more files, in which the temporary names
    may run out and the release of a grid may fail. *)
Definition world (temp_ok destroy_ok : bool) : Collaborators :=
  mk_collab cos_series
            (fun x => abs x <? GMT_CONV8_LIMIT)%float
            (fun _ => false)
            (fun name => Some (if String.eqb name "strip.nc" then strip_header
                               else if String.eqb name "cells.nc" then east_cells
                               else if String.prefix "grdblend_" name then east_part
                               else out_header, fresh_RbR))
            (fun _ => negb destroy_ok)
            (fun prefix => if temp_ok then Some (prefix ++ ".nc")%string else None)
            (fun _ _ => false)
            (fun _ _ => false)
            (fun _ => false)
            (fun _ r => (nth (Z.to_nat (start0 r)) grid_rows [],
                         mk_RbR (n_byte r) (start0 r + 1) (fpos r))).

(** A numbering of the error codes, all positive. *)
Definition codes (s : gmt_status) : Z :=
  match s with
  | GMT_NOERROR => 0
  | GMT_RUNTIME_ERROR => 1
  | GMT_DATA_READ_ERROR => 2
  | GMT_GRID_READ_ERROR => 3
  | GMT_GRDIO_SEEK_FAILED => 4
  end.

(** A decoder that numbers the eight codes of line 112 from 1 on, and
    headers of which the strip alone is of type 1 ([rb]). *)
Definition decoder (name : string) : option Z :=
  (fix find (names : list string) (i : Z) : option Z :=
     match names with
     | [] => None
     | n :: rest => if String.eqb n name then Some i else find rest (i + 1)
     end) not_supported_names 1.

Definition header_type (h : GMT_GRID_HEADER) : Z :=
  if (YLO (wesn h) =? 2)%float then 1 else 18.

(** The set-up of a job over files, none of them in memory. *)
Definition job (env : Collaborators) (Ls : list BLEND_LIST) (h : GMT_GRID_HEADER)
  : job_result :=
  grdblend_init_blend_job env 8 false codes 5 (fun _ => false) (fun _ => [])
                          decoder header_type (fun _ => mk_region 0 0 0 0) Ls false h.

Definition job_tiles (r : job_result) : list GRDBLEND_INFO :=
  match r with
  | job_returns _ (Some Bs) _ => Bs
  | _ => []
  end.

End Sample.

(* ================================================================== *)
(** ** Facts of IEEE 754 arithmetic used below

    Derived from the specification of the primitive floats: the order on
    numbers that are not NaN, the exactness of a division by one, and a
    few special values. *)
(* ================================================================== *)

Module IEEE.

(** Order on the specification floats, as a comparison of keys. *)
Definition cmp_mag (e1 : Z) (m1 : positive) (e2 : Z) (m2 : positive) : comparison :=
  match Z.compare e1 e2 with
  | Lt => Lt
  | Gt => Gt
  | Eq => Pos.compare_cont Eq m1 m2
  end.

(** Comparison of two finite numbers with their signs. *)
Definition cmp_fin (s1 : bool) (e1 : Z) (m1 : positive) (s2 : bool) (e2 : Z) (m2 : positive) :=
  match s1, s2 with
  | true, false => Lt
  | false, true => Gt
  | false, false => cmp_mag e1 m1 e2 m2
  | true, true => CompOpp (cmp_mag e1 m1 e2 m2)
  end.

(** The number one. *)
Definition SFone64 : spec_float := S754_finite false 4503599627370496 (-52).

Lemma cmp_mag_refl e m : cmp_mag e m e m = Eq.
Proof.
  unfold cmp_mag. rewrite Z.compare_refl. apply Pos.compare_cont_refl.
Qed.

Lemma cmp_mag_antisym e1 m1 e2 m2 :
  cmp_mag e2 m2 e1 m1 = CompOpp (cmp_mag e1 m1 e2 m2).
Proof.
  unfold cmp_mag. rewrite (Z.compare_antisym e1 e2).
  destruct (e1 ?= e2); simpl; auto.
  change (Pos.compare_cont Eq m2 m1) with (Pos.compare m2 m1).
  change (Pos.compare_cont Eq m1 m2) with (Pos.compare m1 m2).
  apply Pos.compare_antisym.
Qed.

Lemma cmp_mag_le_trans e1 m1 e2 m2 e3 m3 :
  cmp_mag e1 m1 e2 m2 <> Gt -> cmp_mag e2 m2 e3 m3 <> Gt -> cmp_mag e1 m1 e3 m3 <> Gt.
Proof.
  unfold cmp_mag.
  change (Pos.compare_cont Eq m1 m2) with (Pos.compare m1 m2).
  change (Pos.compare_cont Eq m2 m3) with (Pos.compare m2 m3).
  change (Pos.compare_cont Eq m1 m3) with (Pos.compare m1 m3).
  destruct (Z.compare_spec e1 e2), (Z.compare_spec e2 e3), (Z.compare_spec e1 e3);
    try lia; try congruence;
    destruct (Pos.compare_spec m1 m2), (Pos.compare_spec m2 m3), (Pos.compare_spec m1 m3);
    try lia; congruence.
Qed.

Lemma SFcompare_finite s1 m1 e1 s2 m2 e2 :
  SFcompare (S754_finite s1 m1 e1) (S754_finite s2 m2 e2) = Some (cmp_fin s1 e1 m1 s2 e2 m2).
Proof.
  unfold cmp_fin, cmp_mag; simpl.
  destruct s1, s2; try reflexivity; destruct (e1 ?= e2); reflexivity.
Qed.

Lemma SFleb_refl x : x <> S754_nan -> SFleb x x = true.
Proof.
  destruct x as [s|s| |s m e]; intros H; try congruence; unfold SFleb;
    rewrite ?SFcompare_finite; unfold cmp_fin; rewrite ?cmp_mag_refl;
    destruct s; reflexivity.
Qed.

Lemma SFleb_total x y :
  x <> S754_nan -> y <> S754_nan -> SFleb x y = false -> SFleb y x = true.
Proof.
  destruct x as [s1|s1| |s1 m1 e1], y as [s2|s2| |s2 m2 e2]; intros Hx Hy; try congruence;
    unfold SFleb; rewrite ?SFcompare_finite; unfold cmp_fin;
    try (simpl; try destruct s1; try destruct s2; simpl; congruence).
  rewrite (cmp_mag_antisym e1 m1 e2 m2).
  destruct s1, s2, (cmp_mag e1 m1 e2 m2); simpl; congruence.
Qed.

Lemma SFleb_trans x y z :
  SFleb x y = true -> SFleb y z = true -> SFleb x z = true.
Proof.
  destruct x as [s1|s1| |s1 m1 e1], y as [s2|s2| |s2 m2 e2], z as [s3|s3| |s3 m3 e3];
    unfold SFleb; rewrite ?SFcompare_finite; unfold cmp_fin;
    try (simpl; try destruct s1; try destruct s2; try destruct s3; simpl; congruence).
  pose proof (cmp_mag_le_trans e1 m1 e2 m2 e3 m3) as Hle.
  pose proof (cmp_mag_le_trans e3 m3 e2 m2 e1 m1) as Hge.
  rewrite (cmp_mag_antisym e2 m2 e3 m3), (cmp_mag_antisym e1 m1 e2 m2),
    (cmp_mag_antisym e1 m1 e3 m3) in Hge.
  destruct s1, s2, s3; simpl; try congruence;
    destruct (cmp_mag e1 m1 e2 m2), (cmp_mag e2 m2 e3 m3), (cmp_mag e1 m1 e3 m3);
    simpl in *; try congruence;
    try (exfalso; apply Hle; congruence); try (exfalso; apply Hge; congruence).
Qed.

Lemma is_nan_spec x : is_nan x = false <-> Prim2SF x <> S754_nan.
Proof.
  unfold is_nan. rewrite eqb_spec. unfold SFeqb.
  destruct (Prim2SF x) as [s|s| |s m e] eqn:E;
    rewrite ?SFcompare_finite; unfold cmp_fin; rewrite ?cmp_mag_refl;
    try destruct s; simpl; split; intros; try congruence; reflexivity.
Qed.

Lemma leb_refl x : is_nan x = false -> (x <=? x)%float = true.
Proof. intros H. rewrite leb_spec. apply SFleb_refl. now apply is_nan_spec. Qed.

Lemma leb_total x y :
  is_nan x = false -> is_nan y = false -> (x <=? y)%float = false -> (y <=? x)%float = true.
Proof.
  intros Hx Hy. rewrite !leb_spec. apply SFleb_total; now apply is_nan_spec.
Qed.

Lemma leb_trans x y z :
  (x <=? y)%float = true -> (y <=? z)%float = true -> (x <=? z)%float = true.
Proof. rewrite !leb_spec. apply SFleb_trans. Qed.

Lemma SFltb_of_not_leb x y :
  x <> S754_nan -> y <> S754_nan -> SFleb x y = false -> SFltb y x = true.
Proof.
  destruct x as [s1|s1| |s1 m1 e1], y as [s2|s2| |s2 m2 e2]; intros Hx Hy; try congruence;
    unfold SFleb, SFltb; rewrite ?SFcompare_finite; unfold cmp_fin;
    try (simpl; try destruct s1; try destruct s2; simpl; congruence).
  rewrite (cmp_mag_antisym e1 m1 e2 m2).
  destruct s1, s2, (cmp_mag e1 m1 e2 m2); simpl; congruence.
Qed.

Lemma ltb_of_not_leb x y :
  is_nan x = false -> is_nan y = false -> (x <=? y)%float = false -> (y <? x)%float = true.
Proof.
  intros Hx Hy. rewrite leb_spec, ltb_spec. apply SFltb_of_not_leb; now apply is_nan_spec.
Qed.

Lemma is_nan_true x : is_nan x = true <-> Prim2SF x = S754_nan.
Proof.
  split; intros H.
  - destruct (Prim2SF x) eqn:E; try reflexivity;
      assert (Hn : is_nan x = false) by (apply is_nan_spec; congruence); congruence.
  - destruct (is_nan x) eqn:E; [reflexivity|]. apply is_nan_spec in E. congruence.
Qed.

Lemma is_infinity_spec x :
  is_infinity x = match Prim2SF x with S754_infinity _ => true | _ => false end.
Proof.
  unfold is_infinity. rewrite eqb_spec, abs_spec.
  change (Prim2SF infinity) with (S754_infinity false).
  destruct (Prim2SF x) as [s|s| |s m e]; reflexivity.
Qed.

Lemma is_finite_spec x :
  is_finite x = match Prim2SF x with
                | S754_nan | S754_infinity _ => false
                | _ => true
                end.
Proof.
  unfold is_finite. rewrite is_infinity_spec.
  destruct (Prim2SF x) as [s|s| |s m e] eqn:E.
  - assert (H : is_nan x = false) by (apply is_nan_spec; congruence). now rewrite H.
  - now rewrite orb_true_r.
  - assert (H : is_nan x = true) by (now apply is_nan_true). now rewrite H.
  - assert (H : is_nan x = false) by (apply is_nan_spec; congruence). now rewrite H.
Qed.

(** [x - x] is [+0] for a finite [x] and NaN otherwise. *)
Lemma SFsub_diag x :
  SF64sub x x = match x with
                | S754_nan | S754_infinity _ => S754_nan
                | _ => S754_zero false
                end.
Proof.
  destruct x as [s|s| |s m e]; try (destruct s; reflexivity); try reflexivity.
  unfold SF64sub, SFsub. rewrite Z.min_id. unfold shl_align. rewrite !Z.sub_diag.
  rewrite ?Z.sub_diag. reflexivity.
Qed.

(** A quotient by [x - x] is never finite. *)
Lemma div_sub_diag_not_finite (y x : float) : is_finite (y / (x - x)) = false.
Proof.
  rewrite is_finite_spec, div_spec, sub_spec, SFsub_diag.
  destruct (Prim2SF x) as [s|s| |s m e], (Prim2SF y) as [s'|s'| |s' m' e']; reflexivity.
Qed.

(** Zero times a finite number is a zero. *)
Lemma zero_mul_finite (s : float) :
  is_finite s = true -> (0 * s =? 0)%float = true /\ is_finite (0 * s) = true
                        /\ exists sg, Prim2SF (0 * s) = S754_zero sg.
Proof.
  rewrite (is_finite_spec s), (is_finite_spec (0 * s)), eqb_spec, mul_spec.
  change (Prim2SF 0) with (S754_zero false).
  destruct (Prim2SF s) as [sg|sg| |sg m e]; intros H; try discriminate;
    (split; [|split]; [destruct sg; reflexivity | reflexivity | eexists; reflexivity]).
Qed.

(** *** Division by one is exact *)

Lemma bounded_inv m e :
  bounded prec emax m e = true ->
  Z.max (Zpos (digits2_pos m) + e - 53) (-1074) = e /\ e <= 971.
Proof.
  unfold bounded, canonical_mantissa, fexp, emin, prec, emax.
  rewrite andb_true_iff, Z.eqb_eq, Z.leb_le. simpl Z.sub. lia.
Qed.

Lemma shr_fexp_canonical m e :
  bounded prec emax m e = true ->
  shr_fexp prec emax (Zpos m) e loc_Exact = (Build_shr_record (Zpos m) false false, e).
Proof.
  intros H. apply bounded_inv in H. destruct H as [H _].
  unfold shr_fexp, fexp, emin, prec, emax. simpl Zdigits2. simpl shr_record_of_loc.
  replace (Z.max (Zpos (digits2_pos m) + e - 53) (3 - 1024 - 53) - e) with 0 by (change (3 - 1024 - 53) with (-1074); lia).
  reflexivity.
Qed.

Lemma binary_round_aux_canonical s m e :
  bounded prec emax m e = true ->
  binary_round_aux prec emax s (Zpos m) e loc_Exact = S754_finite s m e.
Proof.
  intros H. unfold binary_round_aux.
  rewrite (shr_fexp_canonical m e H). simpl shr_m. simpl loc_of_shr_record.
  simpl round_nearest_even. rewrite (shr_fexp_canonical m e H). simpl shr_m.
  apply bounded_inv in H. destruct H as [_ H].
  replace (e <=? emax - prec) with true; [reflexivity|].
  symmetry. apply Z.leb_le. unfold emax, prec. lia.
Qed.

Lemma binary_round_aux_double s m e :
  bounded prec emax m e = true -> -1074 < e ->
  binary_round_aux prec emax s (Zpos m~0) (e - 1) loc_Exact = S754_finite s m e.
Proof.
  intros H He. pose proof (bounded_inv m e H) as [Hc Hb].
  unfold binary_round_aux.
  assert (E1 : shr_fexp prec emax (Zpos m~0) (e - 1) loc_Exact
               = (Build_shr_record (Zpos m) false false, e)).
  { unfold shr_fexp, fexp, emin, prec, emax. simpl Zdigits2. simpl shr_record_of_loc.
    rewrite Pos2Z.inj_succ.
    replace (Z.max (Z.succ (Zpos (digits2_pos m)) + (e - 1) - 53) (3 - 1024 - 53) - (e - 1))
      with 1 by (change (3 - 1024 - 53) with (-1074); lia).
    unfold shr. simpl iter_pos. f_equal. lia. }
  rewrite E1. simpl shr_m. simpl loc_of_shr_record. simpl round_nearest_even.
  rewrite (shr_fexp_canonical m e H). simpl shr_m.
  replace (e <=? emax - prec) with true; [reflexivity|].
  symmetry. apply Z.leb_le. unfold emax, prec. lia.
Qed.

Lemma SFdiv_one x :
  valid_binary x = true -> SF64div x SFone64 = x.
Proof.
  destruct x as [s|s| |s m e]; simpl; intros H; try reflexivity;
    try (now rewrite xorb_false_r).
  pose proof (bounded_inv m e H) as [Hc Hb].
  unfold SF64div, SFone64, SFdiv. rewrite xorb_false_r.
  unfold SFdiv_core_binary. simpl Zdigits2.
  destruct (Z.eq_dec e (-1074)) as [He|He].
  - (* smallest exponent: quotient mantissa is m itself *)
    replace (Z.min (fexp prec emax (Zpos (digits2_pos m) + e - (53 + -52))) (e - -52))
      with e by (unfold fexp, emin, prec, emax; change (3 - 1024 - 53) with (-1074); lia).
    replace (e - -52 - e) with 52 by lia.
    rewrite Z.shiftl_mul_pow2 by lia.
    destruct (Z.div_eucl (Zpos m * 2 ^ 52) 4503599627370496) as [q r] eqn:E.
    assert (Hq : q = Zpos m).
    { change q with (fst (q, r)). rewrite <- E. change (fst (Z.div_eucl ?a ?b)) with (a / b).
      change 4503599627370496 with (2 ^ 52). apply Z.div_mul. lia. }
    assert (Hr : r = 0).
    { change r with (snd (q, r)). rewrite <- E. change (snd (Z.div_eucl ?a ?b)) with (a mod b).
      change 4503599627370496 with (2 ^ 52). apply Z.mod_mul. lia. }
    subst q r. change (new_location 4503599627370496 0) with loc_Exact.
    now apply binary_round_aux_canonical.
  - replace (Z.min (fexp prec emax (Zpos (digits2_pos m) + e - (53 + -52))) (e - -52))
      with (e - 1) by (unfold fexp, emin, prec, emax; change (3 - 1024 - 53) with (-1074); lia).
    replace (e - -52 - (e - 1)) with 53 by lia.
    rewrite Z.shiftl_mul_pow2 by lia.
    destruct (Z.div_eucl (Zpos m * 2 ^ 53) 4503599627370496) as [q r] eqn:E.
    assert (Hq : q = Zpos m~0).
    { change q with (fst (q, r)). rewrite <- E. change (fst (Z.div_eucl ?a ?b)) with (a / b).
      change (2 ^ 53) with (2 * 2 ^ 52). change 4503599627370496 with (2 ^ 52).
      rewrite Z.mul_assoc, Z.div_mul by lia. lia. }
    assert (Hr : r = 0).
    { change r with (snd (q, r)). rewrite <- E. change (snd (Z.div_eucl ?a ?b)) with (a mod b).
      change (2 ^ 53) with (2 * 2 ^ 52). change 4503599627370496 with (2 ^ 52).
      rewrite Z.mul_assoc. apply Z.mod_mul. lia. }
    subst q r. change (new_location 4503599627370496 0) with loc_Exact.
    apply binary_round_aux_double; [assumption | lia].
Qed.

Theorem div_one (x : float) : (x / 1)%float = x.
Proof.
  apply Prim2SF_inj. rewrite div_spec.
  change (Prim2SF 1) with SFone64.
  apply SFdiv_one, Prim2SF_valid.
Qed.

(** Narrowing leaves zeros, infinities and NaN alone. *)
Lemma to_grdfloat_zero (x : float) (sg : bool) :
  Prim2SF x = S754_zero sg -> to_grdfloat x = x.
Proof. intros H. unfold to_grdfloat. now rewrite H. Qed.

(** A [gmt_grdfloat] divided by the weight one is itself. *)
Lemma grdfloat_div_one (v : float) : is_grdfloat v -> to_grdfloat (v / 1) = v.
Proof. intros H. rewrite div_one. exact H. Qed.

(** *** Multiplication by one is exact *)

Lemma digits2_pos_shift52 m :
  Zpos (digits2_pos (4503599627370496 * m)) = Zpos (digits2_pos m) + 52.
Proof.
  change (4503599627370496 * m)%positive with
    (m~0~0~0~0~0~0~0~0~0~0~0~0~0~0~0~0~0~0~0~0~0~0~0~0~0~0~0~0~0~0~0~0~0~0~0~0~0~0~0~0~0~0~0~0~0~0~0~0~0~0~0~0)%positive.
  cbn [digits2_pos]. lia.
Qed.

Lemma binary_round_aux_shift52 s m e :
  bounded prec emax m e = true ->
  binary_round_aux prec emax s (Zpos (4503599627370496 * m)) (-52 + e) loc_Exact
  = S754_finite s m e.
Proof.
  intros H. pose proof (bounded_inv m e H) as [Hc Hb].
  unfold binary_round_aux.
  assert (E1 : shr_fexp prec emax (Zpos (4503599627370496 * m)) (-52 + e) loc_Exact
               = (Build_shr_record (Zpos m) false false, e)).
  { unfold shr_fexp, fexp, emin, prec, emax. unfold Zdigits2.
    rewrite digits2_pos_shift52. simpl shr_record_of_loc.
    replace (Z.max (Zpos (digits2_pos m) + 52 + (-52 + e) - 53) (3 - 1024 - 53) - (-52 + e))
      with 52 by (change (3 - 1024 - 53) with (-1074); lia).
    unfold shr.
    change (4503599627370496 * m)%positive with
    (m~0~0~0~0~0~0~0~0~0~0~0~0~0~0~0~0~0~0~0~0~0~0~0~0~0~0~0~0~0~0~0~0~0~0~0~0~0~0~0~0~0~0~0~0~0~0~0~0~0~0~0~0)%positive.
    cbn [iter_pos shr_1 shr_m shr_r shr_s orb]. f_equal. lia. }
  rewrite E1. simpl shr_m. simpl loc_of_shr_record. simpl round_nearest_even.
  rewrite (shr_fexp_canonical m e H). simpl shr_m.
  replace (e <=? emax - prec) with true; [reflexivity|].
  symmetry. apply Z.leb_le. unfold emax, prec. lia.
Qed.

Lemma SFmul_one x :
  valid_binary x = true -> SF64mul SFone64 x = x.
Proof.
  destruct x as [s|s| |s m e]; simpl; intros H; try reflexivity.
  unfold SF64mul, SFone64, SFmul. cbn [xorb].
  now apply binary_round_aux_shift52.
Qed.

Lemma SFmul_comm x y : SF64mul x y = SF64mul y x.
Proof.
  destruct x as [s|s| |s m e], y as [s'|s'| |s' m' e']; simpl;
    rewrite ?(xorb_comm s s'); try reflexivity.
  now rewrite (Pos.mul_comm m m'), (Z.add_comm e e').
Qed.

Lemma one_mul (x : float) : (1 * x)%float = x.
Proof.
  apply Prim2SF_inj. rewrite mul_spec.
  change (Prim2SF 1) with SFone64.
  apply SFmul_one, Prim2SF_valid.
Qed.

Lemma mul_one (x : float) : (x * 1)%float = x.
Proof.
  apply Prim2SF_inj. rewrite mul_spec, SFmul_comm, <- mul_spec.
  now rewrite one_mul.
Qed.

(** [x - x] is [+0] for a finite [x]. *)
Lemma sub_diag_finite (x : float) : is_finite x = true -> (x - x)%float = 0%float.
Proof.
  rewrite is_finite_spec. intros H.
  apply Prim2SF_inj. rewrite sub_spec, SFsub_diag.
  destruct (Prim2SF x); try discriminate; reflexivity.
Qed.

(** *** Strict and large order *)

Lemma SFltb_leb x y : SFltb x y = true -> SFleb x y = true.
Proof.
  unfold SFltb, SFleb. destruct (SFcompare x y) as [[| |]|]; congruence.
Qed.

Lemma ltb_leb x y : (x <? y)%float = true -> (x <=? y)%float = true.
Proof. rewrite ltb_spec, leb_spec. apply SFltb_leb. Qed.

Lemma SFcompare_nan_l y : SFcompare S754_nan y = None.
Proof. reflexivity. Qed.

Lemma SFcompare_nan_r x : SFcompare x S754_nan = None.
Proof. destruct x as [s|s| |s m e]; try destruct s; reflexivity. Qed.

(** A comparison that holds has numbers on both sides. *)
Lemma leb_not_nan x y :
  (x <=? y)%float = true -> is_nan x = false /\ is_nan y = false.
Proof.
  rewrite leb_spec, !is_nan_spec. unfold SFleb. intros H. split; intros E; rewrite E in H.
  - discriminate.
  - rewrite SFcompare_nan_r in H. discriminate.
Qed.

Lemma ltb_not_nan x y :
  (x <? y)%float = true -> is_nan x = false /\ is_nan y = false.
Proof. intros H. apply leb_not_nan. now apply ltb_leb. Qed.

Lemma SFcompare_swap x y :
  SFcompare y x = option_map CompOpp (SFcompare x y).
Proof.
  destruct x as [s|s| |s m e], y as [s'|s'| |s' m' e'];
    try (destruct s); try (destruct s'); try reflexivity.
  all: rewrite !SFcompare_finite; simpl; f_equal; unfold cmp_fin;
    rewrite ?(cmp_mag_antisym e m e' m'); try reflexivity.
  all: now rewrite CompOpp_involutive.
Qed.

(** [y < x] excludes [x <= y], and for numbers it is its negation. *)
Lemma ltb_not_leb x y : (y <? x)%float = true -> (x <=? y)%float = false.
Proof.
  rewrite ltb_spec, leb_spec. unfold SFltb, SFleb.
  rewrite (SFcompare_swap (Prim2SF y) (Prim2SF x)).
  destruct (SFcompare (Prim2SF y) (Prim2SF x)) as [[| |]|]; simpl; congruence.
Qed.

Lemma leb_not_ltb x y : (x <=? y)%float = true -> (y <? x)%float = false.
Proof.
  intros H. destruct (y <? x)%float eqn:E; [|reflexivity].
  apply ltb_not_leb in E. congruence.
Qed.

Lemma leb_of_not_ltb x y :
  is_nan x = false -> is_nan y = false -> (y <? x)%float = false -> (x <=? y)%float = true.
Proof.
  intros Hx Hy H. destruct (x <=? y)%float eqn:E; [reflexivity|].
  rewrite (ltb_of_not_leb x y Hx Hy E) in H. discriminate.
Qed.

(** The increment test of lines 354 and 429 on two equal increments:
    [x - x] is zero or NaN, so the quotient is never above the
    tolerance. *)
Lemma same_inc_within_tolerance (x : float) :
  (INC_TOLERANCE <? abs ((x - x) / x))%float = false.
Proof.
  rewrite ltb_spec, abs_spec, div_spec, sub_spec, SFsub_diag.
  destruct (Prim2SF x) as [s|s| |s m e]; try destruct s; reflexivity.
Qed.

(** Adding a number to [+0] gives the number back, unless it is [-0]. *)
Lemma zero_add (v : float) : Prim2SF v <> S754_zero true -> (0 + v)%float = v.
Proof.
  intros H. apply Prim2SF_inj. rewrite add_spec.
  change (Prim2SF 0) with (S754_zero false).
  destruct (Prim2SF v) as [s|s| |s m e]; try reflexivity.
  destruct s; [congruence | reflexivity].
Qed.

(** Zero times an infinity or a NaN is a NaN. *)
Lemma zero_mul_not_finite (s : float) :
  is_finite s = false -> Prim2SF (0 * s) = S754_nan.
Proof.
  rewrite (is_finite_spec s), mul_spec.
  change (Prim2SF 0) with (S754_zero false).
  destruct (Prim2SF s) as [sg|sg| |sg m e]; intros H; try discriminate; reflexivity.
Qed.

End IEEE.

(* ================================================================== *)
(** ** The node loop as a fold over the values on offer *)
(* ================================================================== *)

Section NodeFacts.

Variable env : Collaborators.
Variable Ctrl : GRDBLEND_CTRL.
Variable wrap_x : bool.
Variable nx_360 : Z.
Variable half : float.

Lemma node_step_none col st B :
  tile_value wrap_x nx_360 col B = None ->
  node_step env Ctrl wrap_x nx_360 half col st B = st.
Proof. intros H. unfold node_step. now rewrite H. Qed.

Lemma tile_value_not_nan col B pcol v :
  tile_value wrap_x nx_360 col B = Some (pcol, v) -> is_nan v = false.
Proof.
  unfold tile_value.
  destruct (ignore B); [discriminate|]. destruct (outside B); [discriminate|].
  destruct (tile_pcol wrap_x nx_360 col B) as [p|]; [|discriminate].
  unfold gmt_M_is_fnan. destruct (is_nan _) eqn:E; [discriminate|].
  intros H. injection H as _ <-. exact E.
Qed.

Lemma node_offers_not_nan blend col v :
  In v (node_offers wrap_x nx_360 blend col) -> is_nan v = false.
Proof.
  unfold node_offers. rewrite in_flat_map. intros [B [_ H]].
  destruct (tile_value wrap_x nx_360 col B) as [[p u]|] eqn:E; [|contradiction].
  destruct H as [<-|[]]. eapply tile_value_not_nan; eauto.
Qed.

Lemma node_offers_nil blend col :
  (forall B, In B blend -> tile_value wrap_x nx_360 col B = None) ->
  node_offers wrap_x nx_360 blend col = [].
Proof.
  induction blend as [|B rest IH]; intros H; [reflexivity|].
  unfold node_offers in *. simpl. rewrite (H B (or_introl eq_refl)). simpl.
  apply IH. intros B' HB'. apply H. now right.
Qed.

Lemma fold_node_skip col blend st :
  (forall B, In B blend -> tile_value wrap_x nx_360 col B = None) ->
  fold_left (node_step env Ctrl wrap_x nx_360 half col) blend st = st.
Proof.
  revert st. induction blend as [|B rest IH]; intros st H; [reflexivity|].
  simpl. rewrite node_step_none by (apply H; now left).
  apply IH. intros B' HB'. apply H. now right.
Qed.

(** In a clobber mode the loop folds [clobber_step] over the offers. *)
Lemma fold_node_clobber col blend st :
  C_active Ctrl = true ->
  fold_left (node_step env Ctrl wrap_x nx_360 half col) blend st
  = fold_left (fun s v => clobber_step Ctrl v (mark s))
              (node_offers wrap_x nx_360 blend col) st.
Proof.
  intros Hc. revert st. induction blend as [|B rest IH]; intros st; [reflexivity|].
  unfold node_offers in *. simpl. unfold node_step at 2.
  destruct (tile_value wrap_x nx_360 col B) as [[p v]|]; simpl.
  - rewrite Hc. apply IH.
  - apply IH.
Qed.

(** Without [-C] it folds [blend_step] over the weighted terms. *)
Lemma fold_node_blend col blend st :
  C_active Ctrl = false ->
  fold_left (node_step env Ctrl wrap_x nx_360 half col) blend st
  = fold_left (fun s t => blend_step (fst t) (snd t) (mark s))
              (node_terms env wrap_x nx_360 half blend col) st.
Proof.
  intros Hc. revert st. induction blend as [|B rest IH]; intros st; [reflexivity|].
  unfold node_terms in *. simpl. unfold node_step at 2.
  destruct (tile_value wrap_x nx_360 col B) as [[p v]|]; simpl.
  - rewrite Hc. apply IH.
  - apply IH.
Qed.

End NodeFacts.

(** *** The loop of line 1023 ends

    For a positive [nx_360] the fuel handed to [wind_pcol] is enough: the
    column it returns is not east of the tile, so [tile_pcol] decides by
    the test of line 1024 alone. *)



(** *** The accumulators of the weighted blend *)

Lemma blend_fold_nz terms st :
  nz (fold_left (fun s t => blend_step (fst t) (snd t) (mark s)) terms st)
  = fold_left (fun acc t => to_grdfloat (acc + to_grdfloat (fst t * snd t))%float)
              terms (nz st).
Proof. revert st. induction terms as [|t ts IH]; intros st; simpl; [reflexivity|]. now rewrite IH. Qed.

Lemma blend_fold_nw terms st :
  nw (fold_left (fun s t => blend_step (fst t) (snd t) (mark s)) terms st)
  = fold_left (fun acc t => (acc + fst t)%float) terms (nw st).
Proof. revert st. induction terms as [|t ts IH]; intros st; simpl; [reflexivity|]. now rewrite IH. Qed.

Lemma blend_fold_nm terms st :
  nm (fold_left (fun s t => blend_step (fst t) (snd t) (mark s)) terms st)
  = nm st + Z.of_nat (length terms).
Proof.
  revert st. induction terms as [|t ts IH]; intros st; simpl length; simpl fold_left.
  - simpl. lia.
  - rewrite IH. simpl nm. lia.
Qed.

(** Without [-C], line 1069 changes nothing: [m] is zero only when no
    tile was seen. *)
Lemma sign_fixup_blend Ctrl terms :
  sign_fixup Ctrl (fold_left (fun s t => blend_step (fst t) (snd t) (mark s)) terms node_init)
  = fold_left (fun s t => blend_step (fst t) (snd t) (mark s)) terms node_init.
Proof.
  unfold sign_fixup.
  destruct terms as [|t ts].
  - simpl. now rewrite andb_false_r.
  - rewrite blend_fold_nm. simpl nm.
    replace (0 + Z.of_nat (length (t :: ts)) =? 0) with false.
    + now rewrite andb_false_r.
    + symmetry. apply Z.eqb_neq. simpl length. lia.
Qed.

Lemma node_gather_blend env Ctrl wrap_x nx_360 half blend col :
  C_active Ctrl = false ->
  let terms := node_terms env wrap_x nx_360 half blend col in
  let st := node_gather env Ctrl wrap_x nx_360 half blend col in
  nz st = weighted_sum terms /\ nw st = weight_sum terms
  /\ nm st = Z.of_nat (length terms).
Proof.
  intros Hc terms st. subst st. unfold node_gather.
  rewrite fold_node_blend by exact Hc. fold terms.
  rewrite sign_fixup_blend.
  rewrite blend_fold_nz, blend_fold_nw, blend_fold_nm. simpl.
  repeat split.
Qed.

(** *** Emission of a node that holds one picked value *)

Lemma node_emit_picked Ctrl no_data_f st s :
  nm st = 1 -> nw st = 1%float ->
  W_active Ctrl = false -> Z_active Ctrl = false -> is_grdfloat (nz st) ->
  node_emit Ctrl no_data_f st s = (nz st, count_node (nz st) s).
Proof.
  intros Hm Hw HW HZ Hg. unfold node_emit, node_output, out_case.
  rewrite Hm, Hw, HW, HZ. simpl negb. cbv iota.
  change (1 =? 0)%float with false. cbv iota.
  now rewrite (IEEE.grdfloat_div_one (nz st) Hg).
Qed.

(** *** The clobber modes without a sign filter *)

Section ClobberFacts.

Variable Ctrl : GRDBLEND_CTRL.
Hypothesis no_sign : C_sign Ctrl = 0.

Lemma clobber_step_init v :
  clobber_step Ctrl v (mark node_init) = mk_node v 1 1 true true.
Proof.
  unfold clobber_step. rewrite no_sign.
  destruct (C_mode Ctrl); reflexivity.
Qed.

Lemma sign_fixup_no_sign st : sign_fixup Ctrl st = st.
Proof. unfold sign_fixup. now rewrite no_sign. Qed.

Lemma clobber_first_fold v fg vs :
  C_mode Ctrl = BLEND_FIRST ->
  fold_left (fun s u => clobber_step Ctrl u (mark s)) vs (mk_node v 1 1 fg true)
  = mk_node v 1 1 fg true.
Proof.
  intros Hm. induction vs as [|u vs IH]; [reflexivity|].
  simpl. unfold clobber_step at 2. rewrite Hm. simpl. exact IH.
Qed.

Lemma clobber_upper_step v z0 fg :
  C_mode Ctrl = BLEND_UPPER ->
  clobber_step Ctrl v (mark (mk_node z0 1 1 fg true))
  = if (v <=? z0)%float then mk_node z0 1 1 fg true else mk_node v 1 1 fg true.
Proof.
  intros Hm. unfold clobber_step. rewrite Hm, no_sign. simpl.
  destruct (v <=? z0)%float; reflexivity.
Qed.

Lemma clobber_lower_step v z0 fg :
  C_mode Ctrl = BLEND_LOWER ->
  clobber_step Ctrl v (mark (mk_node z0 1 1 fg true))
  = if (z0 <=? v)%float then mk_node z0 1 1 fg true else mk_node v 1 1 fg true.
Proof.
  intros Hm. unfold clobber_step. rewrite Hm, no_sign. simpl.
  destruct (z0 <=? v)%float; reflexivity.
Qed.

Lemma clobber_upper_fold vs : forall z0 fg,
  C_mode Ctrl = BLEND_UPPER ->
  (forall u, In u vs -> is_nan u = false) -> is_nan z0 = false ->
  let st := fold_left (fun s u => clobber_step Ctrl u (mark s)) vs (mk_node z0 1 1 fg true) in
  nw st = 1%float /\ nm st = 1 /\ (nz st = z0 \/ In (nz st) vs)
  /\ (z0 <=? nz st)%float = true
  /\ (forall u, In u vs -> (u <=? nz st)%float = true).
Proof.
  induction vs as [|v vs IH]; intros z0 fg Hm Hn Hz0.
  - simpl. repeat split; auto. now apply IEEE.leb_refl.
  - assert (Hv : is_nan v = false) by (apply Hn; now left).
    assert (Hn' : forall u, In u vs -> is_nan u = false) by (intros u Hu; apply Hn; now right).
    simpl fold_left. rewrite (clobber_upper_step v z0 fg Hm).
    destruct (v <=? z0)%float eqn:Hle.
    + destruct (IH z0 fg Hm Hn' Hz0) as (Hw & Hm1 & Hin & Hge & Hall).
      cbv zeta. split; [exact Hw|]. split; [exact Hm1|]. split; [|split].
      * destruct Hin as [H|H]; [now left | right; now right].
      * exact Hge.
      * intros u [<-|Hu]; [eapply IEEE.leb_trans; eauto | now apply Hall].
    + destruct (IH v fg Hm Hn' Hv) as (Hw & Hm1 & Hin & Hge & Hall).
      cbv zeta. split; [exact Hw|]. split; [exact Hm1|]. split; [|split].
      * destruct Hin as [H|H]; right; [now left | now right].
      * eapply IEEE.leb_trans; [|exact Hge]. now apply IEEE.leb_total.
      * intros u [<-|Hu]; [exact Hge | now apply Hall].
Qed.

Lemma clobber_lower_fold vs : forall z0 fg,
  C_mode Ctrl = BLEND_LOWER ->
  (forall u, In u vs -> is_nan u = false) -> is_nan z0 = false ->
  let st := fold_left (fun s u => clobber_step Ctrl u (mark s)) vs (mk_node z0 1 1 fg true) in
  nw st = 1%float /\ nm st = 1 /\ (nz st = z0 \/ In (nz st) vs)
  /\ (nz st <=? z0)%float = true
  /\ (forall u, In u vs -> (nz st <=? u)%float = true).
Proof.
  induction vs as [|v vs IH]; intros z0 fg Hm Hn Hz0.
  - simpl. repeat split; auto. now apply IEEE.leb_refl.
  - assert (Hv : is_nan v = false) by (apply Hn; now left).
    assert (Hn' : forall u, In u vs -> is_nan u = false) by (intros u Hu; apply Hn; now right).
    simpl fold_left. rewrite (clobber_lower_step v z0 fg Hm).
    destruct (z0 <=? v)%float eqn:Hle.
    + destruct (IH z0 fg Hm Hn' Hz0) as (Hw & Hm1 & Hin & Hge & Hall).
      cbv zeta. split; [exact Hw|]. split; [exact Hm1|]. split; [|split].
      * destruct Hin as [H|H]; [now left | right; now right].
      * exact Hge.
      * intros u [<-|Hu]; [eapply IEEE.leb_trans; eauto | now apply Hall].
    + destruct (IH v fg Hm Hn' Hv) as (Hw & Hm1 & Hin & Hge & Hall).
      cbv zeta. split; [exact Hw|]. split; [exact Hm1|]. split; [|split].
      * destruct Hin as [H|H]; right; [now left | now right].
      * eapply IEEE.leb_trans; [exact Hge|]. now apply IEEE.leb_total.
      * intros u [<-|Hu]; [exact Hge | now apply Hall].
Qed.

End ClobberFacts.

(** *** The clobber modes with a sign filter that nothing passes *)

Section SeedFacts.

Variable Ctrl : GRDBLEND_CTRL.
Hypothesis signed : C_sign Ctrl = -1 \/ C_sign Ctrl = 1.

Lemma clobber_keeps_unset v zc : clobber_keeps (C_mode Ctrl) 0 v zc = false.
Proof. destruct (C_mode Ctrl); reflexivity. Qed.

Lemma clobber_step_seed v :
  clobber_step Ctrl v (mark node_init) = mk_node v 0 0 false true.
Proof.
  unfold clobber_step. simpl nm. rewrite clobber_keeps_unset.
  destruct signed as [-> | ->]; reflexivity.
Qed.

Lemma clobber_step_rejected v u :
  is_nan u = false -> passes_sign_filter (C_sign Ctrl) u = false ->
  clobber_step Ctrl u (mark (mk_node v 0 0 false true)) = mk_node v 0 0 false true.
Proof.
  intros Hn Hp. unfold clobber_step. simpl nm. rewrite clobber_keeps_unset.
  unfold passes_sign_filter in Hp.
  destruct signed as [Hs | Hs]; rewrite Hs in *; simpl first_grid; cbv iota.
  - rewrite (IEEE.ltb_of_not_leb u 0 Hn eq_refl Hp). reflexivity.
  - rewrite (IEEE.ltb_of_not_leb 0 u eq_refl Hn Hp). reflexivity.
Qed.

Lemma seed_fold v later :
  (forall u, In u later -> is_nan u = false) ->
  (forall u, In u later -> passes_sign_filter (C_sign Ctrl) u = false) ->
  fold_left (fun s u => clobber_step Ctrl u (mark s)) later (mk_node v 0 0 false true)
  = mk_node v 0 0 false true.
Proof.
  induction later as [|u later IH]; intros Hn Hp; [reflexivity|].
  simpl fold_left. rewrite clobber_step_rejected by (first [apply Hn | apply Hp]; now left).
  apply IH; intros w Hw; [apply Hn | apply Hp]; now right.
Qed.

Lemma sign_fixup_seed v :
  sign_fixup Ctrl (mk_node v 0 0 false true) = mk_node v 1 1 false true.
Proof. unfold sign_fixup. destruct signed as [-> | ->]; reflexivity. Qed.

End SeedFacts.

(* ================================================================== *)
(** ** The claims about the node loop *)
(* ================================================================== *)

(** C6.  A tile that covers the node but holds NaN there leaves every
    scalar of the node as it was, under every policy, so the node is the
    same with or without that tile; and a node for which no tile offers a
    value that is not NaN receives the no-data value, and is not counted
    as filled. *)
Theorem nan_tiles_do_not_contribute env Ctrl wrap_x nx_360 half no_data_f col s :
  (forall B pcol,
      ignore B = false -> outside B = false ->
      tile_pcol wrap_x nx_360 col B = Some pcol ->
      is_nan (nth (Z.to_nat (pcol - out_i0 B)) (z B) nan) = true ->
      (forall st, node_step env Ctrl wrap_x nx_360 half col st B = st)
      /\ (forall before after,
             node_gather env Ctrl wrap_x nx_360 half (before ++ B :: after) col
             = node_gather env Ctrl wrap_x nx_360 half (before ++ after) col))
  /\ (forall blend,
         (forall B, In B blend -> tile_value wrap_x nx_360 col B = None) ->
         blend_node env Ctrl wrap_x nx_360 half no_data_f blend col s = (no_data_f, s)).
Proof.
  split.
  - intros B pcol Hi Ho Hp Hn.
    assert (Hv : tile_value wrap_x nx_360 col B = None).
    { unfold tile_value, gmt_M_is_fnan. now rewrite Hi, Ho, Hp, Hn. }
    split.
    + intros st. now apply node_step_none.
    + intros before after. unfold node_gather.
      rewrite !fold_left_app. simpl fold_left.
      now rewrite node_step_none by exact Hv.
  - intros blend H. unfold blend_node, node_gather.
    rewrite fold_node_skip by exact H.
    unfold sign_fixup. simpl. rewrite andb_false_r. reflexivity.
Qed.

(** A row with a hole: the second node of the only tile is NaN. *)
Lemma nan_tiles_do_not_contribute_witness :
  node_gather Sample.env Sample.plain false 0 0
              ([Sample.loaded_tile [5; 6; 7; 8]%float 1]
                 ++ Sample.loaded_tile [1; nan; 3; 4]%float 1 :: []) 1
  = node_gather Sample.env Sample.plain false 0 0
                ([Sample.loaded_tile [5; 6; 7; 8]%float 1] ++ []) 1
  /\ blend_node Sample.env Sample.plain false 0 0 (-9999)%float
                [Sample.loaded_tile [1; nan; 3; 4]%float 1] 1 Sample.no_stats
     = ((-9999)%float, Sample.no_stats).
Proof.
  pose proof (nan_tiles_do_not_contribute Sample.env Sample.plain false 0 0
                (-9999)%float 1 Sample.no_stats) as [Hnan Hnone].
  split.
  - refine (proj2 (Hnan (Sample.loaded_tile [1; nan; 3; 4]%float 1) 1 _ _ _ _) _ _);
      reflexivity.
  - apply Hnone. intros B [<-|[]]. reflexivity.
Defined.

(** C3.  With [-C] and no sign filter, and the value itself written out
    (no [-W], no [-Z]): under [f] the node receives the value of the first
    tile in blend order that offers one, whatever the later tiles hold;
    under [u] it receives an offered value that no offered value exceeds,
    under [l] an offered value that exceeds none. *)
Theorem clobber_without_sign env Ctrl wrap_x nx_360 half no_data_f blend col s :
  C_active Ctrl = true -> C_sign Ctrl = 0 ->
  W_active Ctrl = false -> Z_active Ctrl = false ->
  let offers := node_offers wrap_x nx_360 blend col in
  (forall v, In v offers -> is_grdfloat v) ->
  let out := fst (blend_node env Ctrl wrap_x nx_360 half no_data_f blend col s) in
  (C_mode Ctrl = BLEND_FIRST -> forall v later, offers = v :: later -> out = v)
  /\ (C_mode Ctrl = BLEND_UPPER -> offers <> [] ->
      In out offers /\ forall u, In u offers -> (u <=? out)%float = true)
  /\ (C_mode Ctrl = BLEND_LOWER -> offers <> [] ->
      In out offers /\ forall u, In u offers -> (out <=? u)%float = true).
Proof.
  intros Hc Hs HW HZ offers Hg out. subst out. unfold blend_node, node_gather.
  rewrite (sign_fixup_no_sign Ctrl Hs), (fold_node_clobber env Ctrl wrap_x nx_360 half col blend _ Hc).
  fold offers.
  assert (Hnan : forall u, In u offers -> is_nan u = false)
    by (intros u; apply node_offers_not_nan).
  split; [|split].
  - intros Hm v later E. rewrite E. simpl fold_left.
    rewrite (clobber_step_init Ctrl Hs), clobber_first_fold by exact Hm.
    rewrite node_emit_picked; try reflexivity; try assumption.
    simpl. apply Hg. rewrite E. now left.
  - intros Hm Hne. destruct offers as [|v later] eqn:E; [congruence|].
    simpl fold_left. rewrite (clobber_step_init Ctrl Hs).
    destruct (clobber_upper_fold Ctrl Hs later v true Hm) as (Hw & Hm1 & Hin & Hge & Hall).
    { intros u Hu. apply Hnan. now right. }
    { apply Hnan. now left. }
    assert (Hmem : In (nz (fold_left (fun s0 u => clobber_step Ctrl u (mark s0)) later
                                     (mk_node v 1 1 true true))) (v :: later)).
    { destruct Hin as [H|H]; [left; now rewrite H | now right]. }
    rewrite node_emit_picked; try assumption; [|now apply Hg].
    simpl fst. split; [exact Hmem|].
    intros u [<-|Hu]; [exact Hge | now apply Hall].
  - intros Hm Hne. destruct offers as [|v later] eqn:E; [congruence|].
    simpl fold_left. rewrite (clobber_step_init Ctrl Hs).
    destruct (clobber_lower_fold Ctrl Hs later v true Hm) as (Hw & Hm1 & Hin & Hge & Hall).
    { intros u Hu. apply Hnan. now right. }
    { apply Hnan. now left. }
    assert (Hmem : In (nz (fold_left (fun s0 u => clobber_step Ctrl u (mark s0)) later
                                     (mk_node v 1 1 true true))) (v :: later)).
    { destruct Hin as [H|H]; [left; now rewrite H | now right]. }
    rewrite node_emit_picked; try assumption; [|now apply Hg].
    simpl fst. split; [exact Hmem|].
    intros u [<-|Hu]; [exact Hge | now apply Hall].
Qed.

(** Three tiles that hold NaN, 5 and 9 at the node.  The first has a hole
    there, so the second is the first to offer a value: [f] writes 5
    whatever the third holds; [u] writes an offer that is at least 5 and
    9, [l] one that is at most 5 and 9. *)
Lemma clobber_without_sign_witness :
  let tiles := [Sample.loaded_tile [nan; 2; 3; 4]%float 1;
                Sample.loaded_tile [5; 6; 7; 8]%float 1;
                Sample.loaded_tile [9; 10; 11; 12]%float 1] in
  let out mode := fst (blend_node Sample.env (Sample.clobber mode 0) false 0 0 nan
                                  tiles 0 Sample.no_stats) in
  out BLEND_FIRST = 5%float
  /\ (In (out BLEND_UPPER) [5; 9]%float
      /\ forall u, In u [5; 9]%float -> (u <=? out BLEND_UPPER)%float = true)
  /\ (In (out BLEND_LOWER) [5; 9]%float
      /\ forall u, In u [5; 9]%float -> (out BLEND_LOWER <=? u)%float = true).
Proof.
  intros tiles out.
  assert (Hg : forall v, In v (node_offers false 0 tiles 0) -> is_grdfloat v).
  { intros v Hv. vm_compute in Hv. destruct Hv as [<-|[<-|[]]]; reflexivity. }
  assert (Hne : node_offers false 0 tiles 0 <> []) by (vm_compute; discriminate).
  split; [|split].
  - exact (proj1 (clobber_without_sign Sample.env (Sample.clobber BLEND_FIRST 0)
                    false 0 0 nan tiles 0 Sample.no_stats
                    eq_refl eq_refl eq_refl eq_refl Hg)
                 eq_refl 5%float [9%float] eq_refl).
  - exact (proj1 (proj2 (clobber_without_sign Sample.env (Sample.clobber BLEND_UPPER 0)
                           false 0 0 nan tiles 0 Sample.no_stats
                           eq_refl eq_refl eq_refl eq_refl Hg))
                 eq_refl Hne).
  - exact (proj2 (proj2 (clobber_without_sign Sample.env (Sample.clobber BLEND_LOWER 0)
                           false 0 0 nan tiles 0 Sample.no_stats
                           eq_refl eq_refl eq_refl eq_refl Hg))
                 eq_refl Hne).
Defined.

(** C9.  With [-C] and a sign filter, at a node where some tile offers a
    value but no offered value passes the filter, the node holds the value
    of the first tile that offers one, with weight 1 and one contributor;
    written out as a value (no [-W], no [-Z]) that is what the node
    receives, and it is counted as filled. *)
Theorem sign_filter_seed env Ctrl wrap_x nx_360 half no_data_f blend col s :
  C_active Ctrl = true -> (C_sign Ctrl = -1 \/ C_sign Ctrl = 1) ->
  let offers := node_offers wrap_x nx_360 blend col in
  forall v later, offers = v :: later ->
  (forall u, In u offers -> passes_sign_filter (C_sign Ctrl) u = false) ->
  let st := node_gather env Ctrl wrap_x nx_360 half blend col in
  nz st = v /\ nw st = 1%float /\ nm st = 1
  /\ (W_active Ctrl = false -> Z_active Ctrl = false -> is_grdfloat v ->
      blend_node env Ctrl wrap_x nx_360 half no_data_f blend col s = (v, count_node v s)).
Proof.
  intros Hc Hs offers v later E Hp st.
  assert (Hst : st = mk_node v 1 1 false true).
  { subst st. unfold node_gather.
    rewrite (fold_node_clobber env Ctrl wrap_x nx_360 half col blend _ Hc).
    fold offers. rewrite E. simpl fold_left.
    rewrite (clobber_step_seed Ctrl Hs), (seed_fold Ctrl Hs).
    - apply (sign_fixup_seed Ctrl Hs).
    - intros u Hu. apply (node_offers_not_nan wrap_x nx_360 blend col).
      fold offers. rewrite E. now right.
    - intros u Hu. apply Hp. rewrite E. now right. }
  rewrite Hst. repeat split.
  intros HW HZ Hg. unfold blend_node. fold st. rewrite Hst.
  now rewrite node_emit_picked.
Qed.

(** Upper mode restricted to values <= 0, over two tiles that hold 3 and
    7 at the node: the node receives 3, the seed, not the larger 7. *)
Lemma sign_filter_seed_witness :
  blend_node Sample.env (Sample.clobber BLEND_UPPER (-1)) false 0 0 nan
             [Sample.loaded_tile [3; 2; 1; 0]%float 1;
              Sample.loaded_tile [7; 6; 5; 4]%float 1] 0 Sample.no_stats
  = (3%float, count_node 3%float Sample.no_stats).
Proof.
  refine (proj2 (proj2 (proj2
            (sign_filter_seed Sample.env (Sample.clobber BLEND_UPPER (-1)) false 0 0 nan
               [Sample.loaded_tile [3; 2; 1; 0]%float 1;
                Sample.loaded_tile [7; 6; 5; 4]%float 1]
               0 Sample.no_stats eq_refl (or_introl eq_refl) 3%float [7%float] eq_refl _)))
            eq_refl eq_refl eq_refl).
  intros u Hu. vm_compute in Hu.
  destruct Hu as [<-|[<-|[]]]; reflexivity.
Defined.

(** C1, the claim as worded fails: one tile over the whole grid, given
    the weight -1, which inverts its taper (line 512).  Inside its inner
    region the inverted weight is 1 - 1 = 0, so every node of the first
    row has one contributor and weight sum 0; the code writes 0 there,
    where the quotient of the claim is NaN. *)
Lemma zero_weight_sum_counterexample :
  let blend := fst (fst (grdblend_sync_input_rows Sample.env 0
                           (Sample.set_up Sample.out_header [Sample.whole_tile true (-1)]) 0)) in
  let terms := node_terms Sample.env false 0 0 blend 0 in
  terms = [(0%float, 1%float)]
  /\ fst (blend_node Sample.env Sample.plain false 0 0 nan blend 0 Sample.no_stats) = 0%float
  /\ is_nan (spec_output Sample.plain (weighted_sum terms) (weight_sum terms)) = true.
Proof. vm_compute. repeat split. Qed.

(** The third mode on a tile of weight 2 and value 1: the weighted sum is
    2, and line 1081 writes that sum times the weight sum, 4. *)
Lemma weight_times_value_run :
  let Ctrl := mk_ctrl false BLEND_UPPER 0 true 1 false 1 in
  let blend := fst (fst (grdblend_sync_input_rows Sample.env 0
                           (Sample.set_up Sample.out_header [Sample.whole_tile true 2]) 0)) in
  let terms := node_terms Sample.env false 0 0 blend 0 in
  weighted_sum terms = 2%float /\ weight_sum terms = 2%float
  /\ fst (blend_node Sample.env Ctrl false 0 0 nan blend 0 Sample.no_stats) = 4%float.
Proof. vm_compute. repeat split. Qed.

(** C1 (amended).  At a node to which at least one tile contributed, with
    [z] and [w] the scalars gathered by the loop (without [-C], the sum of
    weight times value added up in grid precision and the sum of the
    weights): the value mode writes 0 when [w] is zero and [z / w]
    otherwise, times the scale under [-Z]; the weight mode writes [w]. *)
Theorem output_modes env Ctrl wrap_x nx_360 half no_data_f blend col s :
  let st := node_gather env Ctrl wrap_x nx_360 half blend col in
  let terms := node_terms env wrap_x nx_360 half blend col in
  let out := fst (blend_node env Ctrl wrap_x nx_360 half no_data_f blend col s) in
  let mean := to_grdfloat (if (nw st =? 0)%float then 0 else nz st / nw st)%float in
  nm st <> 0 ->
  (W_active Ctrl = false -> Z_active Ctrl = false -> out = mean)
  /\ (W_active Ctrl = false -> Z_active Ctrl = true ->
      out = to_grdfloat (mean * to_grdfloat (Z_scale Ctrl))%float)
  /\ (W_active Ctrl = true -> W_mode Ctrl = 0 -> out = to_grdfloat (nw st))
  /\ (C_active Ctrl = false ->
      nz st = weighted_sum terms /\ nw st = weight_sum terms
      /\ nm st = Z.of_nat (length terms)).
Proof.
  intros st terms out mean Hm.
  assert (Hout : out = node_output Ctrl (nz st) (nw st)).
  { subst out. unfold blend_node, node_emit. fold st.
    apply Z.eqb_neq in Hm. now rewrite Hm. }
  rewrite Hout. unfold node_output, out_case.
  split; [|split; [|split]].
  - intros HW HZ. now rewrite HW, HZ.
  - intros HW HZ. now rewrite HW, HZ.
  - intros HW HM. now rewrite HW, HM.
  - intros Hc. now apply node_gather_blend.
Qed.

(** Two tiles of weight 1 that hold 1 and 5 at the node blend to 3. *)
Lemma output_modes_witness :
  fst (blend_node Sample.env Sample.plain false 0 0 nan
                  [Sample.loaded_tile [1; 2; 3; 4]%float 1;
                   Sample.loaded_tile [5; 6; 7; 8]%float 1] 0 Sample.no_stats)
  = 3%float.
Proof.
  refine (eq_trans
            (proj1 (output_modes Sample.env Sample.plain false 0 0 nan
                                 [Sample.loaded_tile [1; 2; 3; 4]%float 1;
                                  Sample.loaded_tile [5; 6; 7; 8]%float 1]
                                 0 Sample.no_stats _)
                   eq_refl eq_refl) _).
  - vm_compute. discriminate.
  - vm_compute. reflexivity.
Defined.

(** C10, the claim as worded fails: under [-Z] line 1075 multiplies the
    guarded zero by the scale narrowed to grid precision.  One tile of
    weight 0 and the scale 2^130 (about 1.4e39, beyond the largest
    single-precision number): the node has one contributor and weight
    sum 0, the scale narrows to infinity, and the node receives 0 times
    infinity, a NaN, while it is counted as filled. *)
Lemma scaled_zero_counterexample :
  let Ctrl := mk_ctrl false BLEND_UPPER 0 false 0 true 0x1p+130 in
  let blend := [Sample.loaded_tile [1; 2; 3; 4]%float 0] in
  let terms := node_terms Sample.env false 0 0 blend 0 in
  let r := blend_node Sample.env Ctrl false 0 0 nan blend 0 Sample.no_stats in
  length terms = 1%nat
  /\ weight_sum terms = 0%float
  /\ to_grdfloat (Z_scale Ctrl) = infinity
  /\ is_nan (fst r) = true
  /\ n_fill (snd r) = 1.
Proof. vm_compute. repeat split. Qed.

(** C10 (amended).  Without [-C] and with the value written out, at a
    node with at least one contributor whose weights add up to zero, the
    code forms no quotient and counts the node as filled.  Without [-Z]
    the node receives +0.  Under [-Z] the zero is multiplied by the scale
    narrowed to grid precision: the node receives a zero when that is a
    finite number, and a NaN when it is an infinity or a NaN. *)
Theorem zero_weight_sum_is_filled env Ctrl wrap_x nx_360 half no_data_f blend col s :
  C_active Ctrl = false -> W_active Ctrl = false ->
  let terms := node_terms env wrap_x nx_360 half blend col in
  terms <> [] -> (weight_sum terms =? 0)%float = true ->
  let r := blend_node env Ctrl wrap_x nx_360 half no_data_f blend col s in
  n_fill (snd r) = (n_fill s + 1) mod 2 ^ 64
  /\ (Z_active Ctrl = false -> fst r = 0%float)
  /\ (Z_active Ctrl = true -> is_finite (to_grdfloat (Z_scale Ctrl)) = true ->
      (fst r =? 0)%float = true)
  /\ (Z_active Ctrl = true -> is_finite (to_grdfloat (Z_scale Ctrl)) = false ->
      is_nan (fst r) = true).
Proof.
  intros Hc HW terms Hne Hw0 r.
  destruct (node_gather_blend env Ctrl wrap_x nx_360 half blend col Hc) as (Hz & Hw & Hm).
  fold terms in Hz, Hw, Hm.
  assert (Hm0 : (nm (node_gather env Ctrl wrap_x nx_360 half blend col) =? 0) = false).
  { apply Z.eqb_neq. rewrite Hm. destruct terms; [congruence | simpl length; lia]. }
  subst r. unfold blend_node, node_emit. rewrite Hm0. simpl negb. cbv iota.
  simpl fst. simpl snd. unfold node_output, out_case. rewrite HW, Hw, Hw0.
  change (to_grdfloat 0) with 0%float.
  split; [reflexivity|].
  destruct (Z_active Ctrl) eqn:HZ.
  - split; [discriminate|]. split.
    + intros _ Hscale.
      destruct (IEEE.zero_mul_finite (to_grdfloat (Z_scale Ctrl)) Hscale)
        as (Heq & _ & sg & Hsf).
      now rewrite (IEEE.to_grdfloat_zero _ sg Hsf).
    + intros _ Hscale.
      pose proof (IEEE.zero_mul_not_finite (to_grdfloat (Z_scale Ctrl)) Hscale) as Hn.
      apply IEEE.is_nan_true. unfold to_grdfloat at 1. now rewrite Hn.
  - split; [reflexivity|]. split; discriminate.
Qed.

(** One tile of weight 0: the first node is written as 0 and counted. *)
Lemma zero_weight_sum_is_filled_witness :
  let r := blend_node Sample.env Sample.plain false 0 0 nan
                      [Sample.loaded_tile [1; 2; 3; 4]%float 0] 0 Sample.no_stats in
  fst r = 0%float /\ n_fill (snd r) = 1.
Proof.
  pose proof (zero_weight_sum_is_filled Sample.env Sample.plain false 0 0 nan
                [Sample.loaded_tile [1; 2; 3; 4]%float 0] 0 Sample.no_stats
                eq_refl eq_refl) as H.
  cbv zeta in H.
  destruct H as (Hfill & Hzero & _).
  - vm_compute. discriminate.
  - reflexivity.
  - split; [now apply Hzero | exact Hfill].
Defined.

(* ================================================================== *)
(** ** The row synchroniser *)
(* ================================================================== *)

Section SyncFacts.

Variable env : Collaborators.

Lemma same_static_refl B : same_static B B.
Proof. repeat split. Qed.

Lemma same_static_trans B1 B2 B3 :
  same_static B1 B2 -> same_static B2 B3 -> same_static B1 B3.
Proof.
  unfold same_static. intros (a1 & a2 & a3 & a4 & a5 & a6) (b1 & b2 & b3 & b4 & b5 & b6).
  repeat split; congruence.
Qed.

Lemma get_row_fields k B :
  let B' := fst (fst (get_row env k B)) in
  same_static B B' /\ wt_y B' = wt_y B.
Proof.
  unfold get_row. destruct (GMT_Get_Row env (file B) (RbR B)). simpl.
  split; [repeat split | reflexivity].
Qed.

Lemma get_row_events k B : snd (fst (get_row env k B)) = [ev_get_row k].
Proof. unfold get_row. now destruct (GMT_Get_Row env (file B) (RbR B)). Qed.

Lemma fetch_tile_fields k row B :
  let B' := fst (fst (fetch_tile env k row B)) in
  same_static B B' /\ wt_y B' = wt_y B.
Proof.
  unfold fetch_tile.
  destruct (memory B); [simpl; split; [repeat split | reflexivity]|].
  destruct (open B); [apply get_row_fields|].
  destruct (GMT_Read_Data env (file B)) as [[t rbr]|];
    [|simpl; split; [repeat split | reflexivity]].
  match goal with |- context [negb ?c] => destruct c end; simpl negb; cbv iota.
  - match goal with |- context [get_row env k ?X] =>
      pose proof (get_row_fields k X) as H; destruct (get_row env k X) as [[B3 evs] ret]
    end.
    simpl in *. exact H.
  - destruct (fseek env _ _); [simpl; split; [repeat split | reflexivity]|].
    match goal with |- context [get_row env k ?X] =>
      pose proof (get_row_fields k X) as H; destruct (get_row env k X) as [[B3 evs] ret]
    end.
    simpl in *. exact H.
Qed.

(** Fetching a row opens, seeks and reads, nothing else. *)
Lemma fetch_tile_events k row B e :
  In e (snd (fst (fetch_tile env k row B))) ->
  e = ev_open k \/ (exists n, e = ev_seek k n) \/ e = ev_get_row k.
Proof.
  unfold fetch_tile.
  destruct (memory B); [intros []|].
  destruct (open B).
  - rewrite get_row_events. intros [<-|[]]. auto.
  - destruct (GMT_Read_Data env (file B)) as [[t rbr]|]; [|intros []].
    match goal with |- context [negb ?c] => destruct c end; simpl negb; cbv iota.
    + match goal with |- context [get_row env k ?X] =>
        pose proof (get_row_events k X) as H; destruct (get_row env k X) as [[B3 evs] ret]
      end.
      simpl in *. subst evs. intros [<-|[<-|[]]]; auto.
    + destruct (fseek env _ _).
      * simpl. intros [<-|[<-|[]]]; eauto.
      * match goal with |- context [get_row env k ?X] =>
          pose proof (get_row_events k X) as H; destruct (get_row env k X) as [[B3 evs] ret]
        end.
        simpl in *. subst evs. intros [<-|[<-|[<-|[]]]]; eauto.
Qed.

Lemma leave_tile_fields k B : same_static B (fst (fst (leave_tile env k B))).
Proof.
  unfold leave_tile. simpl.
  destruct (open B); [destruct (GMT_Destroy_Data env (file B))|]; simpl;
    repeat split.
Qed.

(** Leaving a tile releases, and removes only a flagged file. *)
Lemma leave_tile_events k B e :
  In e (snd (fst (leave_tile env k B))) ->
  In e [ev_close k; ev_destroy k; ev_free_z k; ev_free_RbR k]
  \/ (e = ev_remove k (file B) /\ delete B = true).
Proof.
  unfold leave_tile. simpl.
  destruct (open B); [destruct (GMT_Destroy_Data env (file B))|]; simpl.
  - intros [<-|[]]. left. now left.
  - destruct (delete B); simpl; intuition (subst; auto).
  - intros [].
Qed.

Lemma sync_tile_static row half k B :
  same_static B (fst (fst (sync_tile env row half k B))).
Proof.
  unfold sync_tile. destruct (ignore B) eqn:Hi; [apply same_static_refl|].
  destruct (_ || _); [apply leave_tile_fields|].
  match goal with |- context [fetch_tile env k row ?X] =>
    pose proof (proj1 (fetch_tile_fields k row X)) as H
  end.
  eapply same_static_trans; [|exact H]. repeat split.
Qed.

(** Lines 582-583 stand between a tile and everything that happens to
    it. *)
Lemma sync_tile_guarded row half k B e :
  In e (snd (fst (sync_tile env row half k B))) -> event_guard row k B e.
Proof.
  unfold sync_tile, event_guard. destruct (ignore B) eqn:Hi; [intros []|].
  destruct (_ || _) eqn:Hr.
  - assert (Hout : row < out_j0 B \/ out_j1 B < row).
    { apply orb_true_iff in Hr. rewrite Z.gtb_ltb in Hr.
      destruct Hr as [H|H]; apply Z.ltb_lt in H; auto. }
    intros H. apply leave_tile_events in H. split; [reflexivity|].
    destruct H as [H|[-> Hd]]; [|auto].
    simpl in H. destruct H as [<-|[<-|[<-|[<-|[]]]]]; auto.
  - assert (Hin : out_j0 B <= row <= out_j1 B).
    { apply orb_false_iff in Hr. rewrite Z.gtb_ltb in Hr.
      destruct Hr as [H1 H2]. apply Z.ltb_ge in H1, H2. auto. }
    intros H. apply fetch_tile_events in H. split; [reflexivity|].
    destruct H as [->|[[n ->]| ->]]; auto.
Qed.


Lemma sync_from_static row half Bs : forall k,
  Forall2 same_static Bs (fst (fst (sync_from env k row half Bs))).
Proof.
  induction Bs as [|B rest IH]; intros k; simpl; [constructor|].
  pose proof (sync_tile_static row half k B) as Hs.
  destruct (sync_tile env row half k B) as [[B' evs] ret]. simpl in Hs.
  destruct ret as [st|].
  - simpl. constructor; [exact Hs|].
    clear. induction rest; constructor; [apply same_static_refl | assumption].
  - specialize (IH (S k)).
    destruct (sync_from env (S k) row half rest) as [[rest' evs'] st]. simpl in *.
    constructor; assumption.
Qed.


(** *** With a reader that succeeds, every tile is visited at every row *)

Lemma get_row_returns k B : snd (get_row env k B) = None.
Proof. unfold get_row. now destruct (GMT_Get_Row env (file B) (RbR B)). Qed.

Lemma sync_tile_completes row half k B :
  reader_succeeds env -> snd (sync_tile env row half k B) = None.
Proof.
  intros (Hd & Hr & Hs). unfold sync_tile.
  destruct (ignore B); [reflexivity|].
  destruct (_ || _).
  - unfold leave_tile. destruct (open _); [|reflexivity]. now rewrite Hd.
  - unfold fetch_tile. destruct (memory _); [reflexivity|].
    destruct (open _); [apply get_row_returns|].
    destruct (GMT_Read_Data env _) as [[t rbr]|] eqn:E; [|now apply Hr in E].
    rewrite Hs.
    match goal with |- context [negb ?c] => destruct c end; simpl negb; cbv iota;
      match goal with |- context [get_row env k ?X] =>
        pose proof (get_row_returns k X) as H; destruct (get_row env k X) as [[B3 evs] ret]
      end; exact H.
Qed.

Lemma sync_from_completes row half :
  reader_succeeds env ->
  forall Bs k,
    snd (sync_from env k row half Bs) = GMT_NOERROR
    /\ forall j B,
         nth_error Bs j = Some B ->
         nth_error (fst (fst (sync_from env k row half Bs))) j
         = Some (fst (fst (sync_tile env row half (k + j) B)))
         /\ incl (snd (fst (sync_tile env row half (k + j) B)))
                 (snd (fst (sync_from env k row half Bs))).
Proof.
  intros Hok. induction Bs as [|B rest IH]; intros k; simpl.
  - split; [reflexivity|]. intros [|j] B0 H; discriminate.
  - pose proof (sync_tile_completes row half k B Hok) as Hret.
    specialize (IH (S k)).
    destruct (sync_tile env row half k B) as [[B' evs] ret] eqn:Est. simpl in Hret.
    subst ret.
    destruct (sync_from env (S k) row half rest) as [[rest' evs'] st]. simpl in *.
    destruct IH as [Hst Hrest]. split; [exact Hst|].
    intros [|j] B0 H; simpl in *.
    + injection H as <-. rewrite Nat.add_0_r, Est. simpl.
      split; [reflexivity | apply incl_appl, incl_refl].
    + replace (k + S j)%nat with (S (k + j)) by lia.
      destruct (Hrest j B0 H) as [Hn Hi]. split; [exact Hn|].
      now apply incl_appr.
Qed.

End SyncFacts.



(** C2.  For a tile that is not ignored and a row inside its row range,
    the synchroniser leaves in [wt_y] the tile's weight times the taper of
    lines 597-602: the northern cosine for a row up to [in_j0], otherwise
    the southern cosine for a row from [in_j1] on, otherwise 1.  This is
    the tile that [grdblend_sync_input_rows] hands back at its place in
    the blend array, when the grid reader succeeds. *)
Theorem row_weight_is_tapered_weight env row half k B :
  ignore B = false -> out_j0 B <= row <= out_j1 B ->
  let B' := fst (fst (sync_tile env row half k B)) in
  (row <= in_j0 B ->
   wt_y B' = (0.5 * (1 - cos env ((float_of_int (row - out_j0 B) + half) * wyu B))
              * weight B)%float)
  /\ (in_j0 B < row -> in_j1 B <= row ->
      wt_y B' = (0.5 * (1 - cos env ((float_of_int (out_j1 B - row) + half) * wyd B))
                 * weight B)%float)
  /\ (in_j0 B < row < in_j1 B -> wt_y B' = (1 * weight B)%float)
  /\ (forall blend,
         reader_succeeds env -> nth_error blend k = Some B ->
         nth_error (fst (fst (grdblend_sync_input_rows env row blend half))) k = Some B').
Proof.
  intros Hi [Hlo Hhi] B'.
  assert (Hlist : forall blend,
             reader_succeeds env -> nth_error blend k = Some B ->
             nth_error (fst (fst (grdblend_sync_input_rows env row blend half))) k
             = Some B').
  { intros blend Hok Hk.
    exact (proj1 (proj2 (sync_from_completes env row half Hok blend 0) k B Hk)). }
  subst B'. unfold sync_tile in *. rewrite Hi in *.
  replace ((row <? out_j0 B) || (row >? out_j1 B)) with false in *.
  2:{ symmetry. apply orb_false_iff. split; [now apply Z.ltb_ge|].
      rewrite Z.gtb_ltb. now apply Z.ltb_ge. }
  split; [|split; [|split; [|exact Hlist]]]; clear Hlist;
    match goal with |- context [fetch_tile env k row ?X] =>
      rewrite (proj2 (fetch_tile_fields env k row X))
    end;
    simpl wt_y; unfold taper_y; simpl in_j0; simpl in_j1; simpl out_j0; simpl out_j1;
    simpl wyu; simpl wyd; simpl weight.
  - intros H. apply Z.leb_le in H. now rewrite H.
  - intros H1 H2. apply Z.leb_gt in H1. rewrite H1.
    rewrite Z.geb_leb. apply Z.leb_le in H2. now rewrite H2.
  - intros [H1 H2]. apply Z.leb_gt in H1. rewrite H1.
    rewrite Z.geb_leb. apply Z.leb_gt in H2. now rewrite H2.
Qed.

(** The northern edge row of a tile tapered over one row: the cosine
    argument is 0 and the row weight is 0. *)
Lemma row_weight_is_tapered_weight_witness :
  wt_y (fst (fst (sync_tile Sample.env 0 0 0
                            (Sample.ready Sample.out_header Sample.tapered_tile))))
  = 0%float.
Proof.
  refine (eq_trans
            (proj1 (row_weight_is_tapered_weight Sample.env 0 0 0
                      (Sample.ready Sample.out_header Sample.tapered_tile) eq_refl _) _) _).
  - vm_compute. split; discriminate.
  - vm_compute. discriminate.
  - vm_compute. reflexivity.
Defined.

(* ================================================================== *)
(** ** The per-tile set-up *)
(* ================================================================== *)

Ltac open_tile B :=
  destruct B;
  unfold blend_geometry, set_tapers, set_indices, set_offset, set_skip, set_z in *;
  simpl in *.

Lemma blend_geometry_settled h B : settled h (blend_geometry h B).
Proof. unfold settled. destruct B; reflexivity. Qed.

Lemma blend_skip_settled h B : settled h B -> settled h (blend_skip B).
Proof.
  unfold settled, blend_skip. intros H.
  destruct (out_j0 B <? 0); [|exact H].
  destruct (format (G B)); open_tile B.
  all: (injection H; intros; subst; reflexivity).
Qed.

Lemma set_z_settled h B zz : settled h B -> settled h (set_z zz B).
Proof.
  unfold settled. intros H. open_tile B. injection H; intros; subst; reflexivity.
Qed.

Section InitFacts.

Variable env : Collaborators.
Variable fuel : nat.

Lemma finish_tile_ready h B B' :
  finish_tile env h B = tile_ready B' ->
  settled h B' /\ file B' = file B /\ delete B' = delete B /\ memory B' = memory B.
Proof.
  unfold finish_tile.
  set (B1 := if (weight B <? 0)%float then _ else B).
  assert (H1 : file B1 = file B /\ delete B1 = delete B /\ memory B1 = memory B).
  { subst B1. destruct (weight B <? 0)%float; repeat split. }
  set (B3 := set_z _ (blend_skip (blend_geometry h B1))).
  assert (H3 : settled h B3 /\ file B3 = file B1 /\ delete B3 = delete B1
               /\ memory B3 = memory B1).
  { subst B3. split.
    - apply set_z_settled, blend_skip_settled, blend_geometry_settled.
    - unfold blend_skip. destruct (_ <? 0); [destruct (format _)|]; repeat split. }
  destruct H1 as (a1 & a2 & a3), H3 as (b0 & b1 & b2 & b3).
  assert (H : settled h B3 /\ file B3 = file B /\ delete B3 = delete B
              /\ memory B3 = memory B).
  { split; [exact b0|]. split; [now rewrite b1|]. split; [now rewrite b2 | now rewrite b3]. }
  destruct (memory B3) eqn:Hmem; [|destruct (GMT_Destroy_Data env (file B3))];
    intros E; try discriminate; injection E as <-; rewrite ?Hmem; exact H.
Qed.

Lemma rebuild_tile_ready h ds B B' :
  rebuild_tile env fuel h ds B = tile_ready B' -> settled h B' /\ delete B' = true.
Proof.
  unfold rebuild_tile.
  destruct (gmt_get_tempname env _) as [buffer|]; [|discriminate].
  destruct (GMT_Call_Module env _ _); [discriminate|].
  destruct (GMT_Destroy_Data env _); [discriminate|].
  destruct (GMT_Read_Data env _) as [[t rbr]|]; [|discriminate].
  destruct (grdblend_overlap_check env fuel _ h false) as [[[|] B3]|] eqn:E;
    try discriminate.
  intros H. apply finish_tile_ready in H. destruct H as (Hs & _ & Hd & _).
  split; [exact Hs|]. rewrite Hd.
  unfold grdblend_overlap_check in E.
  repeat match type of E with
         | (if ?c then _ else _) = _ => destruct c
         | match ?c with _ => _ end = _ => destruct c as [[[? ?] ?]|]
         end; try discriminate; injection E as <-; reflexivity.
Qed.

Lemma align_tile_ready h ns B B' :
  align_tile env fuel h ns B = tile_ready B' -> settled h B'.
Proof.
  unfold align_tile. destruct (_ =? 0); intros H.
  - now apply finish_tile_ready in H.
  - now apply rebuild_tile_ready in H.
Qed.

(** Whatever way a tile takes through the loop body, it comes out ready
    only with the geometry of lines 527-539. *)
Lemma init_tile_ready x_is_lon h ns B B' :
  init_tile env fuel x_is_lon h ns B = tile_ready B' -> settled h B'.
Proof.
  unfold init_tile.
  destruct (grdblend_outside_y_range h (inner B)); [discriminate|].
  destruct x_is_lon.
  - destruct (grdblend_overlap_check env fuel B h false) as [[[|] B1]|]; try discriminate.
    destruct (grdblend_overlap_check env fuel B1 h true) as [[[|] B2]|]; try discriminate.
    apply align_tile_ready.
  - destruct (grdblend_outside_cartesian_x_range h (inner B)); [discriminate|].
    apply align_tile_ready.
Qed.

(** The set-up abandons the job only when a service fails: no test on
    the geometry of a tile stands in its way. *)
Lemma finish_tile_never_fails h B negated code :
  services_succeed env -> finish_tile env h B <> tile_failed negated code.
Proof.
  intros (Hd & _). unfold finish_tile.
  destruct (memory _); [discriminate|]. rewrite Hd. discriminate.
Qed.

Lemma rebuild_tile_never_fails h ds B negated code :
  services_succeed env -> rebuild_tile env fuel h ds B <> tile_failed negated code.
Proof.
  intros Hs. pose proof Hs as (Hd & Hr & Ht & Hc). unfold rebuild_tile.
  destruct (gmt_get_tempname env _) as [buffer|] eqn:Et; [|now apply Ht in Et].
  rewrite Hc, Hd.
  destruct (GMT_Read_Data env _) as [[t rbr]|] eqn:Er; [|now apply Hr in Er].
  destruct (grdblend_overlap_check env fuel _ h false) as [[[|] B3]|];
    try discriminate.
  now apply finish_tile_never_fails.
Qed.

Lemma init_tile_never_fails x_is_lon h ns B negated code :
  services_succeed env ->
  init_tile env fuel x_is_lon h ns B <> tile_failed negated code.
Proof.
  intros Hs.
  assert (Ha : forall B0, align_tile env fuel h ns B0 <> tile_failed negated code).
  { intros B0. unfold align_tile. destruct (_ =? 0);
      [now apply finish_tile_never_fails | now apply rebuild_tile_never_fails]. }
  unfold init_tile.
  destruct (grdblend_outside_y_range h (inner B)); [discriminate|].
  destruct x_is_lon.
  - destruct (grdblend_overlap_check env fuel B h false) as [[[|] B1]|]; try discriminate.
    destruct (grdblend_overlap_check env fuel B1 h true) as [[[|] B2]|]; try discriminate.
    apply Ha.
  - destruct (grdblend_outside_cartesian_x_range h (inner B)); [discriminate|].
    apply Ha.
Qed.

End InitFacts.

(** The fields of a settled tile, one by one. *)
Lemma settled_fields h B :
  settled h B ->
  let t := G B in
  let w := inner B in
  let one_or_zero := if is_node_reg (registration h) then 1 else 0 in
  (out_i0 B = irint ((XLO (wesn t) - XLO (wesn h)) * r_inc_x h)%float
   /\ in_i0 B = irint ((XLO w - XLO (wesn h)) * r_inc_x h)%float - 1
   /\ in_i1 B = irint ((XHI w - XLO (wesn h)) * r_inc_x h)%float + one_or_zero
   /\ out_i1 B = irint ((XHI (wesn t) - XLO (wesn h)) * r_inc_x h)%float
                 - reg_code (registration t))
  /\ (out_j0 B = irint ((YHI (wesn h) - YHI (wesn t)) * r_inc_y h)%float
      /\ in_j0 B = irint ((YHI (wesn h) - YHI w) * r_inc_y h)%float - 1
      /\ in_j1 B = irint ((YHI (wesn h) - YLO w) * r_inc_y h)%float + one_or_zero
      /\ out_j1 B = irint ((YHI (wesn h) - YLO (wesn t)) * r_inc_y h)%float
                    - reg_code (registration t))
  /\ (wxl B = (M_PI * inc_x h / (XLO w - XLO (wesn t)))%float
      /\ wxr B = (M_PI * inc_x h / (XHI (wesn t) - XHI w))%float
      /\ wyu B = (M_PI * inc_y h / (YHI (wesn t) - YHI w))%float
      /\ wyd B = (M_PI * inc_y h / (YLO w - YLO (wesn t)))%float).
Proof.
  unfold settled. intros H. open_tile B.
  injection H; intros; subst. repeat split.
Qed.

Lemma out_of_phase_from_existsb sides g h :
  out_of_phase_from sides g h = existsb (side_out_of_phase g h) sides.
Proof.
  induction sides as [|side rest IH]; [reflexivity|].
  simpl. unfold side_out_of_phase at 1.
  destruct (phase_residual g h side <? GMT_CONV8_LIMIT)%float; simpl; [exact IH|].
  destruct (1 - phase_residual g h side <? GMT_CONV8_LIMIT)%float; simpl; [exact IH|].
  reflexivity.
Qed.

(* ================================================================== *)
(** ** The claims about the set-up *)
(* ================================================================== *)

(** C4, the claim as worded fails: the tile of the end-to-end example,
    whose inner region is its outer region, is not rejected.  It comes out
    of the set-up ready, with four infinite coefficients and its row
    buffer allocated. *)
Lemma degenerate_taper_counterexample :
  option_map (fun B => (degenerate_taper B, wxl B, wxr B, wyu B, wyd B, z B))
             (outcome_tile (init_tile Sample.env 8 false Sample.out_header 0
                                      (Sample.whole_tile true 1)))
  = Some (true, infinity, infinity, infinity, infinity, [0; 0; 0; 0]%float).
Proof. vm_compute. reflexivity. Qed.

(** C4 (amended).  For every tile that the set-up leaves ready, each of
    the four taper coefficients is pi times the output increment divided
    by the gap between the outer and the inner edge of its side, the
    quotient being taken as it comes: on a side where the two edges
    coincide the coefficient is not a finite number.  No tile is rejected
    for its geometry: while the services of the library succeed, the
    set-up of a tile never ends in an error. *)
Theorem taper_coefficients env fuel x_is_lon h not_supported B :
  (forall B',
      init_tile env fuel x_is_lon h not_supported B = tile_ready B' ->
      let t := wesn (G B') in
      let w := inner B' in
      (wxl B' = (M_PI * inc_x h / (XLO w - XLO t))%float
       /\ wxr B' = (M_PI * inc_x h / (XHI t - XHI w))%float
       /\ wyu B' = (M_PI * inc_y h / (YHI t - YHI w))%float
       /\ wyd B' = (M_PI * inc_y h / (YLO w - YLO t))%float)
      /\ (XLO w = XLO t -> is_finite (wxl B') = false)
      /\ (XHI w = XHI t -> is_finite (wxr B') = false)
      /\ (YHI w = YHI t -> is_finite (wyu B') = false)
      /\ (YLO w = YLO t -> is_finite (wyd B') = false))
  /\ (services_succeed env ->
      forall negated code,
        init_tile env fuel x_is_lon h not_supported B <> tile_failed negated code).
Proof.
  split.
  - intros B' H t w. apply init_tile_ready, settled_fields in H.
    destruct H as (_ & _ & Hxl & Hxr & Hyu & Hyd). fold t w in Hxl, Hxr, Hyu, Hyd.
    split; [repeat split; assumption|].
    rewrite Hxl, Hxr, Hyu, Hyd.
    repeat split; intros ->; apply IEEE.div_sub_diag_not_finite.
  - intros Hs negated code. now apply init_tile_never_fails.
Qed.

(** The tile of the end-to-end example: its western coefficient is pi
    over 0 - 0. *)
Lemma taper_coefficients_witness :
  let B' := Sample.ready Sample.out_header (Sample.whole_tile true 1) in
  wxl B' = (M_PI * 1 / (0 - 0))%float /\ is_finite (wxl B') = false.
Proof.
  intros B'.
  assert (E : init_tile Sample.env 8 false Sample.out_header 0 (Sample.whole_tile true 1)
              = tile_ready B') by (vm_compute; reflexivity).
  destruct (proj1 (taper_coefficients Sample.env 8 false Sample.out_header 0
                     (Sample.whole_tile true 1)) B' E) as ((Hxl & _) & Hdeg & _).
  split; [exact Hxl | apply Hdeg; reflexivity].
Defined.




(** C8, the claim as worded fails: a pixel-registered tile over the
    region of a gridline-registered output.  Increments agree and every
    edge of the tile lies on an edge of the output, so the residual of the
    claim is 0 on all four sides; the code adds the registration offset to
    each edge, finds the residual 0.5, and has the tile resampled. *)
Lemma phase_counterexample :
  spec_must_resample Sample.pixel_header Sample.out_header = false
  /\ Z.testbit (do_sample_bits 0 Sample.pixel_header Sample.out_header) 0 = true
  /\ phase_residual Sample.pixel_header Sample.out_header 0 = 0.5%float
  /\ option_map (fun B => (delete B, file B))
                (outcome_tile (init_tile Sample.env 8 false Sample.out_header 0
                                 (Sample.raw_tile Sample.pixel_header
                                    (wesn Sample.pixel_header) "pixel.nc" false 1)))
     = Some (true, "grdblend_resampled.nc"%string).
Proof. vm_compute. repeat split. Qed.

(** A residual of exactly 1e-8 does not pass line 151: the tile is
    resampled, although it is not more than 1e-8 away from 0. *)
Lemma phase_limit_run :
  phase_residual Sample.nudged_header Sample.out_header 0 = GMT_CONV8_LIMIT
  /\ grdblend_out_of_phase Sample.nudged_header Sample.out_header = true
  /\ spec_must_resample Sample.nudged_header Sample.out_header = false.
Proof. vm_compute. repeat split. Qed.

(** C8 (amended).  Bit 1 of [do_sample], which sends the tile to the
    resampler, is set exactly when the relative increment mismatch on
    either axis exceeds 0.002, or on some side the residual of the
    distance between the registration-adjusted edges (edge plus [xy_off]
    times increment, for tile and output alike) is neither below 1e-8 nor
    within less than 1e-8 of one.  A tile for which neither holds, with
    the format flag clear, skips the rebuild and keeps its file, its
    deletion flag and its place in memory. *)
Theorem resample_decision not_supported t h :
  let out_of_step := inc_mismatch t h || existsb (side_out_of_phase t h) [0; 1; 2; 3]%nat in
  Z.testbit (do_sample_bits not_supported t h) 0 = out_of_step
  /\ (do_sample_bits not_supported t h =? 0) = (not_supported =? 0) && negb out_of_step
  /\ (forall env fuel B,
         G B = t -> not_supported = 0 -> out_of_step = false ->
         align_tile env fuel h not_supported B = finish_tile env h B
         /\ forall B', finish_tile env h B = tile_ready B' ->
                       file B' = file B /\ delete B' = delete B /\ memory B' = memory B).
Proof.
  intros out_of_step.
  assert (Hbits : do_sample_bits not_supported t h
                  = (if not_supported =? 0 then 0 else 2) + (if out_of_step then 1 else 0)).
  { unfold do_sample_bits, out_of_step, grdblend_out_of_phase.
    rewrite out_of_phase_from_existsb.
    destruct (not_supported =? 0), (inc_mismatch t h),
      (existsb (side_out_of_phase t h) [0; 1; 2; 3]%nat); reflexivity. }
  split; [|split].
  - rewrite Hbits. destruct (not_supported =? 0), out_of_step; reflexivity.
  - rewrite Hbits. destruct (not_supported =? 0), out_of_step; reflexivity.
  - intros env fuel B HG Hns Hstep. split.
    + unfold align_tile. rewrite HG, Hbits, Hns, Hstep. reflexivity.
    + intros B' H. now apply finish_tile_ready in H.
Qed.

(** The tile of the end-to-end example is in step with the output and is
    used as it is. *)
Lemma resample_decision_witness :
  let B := Sample.whole_tile true 1 in
  align_tile Sample.env 8 Sample.out_header 0 B = finish_tile Sample.env Sample.out_header B
  /\ file (Sample.ready Sample.out_header B) = "whole.nc"%string
  /\ delete (Sample.ready Sample.out_header B) = false.
Proof.
  intros B.
  destruct (resample_decision 0 Sample.out_header Sample.out_header) as (_ & _ & H).
  destruct (H Sample.env 8%nat B eq_refl eq_refl eq_refl) as [Ha Hf].
  split; [exact Ha|].
  destruct (Hf (Sample.ready Sample.out_header B)) as (Hfile & Hdel & _).
  - vm_compute. reflexivity.
  - split; [exact Hfile | exact Hdel].
Defined.

(* ================================================================== *)
(** ** The end-to-end example of section 8 *)
(* ================================================================== *)

(** Output grid of 4 x 4 nodes, increment 1, region 0/3/0/3, and one tile
    identical to it with weight 1 and inner region = outer region, read
    row by row from its file: the output is the tile verbatim, all 16
    nodes are filled, and the weights written under [-W] are all 1. *)
Lemma end_to_end_example :
  let blend := Sample.set_up Sample.out_header [Sample.whole_tile false 1] in
  let run := blend_rows Sample.env Sample.plain false 0 0 4 0 4 nan blend Sample.no_stats in
  let weights := blend_rows Sample.env (mk_ctrl false BLEND_UPPER 0 true 0 false 1)
                            false 0 0 4 0 4 nan blend Sample.no_stats in
  run_status run = GMT_NOERROR
  /\ run_rows run = Sample.grid_rows
  /\ n_fill (run_stats run) = 16
  /\ run_trace run = [(0, ev_open 0); (0, ev_get_row 0); (1, ev_get_row 0);
                      (2, ev_get_row 0); (3, ev_get_row 0)]
  /\ run_rows weights = repeat (repeat 1%float 4) 4.
Proof. vm_compute. repeat split. Qed.

(* ================================================================== *)
(** ** The clobber modes of -C *)
(* ================================================================== *)

(** *** Clobbering never blends *)

Section ClobberInvariant.

Variable Ctrl : GRDBLEND_CTRL.

Lemma mark_seen st : seen_not_nan st = true -> mark st = st.
Proof. destruct st; simpl; intros ->; reflexivity. Qed.

Lemma clobber_step_first v vs :
  In v vs -> clobbered Ctrl vs (clobber_step Ctrl v (mark node_init)).
Proof.
  intros Hv. unfold clobber_step. simpl nm.
  replace (clobber_keeps (C_mode Ctrl) 0 v (nz (mark node_init))) with false
    by (destruct (C_mode Ctrl); reflexivity).
  unfold clobbered.
  destruct (C_sign Ctrl) as [|p|p] eqn:Es; [| destruct p | destruct p]; simpl;
    (split; [exact Hv|]); (split; [reflexivity|]); auto 6.
Qed.

Lemma clobber_step_inv v vs st :
  In v vs -> clobbered Ctrl vs st -> clobbered Ctrl vs (clobber_step Ctrl v (mark st)).
Proof.
  intros Hv (Hin & Hseen & Hmw). rewrite (mark_seen st Hseen).
  unfold clobber_step.
  destruct (clobber_keeps _ _ _ _); [repeat split; assumption|].
  assert (Hpick : clobbered Ctrl vs (pick v st)) by (repeat split; simpl; auto).
  assert (Hseed : clobbered Ctrl vs (seed v st)) by (repeat split; simpl; auto).
  assert (Hst : clobbered Ctrl vs st) by (repeat split; assumption).
  destruct (C_sign Ctrl) as [|p|p]; [exact Hpick| |].
  - destruct p; try exact Hpick.
    destruct (first_grid st); [exact Hseed|]. destruct (v <? 0)%float; assumption.
  - destruct p; try exact Hpick.
    destruct (first_grid st); [exact Hseed|]. destruct (0 <? v)%float; assumption.
Qed.

Lemma clobber_fold_inv vs us : forall st,
  incl us vs -> clobbered Ctrl vs st ->
  clobbered Ctrl vs (fold_left (fun s u => clobber_step Ctrl u (mark s)) us st).
Proof.
  induction us as [|u us IH]; intros st Hi Hc; [exact Hc|].
  simpl. apply IH; [intros x Hx; apply Hi; now right|].
  apply clobber_step_inv; [apply Hi; now left | exact Hc].
Qed.

Lemma clobber_gather env wrap_x nx_360 half blend col :
  C_active Ctrl = true ->
  node_offers wrap_x nx_360 blend col <> [] ->
  let st := node_gather env Ctrl wrap_x nx_360 half blend col in
  nm st = 1 /\ nw st = 1%float /\ In (nz st) (node_offers wrap_x nx_360 blend col).
Proof.
  intros Hc Hne st. subst st. unfold node_gather.
  rewrite (fold_node_clobber env Ctrl wrap_x nx_360 half col blend node_init Hc).
  destruct (node_offers wrap_x nx_360 blend col) as [|v0 later] eqn:E; [congruence|].
  simpl fold_left.
  pose proof (clobber_fold_inv (v0 :: later) later _
                (fun x Hx => or_intror Hx)
                (clobber_step_first v0 (v0 :: later) (or_introl eq_refl)))
    as (Hin & Hseen & Hmw).
  unfold sign_fixup.
  destruct Hmw as [[Hm Hw] | (Hm & Hw & Hs)].
  - rewrite Hm. simpl. rewrite andb_false_r. simpl. auto.
  - rewrite Hm, Hseen.
    replace (negb (C_sign Ctrl =? 0)) with true by (destruct Hs as [-> | ->]; reflexivity).
    simpl. auto.
Qed.

End ClobberInvariant.

(** *** The clobber modes under a sign modifier *)

Section SignFilterFacts.

Variable Ctrl : GRDBLEND_CTRL.
Hypothesis signed : C_sign Ctrl = -1 \/ C_sign Ctrl = 1.

Lemma filter_continue u :
  passes_sign_filter (C_sign Ctrl) u = true ->
  match C_sign Ctrl with
  | -1 => (0 <? u)%float
  | 1 => (u <? 0)%float
  | _ => false
  end = false.
Proof.
  unfold passes_sign_filter.
  destruct signed as [-> | ->]; apply IEEE.leb_not_ltb.
Qed.

Lemma filter_continue_not u :
  is_nan u = false -> passes_sign_filter (C_sign Ctrl) u = false ->
  match C_sign Ctrl with
  | -1 => (0 <? u)%float
  | 1 => (u <? 0)%float
  | _ => false
  end = true.
Proof.
  unfold passes_sign_filter. intros Hn.
  destruct signed as [-> | ->]; intros H.
  - now apply IEEE.ltb_of_not_leb.
  - now apply IEEE.ltb_of_not_leb.
Qed.

(** After the first tile, a value that fails the filter changes nothing. *)
Lemma clobber_step_filtered u z w m :
  is_nan u = false -> passes_sign_filter (C_sign Ctrl) u = false ->
  clobber_step Ctrl u (mark (mk_node z w m false true)) = mk_node z w m false true.
Proof.
  intros Hn Hp. pose proof (filter_continue_not u Hn Hp) as Hc.
  unfold clobber_step. simpl.
  destruct (clobber_keeps _ _ _ _); [reflexivity|].
  destruct signed as [Hs | Hs]; rewrite Hs in *; rewrite Hc; reflexivity.
Qed.

(** The first value that passes is picked whatever the mode, since [m]
    is still zero. *)
Lemma clobber_step_first_pass u z :
  passes_sign_filter (C_sign Ctrl) u = true ->
  clobber_step Ctrl u (mark (mk_node z 0 0 false true)) = mk_node u 1 1 false true.
Proof.
  intros Hp. pose proof (filter_continue u Hp) as Hc.
  unfold clobber_step. simpl nm. rewrite clobber_keeps_unset by exact signed.
  simpl. destruct signed as [Hs | Hs]; rewrite Hs in *; rewrite Hc; reflexivity.
Qed.

(** From then on a value that passes is treated as without the
    modifier. *)
Lemma clobber_step_pass u z :
  passes_sign_filter (C_sign Ctrl) u = true ->
  clobber_step Ctrl u (mark (mk_node z 1 1 false true))
  = clobber_step (without_sign Ctrl) u (mark (mk_node z 1 1 false true)).
Proof.
  intros Hp. pose proof (filter_continue u Hp) as Hc.
  unfold clobber_step. simpl.
  destruct (clobber_keeps _ _ _ _); [reflexivity|].
  destruct signed as [Hs | Hs]; rewrite Hs in *; rewrite Hc; reflexivity.
Qed.

Lemma clobber_step_shape u z :
  exists z', clobber_step (without_sign Ctrl) u (mark (mk_node z 1 1 false true))
             = mk_node z' 1 1 false true.
Proof.
  unfold clobber_step. simpl.
  destruct (clobber_keeps _ _ _ _); eexists; reflexivity.
Qed.

Lemma fold_filtered later : forall z w m,
  (forall u, In u later -> is_nan u = false) ->
  fold_left (fun s u => clobber_step Ctrl u (mark s)) later (mk_node z w m false true)
  = fold_left (fun s u => clobber_step Ctrl u (mark s))
              (filter (passes_sign_filter (C_sign Ctrl)) later) (mk_node z w m false true).
Proof.
  induction later as [|u later IH]; intros z w m Hn; [reflexivity|].
  assert (Hn' : forall x, In x later -> is_nan x = false) by (intros x Hx; apply Hn; now right).
  simpl filter. destruct (passes_sign_filter (C_sign Ctrl) u) eqn:Hp.
  - simpl fold_left.
    assert (Hshape : exists z' w' m', clobber_step Ctrl u (mark (mk_node z w m false true))
                                      = mk_node z' w' m' false true).
    { unfold clobber_step. simpl.
      destruct (clobber_keeps _ _ _ _); [do 3 eexists; reflexivity|].
      destruct signed as [Hs | Hs]; rewrite Hs;
        match goal with |- context [if ?c then _ else _] => destruct c end;
        do 3 eexists; reflexivity. }
    destruct Hshape as (z' & w' & m' & ->). now apply IH.
  - simpl fold_left. rewrite clobber_step_filtered by (auto; apply Hn; now left).
    now apply IH.
Qed.

Lemma fold_passing rest : forall z,
  (forall u, In u rest -> passes_sign_filter (C_sign Ctrl) u = true) ->
  fold_left (fun s u => clobber_step Ctrl u (mark s)) rest (mk_node z 1 1 false true)
  = fold_left (fun s u => clobber_step (without_sign Ctrl) u (mark s)) rest
              (mk_node z 1 1 false true).
Proof.
  induction rest as [|u rest IH]; intros z Hp; [reflexivity|].
  simpl fold_left. rewrite clobber_step_pass by (apply Hp; now left).
  destruct (clobber_step_shape u z) as [z' ->].
  apply IH. intros x Hx. apply Hp. now right.
Qed.

(** The node after the first tile [v0] and the later offers: the first
    tile only seeds, and the later values that pass the filter are
    clobbered among themselves. *)
Lemma seeded_fold v0 later :
  (forall u, In u later -> is_nan u = false) ->
  let passing := filter (passes_sign_filter (C_sign Ctrl)) later in
  fold_left (fun s u => clobber_step Ctrl u (mark s)) (v0 :: later) node_init
  = match passing with
    | [] => mk_node v0 0 0 false true
    | u :: rest =>
        fold_left (fun s x => clobber_step (without_sign Ctrl) x (mark s)) rest
                  (mk_node u 1 1 false true)
    end.
Proof.
  intros Hn passing. simpl fold_left. rewrite clobber_step_seed by exact signed.
  rewrite fold_filtered by exact Hn. fold passing.
  assert (Hall : forall u, In u passing -> passes_sign_filter (C_sign Ctrl) u = true).
  { intros u Hu. unfold passing in Hu. now apply filter_In in Hu. }
  destruct passing as [|u rest]; [reflexivity|].
  simpl fold_left. rewrite clobber_step_first_pass by (apply Hall; now left).
  apply fold_passing. intros x Hx. apply Hall. now right.
Qed.

End SignFilterFacts.

Lemma last_cons {A : Type} (l : list A) : forall x d, last (x :: l) d = last l x.
Proof.
  induction l as [|y l IH]; intros x d; [reflexivity|].
  change (last (x :: y :: l) d) with (last (y :: l) d). rewrite !IH. reflexivity.
Qed.

(** [-Co] without a modifier: every offer overwrites the node. *)
Lemma clobber_last_fold Ctrl vs : forall z0 fg,
  C_sign Ctrl = 0 -> C_mode Ctrl = BLEND_LAST ->
  fold_left (fun s u => clobber_step Ctrl u (mark s)) vs (mk_node z0 1 1 fg true)
  = mk_node (last vs z0) 1 1 fg true.
Proof.
  induction vs as [|v vs IH]; intros z0 fg Hs Hm; [reflexivity|].
  rewrite (last_cons vs v z0), <- (IH v fg Hs Hm).
  simpl fold_left. f_equal. unfold clobber_step. rewrite Hs, Hm. reflexivity.
Qed.

(** [-Co] without a sign modifier (lines 1033-1052, the case
    [BLEND_LAST] that the [switch] of line 1034 lets through): the node
    receives the value of the last tile of the blend array that offers
    one, and is counted as filled. *)
Theorem clobber_last_takes_last_offer env Ctrl wrap_x nx_360 half no_data_f blend col s :
  C_active Ctrl = true -> C_mode Ctrl = BLEND_LAST -> C_sign Ctrl = 0 ->
  W_active Ctrl = false -> Z_active Ctrl = false ->
  (forall v, In v (node_offers wrap_x nx_360 blend col) -> is_grdfloat v) ->
  forall front v,
    node_offers wrap_x nx_360 blend col = front ++ [v] ->
    blend_node env Ctrl wrap_x nx_360 half no_data_f blend col s = (v, count_node v s).
Proof.
  intros Hc Hm Hs HW HZ Hg front v E.
  unfold blend_node, node_gather.
  rewrite (fold_node_clobber env Ctrl wrap_x nx_360 half col blend node_init Hc), E.
  rewrite sign_fixup_no_sign by exact Hs.
  assert (Hfold : fold_left (fun s0 u => clobber_step Ctrl u (mark s0)) (front ++ [v]) node_init
                  = mk_node v 1 1 true true).
  { destruct front as [|v0 front].
    - simpl. now apply clobber_step_init.
    - simpl app. simpl fold_left. rewrite clobber_step_init by exact Hs.
      rewrite clobber_last_fold by assumption. now rewrite last_last. }
  rewrite Hfold.
  apply (node_emit_picked Ctrl no_data_f (mk_node v 1 1 true true) s eq_refl eq_refl HW HZ).
  apply Hg. rewrite E. apply in_or_app. right. now left.
Qed.

(** Three tiles that hold NaN, 5 and 9 at the node: under [-Co] the node
    receives 9. *)
Lemma clobber_last_takes_last_offer_witness :
  fst (blend_node Sample.env (Sample.clobber BLEND_LAST 0) false 0 0 nan
                  [Sample.loaded_tile [nan; 2; 3; 4]%float 1;
                   Sample.loaded_tile [5; 6; 7; 8]%float 1;
                   Sample.loaded_tile [9; 10; 11; 12]%float 1] 0 Sample.no_stats)
  = 9%float.
Proof.
  refine (f_equal fst
            (clobber_last_takes_last_offer Sample.env (Sample.clobber BLEND_LAST 0)
               false 0 0 nan
               [Sample.loaded_tile [nan; 2; 3; 4]%float 1;
                Sample.loaded_tile [5; 6; 7; 8]%float 1;
                Sample.loaded_tile [9; 10; 11; 12]%float 1] 0 Sample.no_stats
               eq_refl eq_refl eq_refl eq_refl eq_refl _ [5%float] 9%float eq_refl)).
  intros v Hv. vm_compute in Hv. destruct Hv as [<-|[<-|[]]]; reflexivity.
Defined.

(** [-C] with a sign modifier (lines 1033-1053 and 1069): the first tile
    that offers a value only seeds [z[col]] (lines 1041 and 1044), whether
    or not its value passes the filter, and leaves [m] at zero.  The node
    is then decided among the later offers that pass the filter as if
    they were alone: [f] writes the first of them, [o] the last, [u] the
    largest and [l] the smallest; the value of the first tile is written
    only when no later offer passes. *)
Theorem sign_filter_first_tile_only_seeds env Ctrl wrap_x nx_360 half no_data_f blend col s :
  C_active Ctrl = true -> C_sign Ctrl = -1 \/ C_sign Ctrl = 1 ->
  W_active Ctrl = false -> Z_active Ctrl = false ->
  (forall v, In v (node_offers wrap_x nx_360 blend col) -> is_grdfloat v) ->
  forall v0 later,
    node_offers wrap_x nx_360 blend col = v0 :: later ->
    let passing := filter (passes_sign_filter (C_sign Ctrl)) later in
    let out := fst (blend_node env Ctrl wrap_x nx_360 half no_data_f blend col s) in
    snd (blend_node env Ctrl wrap_x nx_360 half no_data_f blend col s) = count_node out s
    /\ (passing = [] -> out = v0)
    /\ (C_mode Ctrl = BLEND_FIRST -> forall u rest, passing = u :: rest -> out = u)
    /\ (C_mode Ctrl = BLEND_LAST -> forall front u, passing = front ++ [u] -> out = u)
    /\ (C_mode Ctrl = BLEND_UPPER -> passing <> [] ->
        In out passing /\ forall u, In u passing -> (u <=? out)%float = true)
    /\ (C_mode Ctrl = BLEND_LOWER -> passing <> [] ->
        In out passing /\ forall u, In u passing -> (out <=? u)%float = true).
Proof.
  intros Hc Hsg HW HZ Hg v0 later E passing out. subst out.
  set (res := blend_node env Ctrl wrap_x nx_360 half no_data_f blend col s).
  assert (Hv0 : In v0 (node_offers wrap_x nx_360 blend col)) by (rewrite E; now left).
  assert (Hnan : forall u, In u later -> is_nan u = false).
  { intros u Hu. apply (node_offers_not_nan wrap_x nx_360 blend col). rewrite E. now right. }
  assert (Hpass : forall u, In u passing -> In u (node_offers wrap_x nx_360 blend col)).
  { intros u Hu. rewrite E. right. unfold passing in Hu. now apply filter_In in Hu. }
  assert (Hpn : forall u, In u passing -> is_nan u = false).
  { intros u Hu. apply Hnan. unfold passing in Hu. now apply filter_In in Hu. }
  assert (Hgather : node_gather env Ctrl wrap_x nx_360 half blend col
                    = sign_fixup Ctrl
                        match passing with
                        | [] => mk_node v0 0 0 false true
                        | u :: rest =>
                            fold_left (fun s0 x => clobber_step (without_sign Ctrl) x (mark s0))
                                      rest (mk_node u 1 1 false true)
                        end).
  { unfold node_gather.
    rewrite (fold_node_clobber env Ctrl wrap_x nx_360 half col blend node_init Hc), E.
    now rewrite (seeded_fold Ctrl Hsg v0 later Hnan). }
  (* the node holds one picked value [x] *)
  assert (Hemit : forall x, In x (node_offers wrap_x nx_360 blend col) ->
             node_gather env Ctrl wrap_x nx_360 half blend col = mk_node x 1 1 false true ->
             fst res = x /\ snd res = count_node x s).
  { intros x Hx Hst. subst res. unfold blend_node. rewrite Hst.
    rewrite (node_emit_picked Ctrl no_data_f (mk_node x 1 1 false true) s
               eq_refl eq_refl HW HZ (Hg x Hx)).
    split; reflexivity. }
  assert (Hfix : forall x, sign_fixup Ctrl (mk_node x 1 1 false true) = mk_node x 1 1 false true).
  { intros x. unfold sign_fixup. simpl. now rewrite andb_false_r. }
  (* the count, whatever the mode *)
  assert (Hmode : forall u rest, passing = u :: rest ->
             exists x, In x passing
                       /\ node_gather env Ctrl wrap_x nx_360 half blend col
                          = mk_node x 1 1 false true).
  { intros u rest Ep. rewrite Hgather, Ep.
    pose proof (clobber_fold_inv (without_sign Ctrl) (u :: rest) rest
                  (mk_node u 1 1 false true) (fun x Hx => or_intror Hx)) as Hinv.
    assert (Hshape : forall us z, exists z',
               fold_left (fun s0 x => clobber_step (without_sign Ctrl) x (mark s0)) us
                         (mk_node z 1 1 false true) = mk_node z' 1 1 false true
               /\ (z' = z \/ In z' us)).
    { induction us as [|a us IH]; intros z; [exists z; auto|].
      simpl fold_left. 
      assert (Hstep : clobber_step (without_sign Ctrl) a (mark (mk_node z 1 1 false true))
                      = mk_node z 1 1 false true
                      \/ clobber_step (without_sign Ctrl) a (mark (mk_node z 1 1 false true))
                         = mk_node a 1 1 false true).
      { unfold clobber_step. simpl. destruct (clobber_keeps _ _ _ _); auto. }
      destruct Hstep as [-> | ->].
      - destruct (IH z) as (z' & Hz & Hor). exists z'. split; [exact Hz|].
        destruct Hor; [now left | right; now right].
      - destruct (IH a) as (z' & Hz & Hor). exists z'. split; [exact Hz|].
        right. destruct Hor as [-> | H]; [now left | now right]. }
    destruct (Hshape rest u) as (z' & Hz & Hor). exists z'. rewrite Hz, Hfix.
    split; [|reflexivity]. destruct Hor as [-> | H]; [now left | now right]. }
  split; [|split; [|split; [|split; [|split]]]].
  - destruct passing as [|u rest] eqn:Ep.
    + assert (Hst : node_gather env Ctrl wrap_x nx_360 half blend col
                    = mk_node v0 1 1 false true).
      { rewrite Hgather. now apply sign_fixup_seed. }
      destruct (Hemit v0 Hv0 Hst) as [Hf H].
      now rewrite Hf.
    + destruct (Hmode u rest eq_refl) as (x & Hx & Hst).
      destruct (Hemit x (Hpass x Hx) Hst) as [Hf H]. now rewrite Hf.
  - intros Ep.
    assert (Hst : node_gather env Ctrl wrap_x nx_360 half blend col
                  = mk_node v0 1 1 false true).
    { rewrite Hgather, Ep. now apply sign_fixup_seed. }
    exact (proj1 (Hemit v0 Hv0 Hst)).
  - intros Hm u rest Ep.
    assert (Hst : node_gather env Ctrl wrap_x nx_360 half blend col
                  = mk_node u 1 1 false true).
    { rewrite Hgather, Ep.
      rewrite (clobber_first_fold (without_sign Ctrl) u false rest Hm). apply Hfix. }
    apply (Hemit u); [apply Hpass; rewrite Ep; now left | exact Hst].
  - intros Hm front u Ep.
    assert (Hst : node_gather env Ctrl wrap_x nx_360 half blend col
                  = mk_node u 1 1 false true).
    { rewrite Hgather, Ep. destruct front as [|a front]; simpl app; cbv iota.
      - simpl. apply Hfix.
      - rewrite (clobber_last_fold (without_sign Ctrl) (front ++ [u]) a false eq_refl Hm).
        rewrite last_last. apply Hfix. }
    apply (Hemit u); [apply Hpass; rewrite Ep; apply in_or_app; right; now left | exact Hst].
  - intros Hm Hne. destruct passing as [|u rest] eqn:Ep; [congruence|].
    destruct (clobber_upper_fold (without_sign Ctrl) eq_refl rest u false Hm
                (fun x Hx => Hpn x (or_intror Hx)) (Hpn u (or_introl eq_refl)))
      as (Hw & Hm1 & Hin & Hge & Hall).
    destruct (Hmode u rest eq_refl) as (x & Hx & Hst).
    assert (Hnz : nz (fold_left (fun s0 x => clobber_step (without_sign Ctrl) x (mark s0)) rest
                                (mk_node u 1 1 false true)) = x).
    { rewrite Hgather in Hst.
      destruct (fold_left _ rest _) as [a b c d e] eqn:Ef. simpl in *.
      unfold sign_fixup in Hst. simpl in Hst. subst c. simpl in Hst.
      rewrite andb_false_r in Hst. simpl in Hst. now injection Hst. }
    rewrite Hnz in Hge, Hall.
    destruct (Hemit x (Hpass x Hx) Hst) as [Hf _]. rewrite Hf.
    split; [exact Hx|]. intros w [<-|Hw']; [exact Hge | now apply Hall].
  - intros Hm Hne. destruct passing as [|u rest] eqn:Ep; [congruence|].
    destruct (clobber_lower_fold (without_sign Ctrl) eq_refl rest u false Hm
                (fun x Hx => Hpn x (or_intror Hx)) (Hpn u (or_introl eq_refl)))
      as (Hw & Hm1 & Hin & Hge & Hall).
    destruct (Hmode u rest eq_refl) as (x & Hx & Hst).
    assert (Hnz : nz (fold_left (fun s0 x => clobber_step (without_sign Ctrl) x (mark s0)) rest
                                (mk_node u 1 1 false true)) = x).
    { rewrite Hgather in Hst.
      destruct (fold_left _ rest _) as [a b c d e] eqn:Ef. simpl in *.
      unfold sign_fixup in Hst. simpl in Hst. subst c. simpl in Hst.
      rewrite andb_false_r in Hst. simpl in Hst. now injection Hst. }
    rewrite Hnz in Hge, Hall.
    destruct (Hemit x (Hpass x Hx) Hst) as [Hf _]. rewrite Hf.
    split; [exact Hx|]. intros w [<-|Hw']; [exact Hge | now apply Hall].
Qed.

(** Two tiles that hold 5 and 7 at the node, both passing [+p]: under
    [-Cf+p] the node receives 7, the value of the second tile. *)
Lemma sign_filter_first_tile_only_seeds_witness :
  fst (blend_node Sample.env (Sample.clobber BLEND_FIRST 1) false 0 0 nan
                  [Sample.loaded_tile [5; 6; 7; 8]%float 1;
                   Sample.loaded_tile [7; 8; 9; 10]%float 1] 0 Sample.no_stats)
  = 7%float.
Proof.
  refine (proj1 (proj2 (proj2
            (sign_filter_first_tile_only_seeds Sample.env (Sample.clobber BLEND_FIRST 1)
               false 0 0 nan
               [Sample.loaded_tile [5; 6; 7; 8]%float 1;
                Sample.loaded_tile [7; 8; 9; 10]%float 1] 0 Sample.no_stats
               eq_refl (or_intror eq_refl) eq_refl eq_refl _ 5%float [7%float] eq_refl)))
            eq_refl 7%float [] eq_refl).
  intros v Hv. vm_compute in Hv. destruct Hv as [<-|[<-|[]]]; reflexivity.
Defined.

(** A clobber mode never blends (lines 1033-1053, 1069, 1072-1083): at a
    node for which some tile offers a value, [w] and [m] end as one
    whatever the mode and the sign modifier, so the value written is one
    of the values on offer, [-W] writes exactly 1 and [-Wz] again one of
    the values on offer; a node without an offer receives the no-data
    value. *)
Theorem clobber_writes_an_offer env Ctrl wrap_x nx_360 half no_data_f blend col s :
  C_active Ctrl = true ->
  let offers := node_offers wrap_x nx_360 blend col in
  let out := fst (blend_node env Ctrl wrap_x nx_360 half no_data_f blend col s) in
  (offers = [] -> out = no_data_f)
  /\ (offers <> [] ->
      (W_active Ctrl = true -> W_mode Ctrl = 0 -> out = 1%float)
      /\ ((forall v, In v offers -> is_grdfloat v) ->
          (W_active Ctrl = false -> Z_active Ctrl = false -> In out offers)
          /\ (W_active Ctrl = true -> W_mode Ctrl = 1 -> In out offers))).
Proof.
  intros Hc offers out. subst out. unfold blend_node. split.
  - intros E. unfold node_gather.
    rewrite (fold_node_clobber env Ctrl wrap_x nx_360 half col blend node_init Hc).
    fold offers. rewrite E. simpl fold_left.
    unfold sign_fixup. simpl. rewrite andb_false_r. reflexivity.
  - intros Hne.
    destruct (clobber_gather Ctrl env wrap_x nx_360 half blend col Hc Hne) as (Hm & Hw & Hin).
    fold offers in Hin.
    set (st := node_gather env Ctrl wrap_x nx_360 half blend col) in *.
    unfold node_emit, node_output, out_case. rewrite Hm, Hw. simpl negb. cbv iota.
    split; [|intros Hg; split].
    + intros HW HM. rewrite HW, HM. reflexivity.
    + intros HW HZ. rewrite HW, HZ. simpl fst.
      change (1 =? 0)%float with false. cbv iota.
      rewrite (IEEE.grdfloat_div_one (nz st) (Hg _ Hin)). exact Hin.
    + intros HW HM. rewrite HW, HM. simpl fst.
      rewrite IEEE.mul_one, (Hg _ Hin). exact Hin.
Qed.

(** Three tiles that hold NaN, 5 and -9 at the node, under [-Cu+p -W]:
    the weight written is 1. *)
Lemma clobber_writes_an_offer_witness :
  fst (blend_node Sample.env (mk_ctrl true BLEND_UPPER 1 true 0 false 1) false 0 0 nan
                  [Sample.loaded_tile [nan; 2; 3; 4]%float 1;
                   Sample.loaded_tile [5; 6; 7; 8]%float 1;
                   Sample.loaded_tile [-9; 10; 11; 12]%float 1] 0 Sample.no_stats)
  = 1%float.
Proof.
  refine (proj1 (proj2
            (clobber_writes_an_offer Sample.env (mk_ctrl true BLEND_UPPER 1 true 0 false 1)
               false 0 0 nan
               [Sample.loaded_tile [nan; 2; 3; 4]%float 1;
                Sample.loaded_tile [5; 6; 7; 8]%float 1;
                Sample.loaded_tile [-9; 10; 11; 12]%float 1] 0 Sample.no_stats eq_refl) _)
            eq_refl eq_refl).
  vm_compute. discriminate.
Defined.

(* ================================================================== *)
(** ** The extrema and the fill count of the output *)
(* ================================================================== *)

(** *** The running extrema *)

Lemma widened_refl s :
  is_nan (z_min s) = false -> is_nan (z_max s) = false -> widened s s.
Proof. intros H1 H2. split; now apply IEEE.leb_refl. Qed.

Lemma widened_trans s1 s2 s3 : widened s1 s2 -> widened s2 s3 -> widened s1 s3.
Proof. intros [a b] [c d]. split; eapply IEEE.leb_trans; eauto. Qed.

Lemma widened_numbers s s' :
  widened s s' -> is_nan (z_min s') = false /\ is_nan (z_max s') = false.
Proof.
  intros [a b]. split; [apply (IEEE.leb_not_nan _ _ a) | apply (IEEE.leb_not_nan _ _ b)].
Qed.

Lemma within_widened s s' v : within s v -> widened s s' -> within s' v.
Proof.
  intros H [a b] Hn. destruct (H Hn) as [c d]. split; eapply IEEE.leb_trans; eauto.
Qed.

Lemma count_node_widens v s :
  is_nan (z_min s) = false -> is_nan (z_max s) = false ->
  widened s (count_node v s) /\ within (count_node v s) v.
Proof.
  intros Hlo Hhi. unfold widened, within, count_node. simpl.
  split; [split|intros Hv; split].
  - destruct (v <? z_min s)%float eqn:E; [now apply IEEE.ltb_leb | now apply IEEE.leb_refl].
  - destruct (z_max s <? v)%float eqn:E; [now apply IEEE.ltb_leb | now apply IEEE.leb_refl].
  - destruct (v <? z_min s)%float eqn:E; [now apply IEEE.leb_refl|].
    now apply IEEE.leb_of_not_ltb.
  - destruct (z_max s <? v)%float eqn:E; [now apply IEEE.leb_refl|].
    now apply IEEE.leb_of_not_ltb.
Qed.

Section ExtremaFacts.

Variable env : Collaborators.
Variable Ctrl : GRDBLEND_CTRL.
Variable wrap_x : bool.
Variable nx_360 : Z.
Variable half : float.
Variable no_data_f : float.

Lemma blend_node_stats blend col s :
  is_nan (z_min s) = false -> is_nan (z_max s) = false ->
  let res := blend_node env Ctrl wrap_x nx_360 half no_data_f blend col s in
  widened s (snd res) /\ (fst res = no_data_f \/ within (snd res) (fst res)).
Proof.
  intros Hlo Hhi. unfold blend_node, node_emit. cbv zeta.
  destruct (negb _); simpl.
  - destruct (count_node_widens (node_output Ctrl (nz (node_gather env Ctrl wrap_x nx_360 half blend col))
                                   (nw (node_gather env Ctrl wrap_x nx_360 half blend col))) s Hlo Hhi)
      as [Hw Hin].
    split; [exact Hw | right; exact Hin].
  - split; [now apply widened_refl | now left].
Qed.

Lemma blend_columns_stats blend n : forall col s,
  is_nan (z_min s) = false -> is_nan (z_max s) = false ->
  let res := blend_columns env Ctrl wrap_x nx_360 half n col no_data_f blend s in
  widened s (snd res)
  /\ forall v, In v (fst res) -> v = no_data_f \/ within (snd res) v.
Proof.
  induction n as [|n IH]; intros col s Hlo Hhi; simpl.
  - split; [now apply widened_refl | intros v []].
  - pose proof (blend_node_stats blend col s Hlo Hhi) as [Hw Hv].
    destruct (blend_node env Ctrl wrap_x nx_360 half no_data_f blend col s) as [v s1].
    simpl in Hw, Hv.
    destruct (widened_numbers _ _ Hw) as [Hlo1 Hhi1].
    specialize (IH (col + 1) s1 Hlo1 Hhi1).
    destruct (blend_columns env Ctrl wrap_x nx_360 half n (col + 1) no_data_f blend s1)
      as [vs s2].
    simpl in *. destruct IH as [Hw2 Hvs].
    split; [eapply widened_trans; eauto|].
    intros x [<-|Hx]; [|now apply Hvs].
    destruct Hv as [Hv|Hv]; [now left | right; eapply within_widened; eauto].
Qed.

Lemma blend_rows_stats n_cols n : forall row blend s,
  is_nan (z_min s) = false -> is_nan (z_max s) = false ->
  let r := blend_rows env Ctrl wrap_x nx_360 half n row n_cols no_data_f blend s in
  widened s (run_stats r)
  /\ forall zrow v, In zrow (run_rows r) -> In v zrow ->
                    v = no_data_f \/ within (run_stats r) v.
Proof.
  induction n as [|n IH]; intros row blend s Hlo Hhi; simpl.
  - split; [now apply widened_refl | intros zrow v []].
  - destruct (grdblend_sync_input_rows env row blend half) as [[blend1 evs] status].
    destruct status; simpl;
      try (split; [now apply widened_refl | intros zrow v []]).
    pose proof (blend_columns_stats blend1 n_cols 0 s Hlo Hhi) as [Hw Hvs].
    destruct (blend_columns env Ctrl wrap_x nx_360 half n_cols 0 no_data_f blend1 s)
      as [zrow s1].
    simpl in Hw, Hvs. destruct (widened_numbers _ _ Hw) as [Hlo1 Hhi1].
    specialize (IH (row + 1) blend1 s1 Hlo1 Hhi1). simpl in IH. destruct IH as [Hw2 Hrest].
    simpl. split; [eapply widened_trans; eauto|].
    intros zr v [<-|Hzr] Hv; [|eapply Hrest; eauto].
    destruct (Hvs v Hv) as [H|H]; [now left | right; eapply within_widened; eauto].
Qed.

(** The fill count grows by at most one per node. *)
Lemma blend_node_fill blend col s :
  0 <= n_fill s ->
  0 <= n_fill (snd (blend_node env Ctrl wrap_x nx_360 half no_data_f blend col s))
    <= n_fill s + 1.
Proof.
  intros H. unfold blend_node, node_emit. destruct (negb _); simpl; [|lia].
  pose proof (Z.mod_pos_bound (n_fill s + 1) (2 ^ 64) ltac:(lia)).
  pose proof (Z.mod_le (n_fill s + 1) (2 ^ 64) ltac:(lia) ltac:(lia)). lia.
Qed.

Lemma blend_columns_fill blend n : forall col s,
  0 <= n_fill s ->
  0 <= n_fill (snd (blend_columns env Ctrl wrap_x nx_360 half n col no_data_f blend s))
    <= n_fill s + Z.of_nat n.
Proof.
  induction n as [|n IH]; intros col s H; simpl; [lia|].
  pose proof (blend_node_fill blend col s H) as H1.
  destruct (blend_node env Ctrl wrap_x nx_360 half no_data_f blend col s) as [v s1].
  simpl in H1. specialize (IH (col + 1) s1 (proj1 H1)).
  destruct (blend_columns env Ctrl wrap_x nx_360 half n (col + 1) no_data_f blend s1)
    as [vs s2].
  simpl in *. lia.
Qed.

Lemma blend_rows_fill n_cols n : forall row blend s,
  0 <= n_fill s ->
  0 <= n_fill (run_stats (blend_rows env Ctrl wrap_x nx_360 half n row n_cols no_data_f blend s))
    <= n_fill s + Z.of_nat n * Z.of_nat n_cols.
Proof.
  induction n as [|n IH]; intros row blend s H; simpl run_stats; [simpl; lia|].
  simpl blend_rows.
  destruct (grdblend_sync_input_rows env row blend half) as [[blend1 evs] status].
  destruct status; simpl run_stats; try nia.
  pose proof (blend_columns_fill blend1 n_cols 0 s H) as H1.
  destruct (blend_columns env Ctrl wrap_x nx_360 half n_cols 0 no_data_f blend1 s)
    as [zrow s1].
  simpl in H1. specialize (IH (row + 1) blend1 s1 (proj1 H1)). simpl run_stats. nia.
Qed.

End ExtremaFacts.

(** The extrema of the output header (lines 998 and 1085-1086) over a
    whole scan: every value written to an output row is either the
    no-data value of a node that no tile filled, or, when it is a number,
    lies between the final [z_min] and [z_max]; and the fill count never
    exceeds the number of nodes scanned. *)
Theorem extrema_enclose_filled_nodes env Ctrl wrap_x nx_360 half n_rows n_cols no_data_f blend :
  let r := blend_rows env Ctrl wrap_x nx_360 half n_rows 0 n_cols no_data_f blend stats_init in
  (z_min (run_stats r) <=? DBL_MAX)%float = true
  /\ (- DBL_MAX <=? z_max (run_stats r))%float = true
  /\ (forall zrow v, In zrow (run_rows r) -> In v zrow -> is_nan v = false ->
        v = no_data_f
        \/ (z_min (run_stats r) <=? v)%float = true /\ (v <=? z_max (run_stats r))%float = true)
  /\ 0 <= n_fill (run_stats r) <= Z.of_nat n_rows * Z.of_nat n_cols.
Proof.
  intros r.
  destruct (blend_rows_stats env Ctrl wrap_x nx_360 half no_data_f n_cols n_rows 0 blend
              stats_init eq_refl eq_refl) as [[Hlo Hhi] Hall].
  fold r in Hlo, Hhi, Hall.
  split; [exact Hlo|]. split; [exact Hhi|]. split.
  - intros zrow v Hz Hv Hn. destruct (Hall zrow v Hz Hv) as [H|H]; [now left | right; now apply H].
  - pose proof (blend_rows_fill env Ctrl wrap_x nx_360 half no_data_f n_cols n_rows 0 blend
                  stats_init ltac:(simpl; lia)) as H.
    fold r in H. simpl n_fill in H at 3. lia.
Qed.

(* ================================================================== *)
(** ** The column search of a periodic grid *)
(* ================================================================== *)

(** *** The column search of a periodic grid *)




(* ================================================================== *)
(** ** Weights inside the inner region *)
(* ================================================================== *)

Ltac break_sync :=
  repeat match goal with
         | |- context [if ?c then _ else _] => destruct c eqn:?
         | |- context [match GMT_Read_Data ?e ?f with _ => _ end] =>
             destruct (GMT_Read_Data e f) as [[? ?]|] eqn:?
         | |- context [let (_, _) := GMT_Get_Row ?e ?f ?r in _] =>
             destruct (GMT_Get_Row e f r) eqn:?
         | |- context [match GMT_Get_Row ?e ?f ?r with _ => _ end] =>
             destruct (GMT_Get_Row e f r) eqn:?
         end.

Lemma sync_tile_columns env row half k B :
  same_columns B (fst (fst (sync_tile env row half k B))).
Proof.
  unfold sync_tile, leave_tile, fetch_tile, get_row, same_columns.
  break_sync; simpl; repeat split.
Qed.

(** Inside the range, the row is marked as inside. *)
Lemma sync_tile_inside env row half k B :
  ignore B = false -> out_j0 B <= row <= out_j1 B ->
  let B' := fst (fst (sync_tile env row half k B)) in
  outside B' = false /\ ignore B' = false
  /\ wt_y B' = (taper_y env row half B * weight B)%float.
Proof.
  intros Hi [Hlo Hhi]. unfold sync_tile. rewrite Hi.
  replace ((row <? out_j0 B) || (row >? out_j1 B)) with false.
  2:{ symmetry. apply orb_false_iff. split; [now apply Z.ltb_ge|].
      rewrite Z.gtb_ltb. now apply Z.ltb_ge. }
  unfold fetch_tile, get_row. break_sync; simpl; repeat split; assumption.
Qed.

(** Both tapers are 1 strictly inside the inner region. *)
Lemma inner_tapers env row half k B pcol :
  ignore B = false -> out_j0 B <= row <= out_j1 B ->
  in_j0 B < row < in_j1 B -> in_i0 B < pcol < in_i1 B ->
  let B' := fst (fst (sync_tile env row half k B)) in
  taper_x env half pcol B' = 1%float /\ wt_y B' = weight B.
Proof.
  intros Hi Hrow [Hj0 Hj1] [Hi0 Hi1] B'.
  destruct (sync_tile_inside env row half k B Hi Hrow) as (_ & _ & Hwt). fold B' in Hwt.
  destruct (sync_tile_columns env row half k B) as (E0 & E1 & _). fold B' in E0, E1.
  split.
  - unfold taper_x. rewrite E0, E1. apply Z.leb_gt in Hi0. rewrite Hi0.
    rewrite Z.geb_leb. apply Z.leb_gt in Hi1. now rewrite Hi1.
  - rewrite Hwt. unfold taper_y. apply Z.leb_gt in Hj0. rewrite Hj0.
    rewrite Z.geb_leb. apply Z.leb_gt in Hj1. rewrite Hj1. apply IEEE.one_mul.
Qed.

(** Strictly inside the inner region (lines 597-603 and 1055-1062): at
    a row strictly between [in_j0] and [in_j1] and a column strictly
    between [in_i0] and [in_i1] both tapers are 1, so the weight that the
    tile brings to the node is its own weight, and exactly zero when the
    taper is inverted (negative weight in the blend file). *)
Theorem inner_region_weight env row half k B pcol :
  ignore B = false -> out_j0 B <= row <= out_j1 B ->
  in_j0 B < row < in_j1 B -> in_i0 B < pcol < in_i1 B ->
  let B' := fst (fst (sync_tile env row half k B)) in
  (invert B = false -> blend_weight env half pcol B' = weight B)
  /\ (invert B = true -> is_finite (weight B) = true ->
      blend_weight env half pcol B' = 0%float).
Proof.
  intros Hi Hrow Hj Hc B'.
  destruct (inner_tapers env row half k B pcol Hi Hrow Hj Hc) as [Htx Hwt].
  fold B' in Htx, Hwt.
  destruct (sync_tile_columns env row half k B) as (_ & _ & _ & _ & _ & _ & Ew & Ev & _).
  fold B' in Ew, Ev.
  unfold blend_weight. rewrite Htx, Hwt, Ev, Ew, IEEE.one_mul.
  split.
  - intros ->. reflexivity.
  - intros -> Hf. now apply IEEE.sub_diag_finite.
Qed.

(** The tile of the end-to-end example with its taper inverted (weight
    -1 in the blend file): at row 1, column 1 it weighs nothing. *)
Lemma inner_region_weight_witness :
  blend_weight Sample.env 0 1
    (fst (fst (sync_tile Sample.env 1 0 0
                 (Sample.ready Sample.out_header (Sample.whole_tile true (-1))))))
  = 0%float.
Proof.
  refine (proj2 (inner_region_weight Sample.env 1 0 0
                   (Sample.ready Sample.out_header (Sample.whole_tile true (-1))) 1
                   eq_refl _ _ _) eq_refl eq_refl);
    vm_compute; split; congruence.
Defined.

(** A single tile of weight 1 is reproduced (lines 1054-1076): at a node
    strictly inside its inner region, without [-C], [-W] and [-Z], the
    value written is the value of the tile, to the bit, unless that value
    is the negative zero (which the sum [0 + v] of line 1063 turns into
    the positive zero). *)
Theorem single_tile_is_reproduced env Ctrl nx_360 half row k B col no_data_f s :
  C_active Ctrl = false -> W_active Ctrl = false -> Z_active Ctrl = false ->
  ignore B = false -> invert B = false -> weight B = 1%float ->
  out_j0 B <= row <= out_j1 B -> in_j0 B < row < in_j1 B ->
  let B' := fst (fst (sync_tile env row half k B)) in
  forall wrap_x p v,
    tile_value wrap_x nx_360 col B' = Some (p, v) -> in_i0 B < p < in_i1 B ->
    is_grdfloat v -> Prim2SF v <> S754_zero true ->
    blend_node env Ctrl wrap_x nx_360 half no_data_f [B'] col s = (v, count_node v s).
Proof.
  intros Hc HW HZ Hi Hv Hw Hrow Hin B' wrap_x p v Htv Hp Hg Hnz.
  assert (Hplain : blend_weight env half p B' = 1%float).
  { destruct (inner_tapers env row half k B p Hi Hrow Hin Hp) as [Htx Hwt].
    fold B' in Htx, Hwt.
    destruct (sync_tile_columns env row half k B) as (_ & _ & _ & _ & _ & _ & _ & Ev & _).
    fold B' in Ev.
    unfold blend_weight. rewrite Htx, Hwt, Ev, Hv, Hw. apply IEEE.one_mul. }
  unfold blend_node, node_gather. simpl fold_left. unfold node_step.
  rewrite Htv, Hc. unfold blend_step. simpl nz. simpl nw. simpl nm.
  rewrite Hplain, IEEE.one_mul, Hg, (IEEE.zero_add v Hnz), Hg.
  change (0 + 1)%float with 1%float. change (0 + 1) with 1.
  unfold sign_fixup. simpl nm. rewrite andb_false_r. simpl.
  exact (node_emit_picked Ctrl no_data_f (mk_node v 1 1 true true) s
           eq_refl eq_refl HW HZ Hg).
Qed.

(** The tile of the end-to-end example, held in memory: at row 1,
    column 1 the node receives the 6 of the tile. *)
Lemma single_tile_is_reproduced_witness :
  blend_node Sample.env Sample.plain false 0 0 nan
    [fst (fst (sync_tile Sample.env 1 0 0
                 (Sample.ready Sample.out_header (Sample.whole_tile true 1))))]
    1 Sample.no_stats
  = (6%float, count_node 6 Sample.no_stats).
Proof.
  refine (single_tile_is_reproduced Sample.env Sample.plain 0 0 1 0
            (Sample.ready Sample.out_header (Sample.whole_tile true 1)) 1 nan Sample.no_stats
            eq_refl eq_refl eq_refl eq_refl eq_refl eq_refl _ _ false 1 6%float eq_refl _
            eq_refl _).
  - vm_compute. split; congruence.
  - vm_compute. split; congruence.
  - vm_compute. split; congruence.
  - vm_compute. congruence.
Defined.

(* ================================================================== *)
(** ** The file handle of a tile, from its opening to its release *)
(* ================================================================== *)

Section HistoryFacts.

Variable env : Collaborators.
Hypothesis reader_ok : reader_succeeds env.
Variable half : float.
Variable k : nat.

(** One row of a tile read from a file. *)
Lemma sync_tile_file row B :
  ignore B = false -> memory B = false ->
  let res := sync_tile env row half k B in
  let inside := (out_j0 B <=? row) && (row <=? out_j1 B) in
  snd (fst res)
  = (if inside
     then (if open B then [] else tile_opening k B) ++ [ev_get_row k]
     else if open B then release_in_scan k B else [])
  /\ open (fst (fst res)) = inside.
Proof.
  destruct reader_ok as (Hd & Hr & Hs).
  intros Hi Hm. unfold sync_tile. rewrite Hi. cbv zeta.
  rewrite Z.gtb_ltb.
  destruct (row <? out_j0 B) eqn:E0; simpl orb.
  - replace (out_j0 B <=? row) with false by (symmetry; apply Z.leb_gt; now apply Z.ltb_lt).
    simpl andb. cbv iota. unfold leave_tile. simpl open.
    destruct (open B) eqn:Eo; [|split; [reflexivity | exact Eo]].
    simpl file. rewrite Hd. split; reflexivity.
  - replace (out_j0 B <=? row) with true by (symmetry; apply Z.leb_le; now apply Z.ltb_ge).
    simpl andb. rewrite Z.leb_antisym.
    destruct (out_j1 B <? row) eqn:E1; simpl negb; cbv iota.
    + unfold leave_tile. simpl open.
      destruct (open B) eqn:Eo; [|split; [reflexivity | exact Eo]].
      simpl file. rewrite Hd. split; reflexivity.
    + unfold fetch_tile. simpl memory. rewrite Hm. simpl open.
      destruct (open B) eqn:Eo.
      * unfold get_row. destruct (GMT_Get_Row env _ _). simpl. split; [reflexivity | exact Eo].
      * simpl file. destruct (GMT_Read_Data env (file B)) as [[t rbr]|] eqn:Er;
          [|now apply Hr in Er].
        simpl skip. unfold tile_opening.
        destruct (skip B =? 0); simpl negb; cbv iota.
        -- unfold get_row. destruct (GMT_Get_Row env _ _). simpl. split; reflexivity.
        -- rewrite Hs. unfold get_row. destruct (GMT_Get_Row env _ _). simpl.
           split; reflexivity.
Qed.

(** A tile that is ignored, or held in memory and closed, causes no
    event and stays closed. *)
Lemma sync_tile_quiet row B :
  ignore B = true \/ (memory B = true /\ open B = false) ->
  snd (fst (sync_tile env row half k B)) = []
  /\ open (fst (fst (sync_tile env row half k B))) = open B.
Proof.
  intros H. unfold sync_tile.
  destruct (ignore B) eqn:Hi; [split; reflexivity|].
  destruct H as [H|[Hm Ho]]; [discriminate|].
  destruct (_ || _).
  - unfold leave_tile. simpl open. rewrite Ho. simpl. split; [reflexivity | now rewrite Ho].
  - unfold fetch_tile. simpl memory. rewrite Hm. simpl. split; reflexivity.
Qed.

Lemma tile_history_quiet n : forall row B,
  ignore B = true \/ (memory B = true /\ open B = false) ->
  snd (tile_history env half k n row B) = []
  /\ open (fst (tile_history env half k n row B)) = open B
  /\ same_static B (fst (tile_history env half k n row B)).
Proof.
  induction n as [|n IH]; intros row B H; simpl.
  - split; [reflexivity|]. split; [reflexivity | apply same_static_refl].
  - pose proof (sync_tile_quiet row B H) as [He Ho].
    pose proof (sync_tile_static env row half k B) as Hst.
    destruct (sync_tile env row half k B) as [[B1 evs] ret]. simpl in He, Ho, Hst. subst evs.
    assert (H1 : ignore B1 = true \/ (memory B1 = true /\ open B1 = false)).
    { destruct Hst as (Ei & _ & _ & _ & _ & Em).
      destruct H as [H|[Hm Hop]]; [left; congruence | right; split; congruence]. }
    destruct (IH (row + 1) B1 H1) as (He' & Ho' & Hst').
    destruct (tile_history env half k n (row + 1) B1) as [B2 evs']. simpl in *.
    subst evs'. split; [reflexivity|]. split; [congruence|].
    eapply same_static_trans; eauto.
Qed.

Lemma same_life_events B B' :
  same_life B B' ->
  tile_opening k B' = tile_opening k B /\ release_in_scan k B' = release_in_scan k B
  /\ release_at_end k B' = release_at_end k B.
Proof.
  intros [(Ei & E0 & E1 & Ed & Ef & Em) Es].
  unfold tile_opening, release_in_scan, release_at_end. rewrite Es, Ed, Ef. auto.
Qed.

Lemma sync_tile_life row B : same_life B (fst (fst (sync_tile env row half k B))).
Proof.
  split; [apply sync_tile_static|].
  now destruct (sync_tile_columns env row half k B) as (_ & _ & _ & _ & _ & _ & _ & _ & Es).
Qed.

Lemma same_life_trans B1 B2 B3 : same_life B1 B2 -> same_life B2 B3 -> same_life B1 B3.
Proof.
  intros [a b] [c d]. split; [eapply same_static_trans; eauto | congruence].
Qed.

(** South of its range a closed tile stays as it is. *)
Lemma tile_history_past n : forall row B,
  ignore B = false -> memory B = false -> open B = false -> out_j1 B < row ->
  snd (tile_history env half k n row B) = []
  /\ open (fst (tile_history env half k n row B)) = false
  /\ same_life B (fst (tile_history env half k n row B)).
Proof.
  induction n as [|n IH]; intros row B Hi Hm Ho Hr; simpl.
  - split; [reflexivity|]. split; [exact Ho|]. split; [apply same_static_refl | reflexivity].
  - pose proof (sync_tile_file row B Hi Hm) as [He Hop]. cbv zeta in He, Hop.
    pose proof (sync_tile_life row B) as Hl.
    destruct (sync_tile env row half k B) as [[B1 evs] ret]. simpl in He, Hop, Hl.
    replace (row <=? out_j1 B) with false in * by (symmetry; apply Z.leb_gt; lia).
    rewrite andb_false_r, Ho in *. subst evs.
    destruct Hl as [Hst Hsk]. pose proof Hst as (Ei & E0 & E1 & Ed & Ef & Em).
    destruct (IH (row + 1) B1) as (He' & Ho' & Hl'); try congruence; try lia.
    destruct (tile_history env half k n (row + 1) B1) as [B2 evs']. simpl in *.
    subst evs'. split; [reflexivity|]. split; [exact Ho'|].
    eapply same_life_trans; [split; eassumption | exact Hl'].
Qed.

(** An open tile is read row after row and released at the first row
    south of its range. *)
Lemma tile_history_open n : forall row B,
  ignore B = false -> memory B = false -> open B = true ->
  out_j0 B <= row <= out_j1 B + 1 ->
  let left := out_j1 B + 1 - row in
  let res := tile_history env half k n row B in
  snd res = repeat (ev_get_row k) (Z.to_nat (Z.min (Z.of_nat n) left))
            ++ (if left <? Z.of_nat n then release_in_scan k B else [])
  /\ open (fst res) = negb (left <? Z.of_nat n)
  /\ same_life B (fst res).
Proof.
  induction n as [|n IH]; intros row B Hi Hm Ho Hr; cbv zeta.
  - simpl tile_history. simpl snd. simpl fst.
    replace (out_j1 B + 1 - row <? Z.of_nat 0) with false by (symmetry; apply Z.ltb_ge; simpl; lia).
    replace (Z.min (Z.of_nat 0) (out_j1 B + 1 - row)) with 0 by (simpl; lia).
    simpl. split; [reflexivity|]. split; [exact Ho|].
    split; [apply same_static_refl | reflexivity].
  - simpl tile_history.
    pose proof (sync_tile_file row B Hi Hm) as [He Hop]. cbv zeta in He, Hop.
    pose proof (sync_tile_life row B) as Hl.
    destruct (sync_tile env row half k B) as [[B1 evs] ret]. simpl in He, Hop, Hl.
    pose proof Hl as [Hst Hsk]. pose proof Hst as (Ei & E0 & E1 & Ed & Ef & Em).
    destruct (same_life_events B B1 Hl) as (_ & Erel & _).
    replace (out_j0 B <=? row) with true in * by (symmetry; apply Z.leb_le; lia).
    rewrite Ho in *. simpl andb in *.
    destruct (row <=? out_j1 B) eqn:Ein.
    + apply Z.leb_le in Ein. simpl in He. subst evs.
      destruct (IH (row + 1) B1) as (He' & Ho' & Hl'); try congruence; try lia.
      destruct (tile_history env half k n (row + 1) B1) as [B2 evs']. simpl in He', Ho', Hl'.
      simpl snd. simpl fst. rewrite He', Ho', E1, Erel.
      replace (out_j1 B + 1 - (row + 1) <? Z.of_nat n)
        with (out_j1 B + 1 - row <? Z.of_nat (S n)).
      2:{ rewrite Nat2Z.inj_succ.
          destruct (out_j1 B + 1 - row <? Z.succ (Z.of_nat n)) eqn:E;
            [apply Z.ltb_lt in E; symmetry; apply Z.ltb_lt; lia
            |apply Z.ltb_ge in E; symmetry; apply Z.ltb_ge; lia]. }
      split; [|split; [reflexivity | eapply same_life_trans; eauto]].
      replace (Z.to_nat (Z.min (Z.of_nat (S n)) (out_j1 B + 1 - row)))
        with (S (Z.to_nat (Z.min (Z.of_nat n) (out_j1 B + 1 - (row + 1))))) by lia.
      reflexivity.
    + apply Z.leb_gt in Ein. assert (row = out_j1 B + 1) by lia. subst evs.
      destruct (tile_history_past n (row + 1) B1) as (He' & Ho' & Hl');
        try congruence; try lia.
      destruct (tile_history env half k n (row + 1) B1) as [B2 evs']. simpl in He', Ho', Hl'.
      simpl snd. simpl fst. subst evs'. rewrite Ho', app_nil_r.
      replace (out_j1 B + 1 - row <? Z.of_nat (S n)) with true by (symmetry; apply Z.ltb_lt; lia).
      replace (Z.min (Z.of_nat (S n)) (out_j1 B + 1 - row)) with 0 by lia.
      simpl. split; [reflexivity|]. split; [reflexivity|].
      eapply same_life_trans; eauto.
Qed.

End HistoryFacts.

Section HistoryFacts2.

Variable env : Collaborators.
Hypothesis reader_ok : reader_succeeds env.
Variable half : float.
Variable k : nat.

(** A tile that was never opened waits for the first row of its range,
    is opened there, read row after row and released at the first row
    south of its range. *)
Lemma tile_history_closed n : forall row B,
  ignore B = false -> memory B = false -> open B = false ->
  let first := Z.max row (out_j0 B) in
  let last := Z.min (row + Z.of_nat n - 1) (out_j1 B) in
  let res := tile_history env half k n row B in
  snd res = (if last <? first then []
             else tile_opening k B
                  ++ repeat (ev_get_row k) (Z.to_nat (last - first + 1))
                  ++ (if out_j1 B <? row + Z.of_nat n - 1 then release_in_scan k B else []))
  /\ open (fst res) = negb (last <? first) && negb (out_j1 B <? row + Z.of_nat n - 1)
  /\ same_life B (fst res).
Proof.
  induction n as [|n IH]; intros row B Hi Hm Ho; cbv zeta.
  - simpl tile_history. simpl snd. simpl fst.
    replace (Z.min (row + Z.of_nat 0 - 1) (out_j1 B) <? Z.max row (out_j0 B)) with true
      by (symmetry; apply Z.ltb_lt; simpl; lia).
    simpl. split; [reflexivity|]. split; [exact Ho|].
    split; [apply same_static_refl | reflexivity].
  - simpl tile_history.
    pose proof (sync_tile_file env reader_ok half k row B Hi Hm) as [He Hop].
    cbv zeta in He, Hop.
    pose proof (sync_tile_life env half k row B) as Hl.
    destruct (sync_tile env row half k B) as [[B1 evs] ret]. simpl in He, Hop, Hl.
    pose proof Hl as [Hst Hsk]. pose proof Hst as (Ei & E0 & E1 & Ed & Ef & Em).
    destruct (same_life_events k B B1 Hl) as (Eop & Erel & _).
    rewrite Ho in *. rewrite Nat2Z.inj_succ.
    destruct (out_j0 B <=? row) eqn:Elo; simpl andb in *.
    + apply Z.leb_le in Elo. destruct (row <=? out_j1 B) eqn:Ehi.
      * (* the first visit *)
        apply Z.leb_le in Ehi. subst evs.
        destruct (tile_history_open env reader_ok half k n (row + 1) B1)
          as (He' & Ho' & Hl'); try congruence; try lia.
        destruct (tile_history env half k n (row + 1) B1) as [B2 evs'].
        simpl in He', Ho', Hl'. simpl snd. simpl fst.
        rewrite He', Ho', E1, Erel.
        replace (Z.min (row + Z.succ (Z.of_nat n) - 1) (out_j1 B) <? Z.max row (out_j0 B))
          with false by (symmetry; apply Z.ltb_ge; lia).
        replace (out_j1 B <? row + Z.succ (Z.of_nat n) - 1)
          with (out_j1 B + 1 - (row + 1) <? Z.of_nat n).
        2:{ destruct (out_j1 B + 1 - (row + 1) <? Z.of_nat n) eqn:E;
              [apply Z.ltb_lt in E; symmetry; apply Z.ltb_lt; lia
              |apply Z.ltb_ge in E; symmetry; apply Z.ltb_ge; lia]. }
        split; [|split; [reflexivity | eapply same_life_trans; eauto]].
        rewrite <- app_assoc. f_equal.
        replace (Z.to_nat (Z.min (row + Z.succ (Z.of_nat n) - 1) (out_j1 B)
                           - Z.max row (out_j0 B) + 1))
          with (S (Z.to_nat (Z.min (Z.of_nat n) (out_j1 B + 1 - (row + 1))))) by lia.
        reflexivity.
      * (* south of the range *)
        apply Z.leb_gt in Ehi. subst evs.
        destruct (tile_history_past env reader_ok half k n (row + 1) B1) as (He' & Ho' & Hl');
          try congruence; try lia.
        destruct (tile_history env half k n (row + 1) B1) as [B2 evs'].
        simpl in He', Ho', Hl'. simpl snd. simpl fst. subst evs'. rewrite Ho'.
        replace (Z.min (row + Z.succ (Z.of_nat n) - 1) (out_j1 B) <? Z.max row (out_j0 B))
          with true by (symmetry; apply Z.ltb_lt; lia).
        simpl. split; [reflexivity|]. split; [reflexivity|].
        eapply same_life_trans; eauto.
    + (* north of the range *)
      apply Z.leb_gt in Elo. subst evs.
      destruct (IH (row + 1) B1) as (He' & Ho' & Hl'); try congruence.
      destruct (tile_history env half k n (row + 1) B1) as [B2 evs'].
      cbn [fst snd] in He', Ho', Hl'. cbn [fst snd app].
      rewrite He', Ho', E0, E1, Eop, Erel.
      replace (Z.max (row + 1) (out_j0 B)) with (Z.max row (out_j0 B)) by lia.
      replace (row + 1 + Z.of_nat n - 1) with (row + Z.succ (Z.of_nat n) - 1) by lia.
      split; [reflexivity|]. split; [reflexivity|].
      eapply same_life_trans; eauto.
Qed.

End HistoryFacts2.

(** *** From the blend array to one tile *)

Lemma event_guard_tile row k B e : event_guard row k B e -> ev_tile e = k.
Proof.
  intros [_ H]. destruct e; simpl; destruct H as [H _]; exact H.
Qed.

Lemma tile_events_app k evs evs' :
  tile_events k (evs ++ evs') = tile_events k evs ++ tile_events k evs'.
Proof. apply filter_app. Qed.

Lemma tile_events_own k j evs :
  (forall e, In e evs -> ev_tile e = j) ->
  tile_events k evs = if Nat.eqb j k then evs else [].
Proof.
  intros H. induction evs as [|e evs IH]; [now destruct (Nat.eqb j k)|].
  unfold tile_events in *. simpl. rewrite (H e (or_introl eq_refl)).
  rewrite IH by (intros x Hx; apply H; now right).
  destruct (Nat.eqb j k); reflexivity.
Qed.

Section Projection.

Variable env : Collaborators.
Hypothesis reader_ok : reader_succeeds env.
Variable half : float.
Variable k : nat.

Lemma sync_from_tile_events row Bs : forall k0,
  tile_events k (snd (fst (sync_from env k0 row half Bs)))
  = if (k0 <=? k)%nat
    then match nth_error Bs (k - k0) with
         | Some B => snd (fst (sync_tile env row half k B))
         | None => []
         end
    else [].
Proof.
  induction Bs as [|B rest IH]; intros k0; simpl.
  - destruct (k0 <=? k)%nat; [now destruct (k - k0)%nat | reflexivity].
  - pose proof (sync_tile_completes env row half k0 B reader_ok) as Hret.
    pose proof (sync_tile_guarded env row half k0 B) as Hg.
    destruct (sync_tile env row half k0 B) as [[B' evs] ret] eqn:Est. simpl in Hret, Hg.
    subst ret. specialize (IH (S k0)).
    destruct (sync_from env (S k0) row half rest) as [[rest' evs'] st].
    cbn [fst snd] in *.
    rewrite tile_events_app, IH.
    rewrite (tile_events_own k k0 evs) by (intros e He; eapply event_guard_tile; eauto).
    destruct (Nat.eqb k0 k) eqn:E.
    + apply Nat.eqb_eq in E. subst k0.
      rewrite Nat.leb_refl, Nat.sub_diag. simpl nth_error.
      replace (S k <=? k)%nat with false by (symmetry; apply Nat.leb_gt; lia).
      rewrite Est. cbn [fst snd]. now rewrite app_nil_r.
    + apply Nat.eqb_neq in E. cbn [app].
      destruct (k0 <=? k)%nat eqn:E1.
      * apply Nat.leb_le in E1.
        replace (S k0 <=? k)%nat with true by (symmetry; apply Nat.leb_le; lia).
        replace (k - k0)%nat with (S (k - S k0)) by lia. reflexivity.
      * apply Nat.leb_gt in E1.
        replace (S k0 <=? k)%nat with false by (symmetry; apply Nat.leb_gt; lia).
        reflexivity.
Qed.

(** With a reader that succeeds the scan runs to its end, and the
    events of one tile are those of its own history. *)
Lemma blend_rows_project Ctrl wrap_x nx_360 n_cols no_data_f n : forall row blend s B,
  nth_error blend k = Some B ->
  let r := blend_rows env Ctrl wrap_x nx_360 half n row n_cols no_data_f blend s in
  run_status r = GMT_NOERROR
  /\ nth_error (run_tiles r) k = Some (fst (tile_history env half k n row B))
  /\ tile_events k (map snd (run_trace r)) = snd (tile_history env half k n row B).
Proof.
  induction n as [|n IH]; intros row blend s B Hk; simpl.
  - auto.
  - unfold grdblend_sync_input_rows.
    destruct (sync_from_completes env row half reader_ok blend 0) as [Hst Hall].
    destruct (Hall k B Hk) as [Hn _]. simpl in Hn.
    pose proof (sync_from_tile_events row blend 0%nat) as Hev.
    simpl in Hev. rewrite Nat.sub_0_r, Hk in Hev.
    destruct (sync_from env 0 row half blend) as [[blend1 evs] status].
    simpl in Hst, Hn, Hev. subst status.
    destruct (blend_columns env Ctrl wrap_x nx_360 half n_cols 0 no_data_f blend1 s)
      as [zrow s1].
    destruct (sync_tile env row half k B) as [[B1 evs1] ret]. simpl in Hn, Hev.
    specialize (IH (row + 1) blend1 s1 B1 Hn). simpl in IH.
    destruct IH as (Hs & Ht & He).
    destruct (tile_history env half k n (row + 1) B1) as [B2 evs2]. simpl in *.
    split; [exact Hs|]. split; [exact Ht|].
    rewrite map_app, map_map. simpl. rewrite map_id, tile_events_app, Hev, He.
    reflexivity.
Qed.

Lemma release_tile_own j B e : In e (fst (release_tile env j B)) -> ev_tile e = j.
Proof.
  unfold release_tile.
  destruct (open B); simpl orb; cbv iota.
  - destruct (GMT_Destroy_Data env (file B)), (delete B); simpl;
      intuition (subst; reflexivity).
  - destruct (memory B); simpl; intuition (subst; reflexivity).
Qed.

Lemma release_from_project Bs : forall k0,
  snd (release_from env k0 Bs) = None
  /\ tile_events k (fst (release_from env k0 Bs))
     = if (k0 <=? k)%nat
       then match nth_error Bs (k - k0) with
            | Some B => fst (release_tile env k B)
            | None => []
            end
       else [].
Proof.
  destruct reader_ok as (Hd & _).
  induction Bs as [|B rest IH]; intros k0; simpl.
  - split; [reflexivity|]. destruct (k0 <=? k)%nat; [now destruct (k - k0)%nat | reflexivity].
  - pose proof (release_tile_own k0 B) as Hown.
    assert (Hf : snd (release_tile env k0 B) = false).
    { unfold release_tile. destruct (open B); [now rewrite Hd | reflexivity]. }
    destruct (release_tile env k0 B) as [evs failed] eqn:Er. simpl in Hf, Hown. subst failed.
    destruct (IH (S k0)) as [Hn He].
    destruct (release_from env (S k0) rest) as [evs' r]. cbn [fst snd] in *.
    split; [exact Hn|].
    rewrite tile_events_app, He, (tile_events_own k k0 evs Hown).
    destruct (Nat.eqb k0 k) eqn:E.
    + apply Nat.eqb_eq in E. subst k0.
      rewrite Nat.leb_refl, Nat.sub_diag. simpl nth_error.
      replace (S k <=? k)%nat with false by (symmetry; apply Nat.leb_gt; lia).
      rewrite Er. cbn [fst snd]. now rewrite app_nil_r.
    + apply Nat.eqb_neq in E. cbn [app].
      destruct (k0 <=? k)%nat eqn:E1.
      * apply Nat.leb_le in E1.
        replace (S k0 <=? k)%nat with true by (symmetry; apply Nat.leb_le; lia).
        replace (k - k0)%nat with (S (k - S k0)) by lia. reflexivity.
      * apply Nat.leb_gt in E1.
        replace (S k0 <=? k)%nat with false by (symmetry; apply Nat.leb_gt; lia).
        reflexivity.
Qed.

End Projection.

Lemma sample_reader_succeeds : reader_succeeds Sample.env.
Proof. split; [|split]; intros; [reflexivity | discriminate | reflexivity]. Qed.

(** The handle of a tile over the whole job (lines 581-635 and
    1124-1135), with a grid reader that succeeds and a tile that starts
    closed.  A tile held in memory is never opened and only has its buffers
    freed at the end.  A tile read from a file that is ignored, or whose
    rows [out_j0, out_j1] miss the rows of the output, is never touched:
    nothing is opened, freed or removed.  Any other tile is opened once,
    at the first output row of its range, read once per row of the range,
    and released once: during the scan when its range ends before the
    last output row, after the scan otherwise; its file is removed at that
    point exactly when it is flagged for deletion. *)
Theorem tile_handle_history env Ctrl wrap_x nx_360 half n_rows n_cols no_data_f blend s k B :
  reader_succeeds env -> nth_error blend k = Some B -> open B = false ->
  let job := scan_and_release env Ctrl wrap_x nx_360 half n_rows n_cols no_data_f true
                              blend s in
  let evs := tile_events k (job_events job) in
  let first := Z.max 0 (out_j0 B) in
  let last := Z.min (Z.of_nat n_rows - 1) (out_j1 B) in
  job_end_of job = job_completed
  /\ (memory B = true -> evs = [ev_free_z k; ev_free_RbR k])
  /\ (memory B = false -> ignore B = true \/ last < first -> evs = [])
  /\ (memory B = false -> ignore B = false -> first <= last ->
      evs = tile_opening k B
            ++ repeat (ev_get_row k) (Z.to_nat (last - first + 1))
            ++ (if out_j1 B <? Z.of_nat n_rows - 1 then release_in_scan k B
                else release_at_end k B)).
Proof.
  intros Hok Hk Ho job evs first last. subst evs job.
  unfold scan_and_release, job_events.
  destruct (blend_rows_project env Hok half k Ctrl wrap_x nx_360 n_cols no_data_f n_rows
              0 blend s B Hk) as (Hst & Hfin & Hev).
  set (r := blend_rows env Ctrl wrap_x nx_360 half n_rows 0 n_cols no_data_f blend s) in *.
  rewrite Hst.
  destruct (release_from_project env Hok k (run_tiles r) 0%nat) as [Hnone Hrel].
  simpl in Hrel. rewrite Nat.sub_0_r, Hfin in Hrel.
  destruct (release_from env 0 (run_tiles r)) as [revs failed]. simpl in Hnone, Hrel.
  subst failed. simpl job_end_of. simpl job_run. simpl job_release.
  rewrite tile_events_app, Hev, Hrel. clear Hev Hrel Hfin.
  split; [reflexivity|].
  assert (Hquiet : ignore B = true \/ (memory B = true /\ open B = false) ->
            snd (tile_history env half k n_rows 0 B)
            ++ fst (release_tile env k (fst (tile_history env half k n_rows 0 B)))
            = if memory B then [ev_free_z k; ev_free_RbR k] else []).
  { intros H. destruct (tile_history_quiet env half k n_rows 0 B H) as (He & Hop & Hs).
    destruct Hs as (_ & _ & _ & _ & _ & Em).
    rewrite He. unfold release_tile. rewrite Hop, Ho, Em. simpl. reflexivity. }
  split; [|split].
  - intros Hm. rewrite Hquiet by (right; auto). now rewrite Hm.
  - intros Hm [Hi | Hlt].
    + rewrite Hquiet by (left; exact Hi). now rewrite Hm.
    + destruct (ignore B) eqn:Hi.
      * rewrite Hquiet by (left; reflexivity). now rewrite Hm.
      * destruct (tile_history_closed env Hok half k n_rows 0 B Hi Hm Ho) as (He & Hop & Hs).
        cbv zeta in He, Hop. simpl Z.add in He, Hop. fold first last in He, Hop.
        replace (last <? first) with true in * by (symmetry; now apply Z.ltb_lt).
        simpl in Hop. destruct Hs as [(_ & _ & _ & _ & _ & Em) _].
        rewrite He. unfold release_tile. rewrite Hop, Em, Hm. reflexivity.
  - intros Hm Hi Hle.
    destruct (tile_history_closed env Hok half k n_rows 0 B Hi Hm Ho) as (He & Hop & Hs).
    cbv zeta in He, Hop. simpl Z.add in He, Hop. fold first last in He, Hop.
    replace (last <? first) with false in * by (symmetry; apply Z.ltb_ge; lia).
    simpl negb in Hop. simpl andb in Hop.
    destruct (same_life_events k B _ Hs) as (_ & _ & Eend).
    destruct Hs as [(_ & _ & _ & Ed & Ef & Em) _].
    rewrite He, <- !app_assoc. f_equal. f_equal.
    destruct (out_j1 B <? Z.of_nat n_rows - 1); simpl negb in Hop.
    + unfold release_tile. rewrite Hop, Em, Hm. simpl. now rewrite app_nil_r.
    + rewrite <- Eend. unfold release_tile, release_at_end.
      rewrite Hop. simpl orb. cbv iota.
      rewrite (proj1 Hok). reflexivity.
Qed.

(** The strip of the two northern rows, read from a file, in the scan of
    the four rows of the end-to-end example: opened at row 0, read at
    rows 0 and 1, released at row 2. *)
Lemma tile_handle_history_witness :
  tile_events 0
    (job_events (scan_and_release Sample.env Sample.plain false 0 0 4 4 nan true
                   (Sample.set_up Sample.out_header [Sample.strip_tile]) Sample.no_stats))
  = [ev_open 0; ev_get_row 0; ev_get_row 0;
     ev_close 0; ev_destroy 0; ev_free_z 0; ev_free_RbR 0].
Proof.
  refine (proj2 (proj2 (proj2
            (tile_handle_history Sample.env Sample.plain false 0 0 4 4 nan
               (Sample.set_up Sample.out_header [Sample.strip_tile]) Sample.no_stats 0
               (Sample.ready Sample.out_header Sample.strip_tile)
               sample_reader_succeeds eq_refl eq_refl))) eq_refl eq_refl _).
  vm_compute. congruence.
Defined.

(* ================================================================== *)
(** ** The claim about the life of a tile *)
(* ================================================================== *)




Section RowByRow.

Variable env : Collaborators.
Hypothesis reader_ok : reader_succeeds env.
Variable half : float.
Variable k : nat.



End RowByRow.




(* ================================================================== *)
(** ** Early returns of the synchroniser *)
(* ================================================================== *)

Section SyncReturns.

Variable env : Collaborators.

Lemma sync_from_length row half Bs : forall k0,
  length (fst (fst (sync_from env k0 row half Bs))) = length Bs.
Proof.
  intros k0. pose proof (sync_from_static env row half Bs k0) as H.
  symmetry. eapply Forall2_length; eauto.
Qed.

(** The first tile whose visit ends in [return]: the tiles before it are
    updated, the tiles after it are not looked at. *)
Lemma sync_from_stops row half Bs : forall k0 k B s0,
  nth_error Bs k = Some B ->
  (forall j Bj, (j < k)%nat -> nth_error Bs j = Some Bj ->
                snd (sync_tile env row half (k0 + j) Bj) = None) ->
  snd (sync_tile env row half (k0 + k) B) = Some s0 ->
  let r := sync_from env k0 row half Bs in
  snd r = s0
  /\ nth_error (fst (fst r)) k = Some (fst (fst (sync_tile env row half (k0 + k) B)))
  /\ skipn (S k) (fst (fst r)) = skipn (S k) Bs
  /\ (forall j Bj, (j < k)%nat -> nth_error Bs j = Some Bj ->
        nth_error (fst (fst r)) j = Some (fst (fst (sync_tile env row half (k0 + j) Bj))))
  /\ (forall e, In e (snd (fst r)) -> (ev_tile e <= k0 + k)%nat).
Proof.
  induction Bs as [|B0 rest IH]; intros k0 k B s0 Hk Hbefore Hret; [destruct k; discriminate|].
  destruct k as [|k]; simpl in Hk.
  - injection Hk as ->. rewrite Nat.add_0_r in *. simpl.
    pose proof (sync_tile_guarded env row half k0 B) as Hg.
    destruct (sync_tile env row half k0 B) as [[B' evs] ret]. simpl in Hret, Hg. subst ret.
    simpl. split; [reflexivity|]. split; [reflexivity|]. split; [reflexivity|].
    split; [intros j Bj Hj; lia|].
    intros e He. rewrite (event_guard_tile _ _ _ _ (Hg e He)). lia.
  - simpl.
    pose proof (Hbefore 0%nat B0 ltac:(lia) eq_refl) as H0. rewrite Nat.add_0_r in H0.
    pose proof (sync_tile_guarded env row half k0 B0) as Hg.
    destruct (sync_tile env row half k0 B0) as [[B' evs] ret] eqn:E0. simpl in H0, Hg.
    subst ret.
    destruct (IH (S k0) k B s0 Hk) as (Hs & Hn & Hskip & Hpre & Hev).
    { intros j Bj Hj Hnj. replace (S k0 + j)%nat with (k0 + S j)%nat by lia.
      apply Hbefore; [lia | exact Hnj]. }
    { replace (S k0 + k)%nat with (k0 + S k)%nat by lia. exact Hret. }
    destruct (sync_from env (S k0) row half rest) as [[rest' evs'] st]. simpl in *.
    replace (S (k0 + k)) with (k0 + S k)%nat in * by lia.
    split; [exact Hs|]. split; [exact Hn|]. split; [exact Hskip|]. split.
    + intros [|j] Bj Hj Hnj; simpl in *.
      * injection Hnj as <-. rewrite Nat.add_0_r, E0. reflexivity.
      * replace (k0 + S j)%nat with (S (k0 + j)) by lia. apply Hpre; [lia | exact Hnj].
    + intros e He. apply in_app_or in He. destruct He as [He|He].
      * rewrite (event_guard_tile _ _ _ _ (Hg e He)). lia.
      * now apply Hev.
Qed.

(** The three ways in which the visit of a tile ends in [return]. *)
Lemma sync_tile_returns row half k B s0 :
  snd (sync_tile env row half k B) = Some s0 ->
  ignore B = false
  /\ (s0 = GMT_NOERROR /\ (row < out_j0 B \/ out_j1 B < row) /\ open B = true
      /\ GMT_Destroy_Data env (file B) = true
      \/ s0 = GMT_GRID_READ_ERROR /\ out_j0 B <= row <= out_j1 B
         /\ memory B = false /\ open B = false /\ GMT_Read_Data env (file B) = None
      \/ s0 = GMT_GRDIO_SEEK_FAILED /\ out_j0 B <= row <= out_j1 B
         /\ memory B = false /\ open B = false /\ skip B <> 0
         /\ fseek env (file B) (skip B) = true).
Proof.
  unfold sync_tile. destruct (ignore B) eqn:Hi; [discriminate|].
  destruct (_ || _) eqn:Hr.
  - assert (Hout : row < out_j0 B \/ out_j1 B < row).
    { apply orb_true_iff in Hr. rewrite Z.gtb_ltb in Hr.
      destruct Hr as [H|H]; apply Z.ltb_lt in H; auto. }
    unfold leave_tile. simpl open. simpl file.
    destruct (open B) eqn:Ho; [|discriminate].
    destruct (GMT_Destroy_Data env (file B)) eqn:Hd; [|discriminate].
    simpl. intros H. injection H as <-. split; [reflexivity|]. left. auto.
  - assert (Hin : out_j0 B <= row <= out_j1 B).
    { apply orb_false_iff in Hr. rewrite Z.gtb_ltb in Hr.
      destruct Hr as [H1 H2]. apply Z.ltb_ge in H1, H2. auto. }
    unfold fetch_tile. simpl memory. simpl open. simpl file.
    destruct (memory B) eqn:Hm; [discriminate|].
    destruct (open B) eqn:Ho; [now rewrite get_row_returns|].
    destruct (GMT_Read_Data env (file B)) as [[t rbr]|] eqn:Er.
    + simpl skip. destruct (skip B =? 0) eqn:Es; simpl negb; cbv iota.
      * match goal with |- context [get_row env k ?X] =>
          pose proof (get_row_returns env k X) as H; destruct (get_row env k X) as [[B3 evs] ret]
        end. simpl in *. subst ret. discriminate.
      * simpl file. destruct (fseek env (file B) (skip B)) eqn:Ef.
        -- simpl. intros H. injection H as <-. split; [reflexivity|]. right. right.
           apply Z.eqb_neq in Es. auto 8.
        -- match goal with |- context [get_row env k ?X] =>
             pose proof (get_row_returns env k X) as H; destruct (get_row env k X) as [[B3 evs] ret]
           end. simpl in *. subst ret. discriminate.
    + simpl. intros H. injection H as <-. split; [reflexivity|]. right. left. auto 8.
Qed.

End SyncReturns.

(** Early returns of [grdblend_sync_input_rows] (lines 587, 614 and
    621).  The visit of a tile ends in [return] in three situations only:
    an open tile is left and [GMT_Destroy_Data] fails, and then the status
    returned is [GMT_NOERROR]; a tile cannot be opened
    ([GMT_GRID_READ_ERROR]); the seek to its first row fails
    ([GMT_GRDIO_SEEK_FAILED]).  At the first tile [k] for which this
    happens the function returns that status: the tiles before [k] have
    been brought to the row, each as its own visit leaves it, tile [k] is
    as its visit left it, and the tiles after [k] are exactly as they
    were, with no event of theirs. *)
Theorem sync_early_return env row half blend :
  let r := grdblend_sync_input_rows env row blend half in
  length (fst (fst r)) = length blend
  /\ (forall k B s0,
        nth_error blend k = Some B ->
        (forall j Bj, (j < k)%nat -> nth_error blend j = Some Bj ->
                      snd (sync_tile env row half j Bj) = None) ->
        snd (sync_tile env row half k B) = Some s0 ->
        snd r = s0
        /\ (forall j Bj, (j < k)%nat -> nth_error blend j = Some Bj ->
              nth_error (fst (fst r)) j = Some (fst (fst (sync_tile env row half j Bj))))
        /\ nth_error (fst (fst r)) k = Some (fst (fst (sync_tile env row half k B)))
        /\ skipn (S k) (fst (fst r)) = skipn (S k) blend
        /\ (forall e, In e (snd (fst r)) -> (ev_tile e <= k)%nat)
        /\ ignore B = false
        /\ (s0 = GMT_NOERROR /\ (row < out_j0 B \/ out_j1 B < row) /\ open B = true
            /\ GMT_Destroy_Data env (file B) = true
            \/ s0 = GMT_GRID_READ_ERROR /\ out_j0 B <= row <= out_j1 B
               /\ memory B = false /\ open B = false /\ GMT_Read_Data env (file B) = None
            \/ s0 = GMT_GRDIO_SEEK_FAILED /\ out_j0 B <= row <= out_j1 B
               /\ memory B = false /\ open B = false /\ skip B <> 0
               /\ fseek env (file B) (skip B) = true)).
Proof.
  intros r. subst r. unfold grdblend_sync_input_rows.
  split; [apply sync_from_length|].
  intros k B s0 Hk Hbefore Hret.
  destruct (sync_from_stops env row half blend 0%nat k B s0 Hk Hbefore Hret)
    as (Hs & Hn & Hskip & Hpre & Hev).
  destruct (sync_tile_returns env row half k B s0 Hret) as [Hi Hcause].
  simpl in *. auto 10.
Qed.

(** Three tiles at output row 2, in a world in which the release of a
    grid fails: an open tile over rows 0 to 3, the open strip over rows 0
    and 1, and a closed tile over rows 0 to 3.  The first is read, the
    strip is closed and the function returns [GMT_NOERROR] there: the
    strip is still open and the third tile, whose row 2 is due, has not
    been opened. *)
Lemma sync_early_return_witness :
  let env := Sample.world true false in
  let A := Sample.loaded_tile [1; 2; 3; 4]%float 1 in
  let B := set_open true (Sample.ready Sample.out_header Sample.strip_tile) in
  let C := Sample.ready Sample.out_header (Sample.whole_tile false 1) in
  let r := grdblend_sync_input_rows env 2 [A; B; C] 0 in
  snd r = GMT_NOERROR
  /\ nth_error (fst (fst r)) 0 = Some (fst (fst (sync_tile env 2 0 0 A)))
  /\ nth_error (fst (fst r)) 1 = Some (set_outside true B)
  /\ skipn 2 (fst (fst r)) = [C]
  /\ snd (fst r) = [ev_get_row 0%nat; ev_close 1%nat]
  /\ map open (fst (fst r)) = [true; true; false].
Proof.
  intros env A B C r.
  destruct (proj2 (sync_early_return env 2 0 [A; B; C]) 1%nat B GMT_NOERROR eq_refl)
    as (Hs & Hpre & Hk & Hskip & _).
  - intros [|j] Bj Hj Hn; [|lia]. injection Hn as <-. reflexivity.
  - reflexivity.
  - split; [exact Hs|]. split; [exact (Hpre 0%nat A ltac:(lia) eq_refl)|].
    split; [exact Hk|]. split; [exact Hskip|].
    split; vm_compute; reflexivity.
Defined.

(* ================================================================== *)
(** ** The argument of -C *)
(* ================================================================== *)

(** The option [-C] as the usage text spells it (lines 689-697 against
    lines 742-766): each of the twelve documented arguments, a mode letter
    followed by nothing, [+n] or [+p], is parsed without an error into
    that mode and that sign, whatever mode and sign were set before. *)
Theorem parse_C_usage mode sign C :
  sign = -1 \/ sign = 0 \/ sign = 1 ->
  parse_C (usage_C mode sign) C = Some (mode, sign, 0).
Proof.
  intros [-> | [-> | ->]]; destruct mode; reflexivity.
Qed.

Lemma parse_C_usage_witness :
  parse_C "l+n" (BLEND_UPPER, 0) = Some (BLEND_LOWER, -1, 0).
Proof. exact (parse_C_usage BLEND_LOWER (-1) (BLEND_UPPER, 0) (or_introl eq_refl)). Defined.

Lemma strstr_cons c hay needle :
  strstr hay needle = true -> strstr (String c hay) needle = true.
Proof. intros H. simpl. rewrite H. apply orb_true_r. Qed.

(** What [parse] accepts beyond the usage text (lines 742-766).  A [+p]
    anywhere in the argument sets the sign to +1, also when [+n] is there
    too; when neither is there only the second character counts, so that
    any argument whose second character is [+] sets the sign to +1
    without an error; a first character that is not one of [f l o u]
    counts one error and leaves the mode as it was; and the empty
    argument makes line 757 read the character after the terminator. *)
Theorem parse_C_leniency arg C :
  (strstr arg "+p" = true ->
   exists mode n, parse_C arg C = Some (mode, 1, n))
  /\ (forall c rest,
        arg = String c (String "+" rest) -> strstr arg "+n" = false ->
        exists mode n, parse_C arg C = Some (mode, 1, n)
                       /\ (n = 0 <-> In c ["f"; "l"; "o"; "u"]%char))
  /\ (forall c rest,
        arg = String c rest -> ~ In c ["f"; "l"; "o"; "u"]%char ->
        forall mode sign n, parse_C arg C = Some (mode, sign, n) -> mode = fst C /\ 1 <= n)
  /\ (arg = EmptyString -> parse_C arg C = None).
Proof.
  split; [|split; [|split]].
  - intros H. unfold parse_C. rewrite H. cbv zeta.
    repeat match goal with |- context [Ascii.eqb ?a ?b] => destruct (Ascii.eqb a b) end;
      eexists; eexists; reflexivity.
  - intros c rest -> Hn. unfold parse_C. rewrite Hn. 
    destruct (strstr (String c (String "+" rest)) "+p") eqn:Hp.
    + cbv zeta. unfold char_at. simpl String.get.
      destruct (Ascii.eqb c "f") eqn:Ef; [apply Ascii.eqb_eq in Ef; subst;
        eexists; eexists; split; [reflexivity | split; [simpl; auto | reflexivity]]|].
      destruct (Ascii.eqb c "l") eqn:El; [apply Ascii.eqb_eq in El; subst;
        eexists; eexists; split; [reflexivity | split; [simpl; auto | reflexivity]]|].
      destruct (Ascii.eqb c "o") eqn:Eo; [apply Ascii.eqb_eq in Eo; subst;
        eexists; eexists; split; [reflexivity | split; [simpl; auto | reflexivity]]|].
      destruct (Ascii.eqb c "u") eqn:Eu; [apply Ascii.eqb_eq in Eu; subst;
        eexists; eexists; split; [reflexivity | split; [simpl; auto 6 | reflexivity]]|].
      apply Ascii.eqb_neq in Ef, El, Eo, Eu.
      eexists; eexists; split; [reflexivity|]. split; [discriminate|].
      simpl. intros [H|[H|[H|[H|[]]]]]; congruence.
    + cbv zeta. unfold char_at. simpl String.get.
      change (Ascii.eqb "+" "-") with false. change (Ascii.eqb "+" "+") with true. cbv iota.
      destruct (Ascii.eqb c "f") eqn:Ef; [apply Ascii.eqb_eq in Ef; subst;
        eexists; eexists; split; [reflexivity | split; [simpl; auto | reflexivity]]|].
      destruct (Ascii.eqb c "l") eqn:El; [apply Ascii.eqb_eq in El; subst;
        eexists; eexists; split; [reflexivity | split; [simpl; auto | reflexivity]]|].
      destruct (Ascii.eqb c "o") eqn:Eo; [apply Ascii.eqb_eq in Eo; subst;
        eexists; eexists; split; [reflexivity | split; [simpl; auto | reflexivity]]|].
      destruct (Ascii.eqb c "u") eqn:Eu; [apply Ascii.eqb_eq in Eu; subst;
        eexists; eexists; split; [reflexivity | split; [simpl; auto 6 | reflexivity]]|].
      apply Ascii.eqb_neq in Ef, El, Eo, Eu.
      eexists; eexists; split; [reflexivity|]. split; [discriminate|].
      simpl. intros [H|[H|[H|[H|[]]]]]; congruence.
  - intros c rest -> Hc mode sign n. unfold parse_C.
    change (char_at (String c rest) 0) with (Some c). cbv iota zeta.
    assert (Ef : Ascii.eqb c "f" = false) by (apply Ascii.eqb_neq; intros ->; apply Hc; simpl; auto).
    assert (El : Ascii.eqb c "l" = false) by (apply Ascii.eqb_neq; intros ->; apply Hc; simpl; auto).
    assert (Eo : Ascii.eqb c "o" = false) by (apply Ascii.eqb_neq; intros ->; apply Hc; simpl; auto).
    assert (Eu : Ascii.eqb c "u" = false) by (apply Ascii.eqb_neq; intros ->; apply Hc; simpl; auto 6).
    rewrite Ef, El, Eo, Eu.
    repeat match goal with
           | |- context [if ?a then _ else _] => destruct a
           | |- context [match ?a with Some _ => _ | None => _ end] => destruct a
           end; intros H; try discriminate; injection H as <- <- <-; split; (reflexivity || lia).
  - intros ->. reflexivity.
Qed.

(** [-Cu+x], which the usage text does not allow, is taken for [-Cu+p]. *)
Lemma parse_C_leniency_witness :
  exists mode n, parse_C "u+x" (BLEND_FIRST, 0) = Some (mode, 1, n)
                 /\ (n = 0 <-> In "u"%char ["f"; "l"; "o"; "u"]%char).
Proof.
  exact (proj1 (proj2 (parse_C_leniency "u+x" (BLEND_FIRST, 0))) "u"%char "x"%string
               eq_refl eq_refl).
Defined.

(* ================================================================== *)
(** ** Records of the blend file and the formats without row-by-row input *)
(* ================================================================== *)

(** The records of a blend file (lines 262-285, the format
    [file [region] [weight]] of the comment at line 257).  A record with
    the file alone gets the region [-] (inner = outer) and weight 1; a
    second token with three slashes is the region, given the prefix [-R]
    if it lacks it, and any other second token is dropped: alone it is
    read as the weight, before a third token it is ignored.  The region
    stored is always [-] or begins with [-R], so that line 347 may skip
    two characters.  Only a [sscanf] that returns 0 is a read error: the
    -1 of an empty line, stored in the unsigned [n_scanned], is taken for
    more than one token. *)
Theorem blend_record_defaults gmt_char_count atof file r_in weight :
  let record ret := blend_record gmt_char_count atof ret file r_in weight in
  let region := (if String.prefix "-R" r_in then r_in else "-R" ++ r_in)%string in
  record 1 = Some (mk_entry file "-" 1)
  /\ (gmt_char_count r_in "/"%char = 3 ->
      record 2 = Some (mk_entry file region 1)
      /\ record 3 = Some (mk_entry file region weight))
  /\ (gmt_char_count r_in "/"%char <> 3 ->
      record 2 = Some (mk_entry file "-" (atof r_in))
      /\ record 3 = Some (mk_entry file "-" weight))
  /\ record 0 = None
  /\ record (-1) <> None
  /\ (forall ret L, record ret = Some L ->
        L_file L = file
        /\ (L_region L = "-"%string \/ String.prefix "-R" (L_region L) = true)).
Proof.
  intros record region. subst record. unfold blend_record.
  split; [reflexivity|]. split; [|split; [|split; [|split]]].
  - intros ->. split; reflexivity.
  - intros H. apply Z.eqb_neq in H. change (2 mod 2 ^ 32) with 2.
    change (3 mod 2 ^ 32) with 3. simpl. rewrite H. simpl. split; reflexivity.
  - reflexivity.
  - change (-1 mod 2 ^ 32) with 4294967295. simpl. discriminate.
  - intros ret L. destruct (ret mod 2 ^ 32 <? 1); [discriminate|].
    intros H. injection H as <-. simpl. split; [reflexivity|].
    match goal with |- context [if ?c then _ else "-"%string] => destruct c end; [|now left].
    right. destruct (String.prefix "-R" r_in) eqn:E; [exact E|].
    simpl. repeat match goal with |- context [ascii_dec ?a ?b] =>
                    destruct (ascii_dec a b); [|congruence] end.
    now destruct r_in.
Qed.

Lemma found_unsupported_total decoder h_type names :
  (forall name, In name names -> decoder name <> None) ->
  found_unsupported_from decoder names h_type
  = if existsb (fun name => match decoder name with
                            | Some t => h_type =? t
                            | None => false
                            end) names
    then format_needs_reformat else format_row_by_row.
Proof.
  induction names as [|name rest IH]; intros H; [reflexivity|].
  simpl. destruct (decoder name) as [t|] eqn:E; [|now apply (H name (or_introl eq_refl)) in E].
  destruct (h_type =? t); [reflexivity|]. simpl.
  apply IH. intros x Hx. apply H. now right.
Qed.

(** [grdblend_found_unsupported_format] (lines 109-126).  The internal
    error is returned only when the decoder rejects one of the eight
    format codes of line 112; when it knows all eight, a grid needs
    reformatting exactly when its type is the type of one of them. *)
Theorem unsupported_format_search decoder h_type :
  (grdblend_found_unsupported_format decoder h_type = format_unknown ->
   exists name, In name not_supported_names /\ decoder name = None)
  /\ ((forall name, In name not_supported_names -> decoder name <> None) ->
      grdblend_found_unsupported_format decoder h_type
      = if existsb (fun name => match decoder name with
                                | Some t => h_type =? t
                                | None => false
                                end) not_supported_names
        then format_needs_reformat else format_row_by_row).
Proof.
  unfold grdblend_found_unsupported_format. split.
  - generalize not_supported_names. induction l as [|name rest IH]; [discriminate|].
    simpl. destruct (decoder name) as [t|] eqn:E.
    + destruct (h_type =? t); [discriminate|]. intros H.
      destruct (IH H) as (x & Hx & Hd). exists x. auto.
    + intros _. exists name. auto.
  - apply found_unsupported_total.
Qed.

(* ================================================================== *)
(** ** The first loop of the set-up and the status of the job *)
(* ================================================================== *)

Lemma min_step (a v : float) :
  is_nan a = false ->
  let a' := if (v <? a)%float then v else a in
  is_nan a' = false /\ (a' <=? a)%float = true
  /\ (is_nan v = false -> (a' <=? v)%float = true).
Proof.
  intros Ha. cbv zeta. destruct (v <? a)%float eqn:E.
  - destruct (IEEE.ltb_not_nan _ _ E) as [Hv _].
    split; [exact Hv|]. split; [now apply IEEE.ltb_leb | intros _; now apply IEEE.leb_refl].
  - split; [exact Ha|]. split; [now apply IEEE.leb_refl|].
    intros Hv. now apply IEEE.leb_of_not_ltb.
Qed.

Lemma max_step (a v : float) :
  is_nan a = false ->
  let a' := if (a <? v)%float then v else a in
  is_nan a' = false /\ (a <=? a')%float = true
  /\ (is_nan v = false -> (v <=? a')%float = true).
Proof.
  intros Ha. cbv zeta. destruct (a <? v)%float eqn:E.
  - destruct (IEEE.ltb_not_nan _ _ E) as [_ Hv].
    split; [exact Hv|]. split; [now apply IEEE.ltb_leb | intros _; now apply IEEE.leb_refl].
  - split; [exact Ha|]. split; [now apply IEEE.leb_refl|].
    intros Hv. now apply IEEE.leb_of_not_ltb.
Qed.

Lemma scan_tile_grows t0 first st t :
  region_numbers (scan_wesn st) ->
  let st' := scan_tile t0 first st t in
  region_numbers (scan_wesn st')
  /\ region_within (scan_wesn st) (scan_wesn st')
  /\ (region_numbers (wesn t) -> region_within (wesn t) (scan_wesn st')).
Proof.
  intros (Hxl & Hxh & Hyl & Hyh). cbv zeta. unfold scan_tile. simpl scan_wesn.
  destruct (min_step (XLO (scan_wesn st)) (XLO (wesn t)) Hxl) as (a1 & a2 & a3).
  destruct (max_step (XHI (scan_wesn st)) (XHI (wesn t)) Hxh) as (b1 & b2 & b3).
  destruct (min_step (YLO (scan_wesn st)) (YLO (wesn t)) Hyl) as (c1 & c2 & c3).
  destruct (max_step (YHI (scan_wesn st)) (YHI (wesn t)) Hyh) as (d1 & d2 & d3).
  unfold region_numbers, region_within. simpl.
  split; [auto|]. split; [auto|].
  intros (Txl & Txh & Tyl & Tyh). auto.
Qed.

Lemma region_within_trans a b c :
  region_within a b -> region_within b c -> region_within a c.
Proof.
  intros (a1 & a2 & a3 & a4) (b1 & b2 & b3 & b4).
  repeat split; eapply IEEE.leb_trans; eauto.
Qed.

Lemma scan_from_grows t0 ts : forall first st,
  region_numbers (scan_wesn st) ->
  region_numbers (scan_wesn (scan_from t0 first st ts))
  /\ region_within (scan_wesn st) (scan_wesn (scan_from t0 first st ts))
  /\ forall t, In t ts -> region_numbers (wesn t) ->
               region_within (wesn t) (scan_wesn (scan_from t0 first st ts)).
Proof.
  induction ts as [|t ts IH]; intros first st Hn; simpl.
  - split; [exact Hn|]. split; [|intros t []].
    destruct Hn as (a & b & c & d). repeat split; now apply IEEE.leb_refl.
  - destruct (scan_tile_grows t0 first st t Hn) as (Hn1 & Hw1 & Ht1).
    destruct (IH false _ Hn1) as (Hn2 & Hw2 & Ht2).
    split; [exact Hn2|]. split; [eapply region_within_trans; eauto|].
    intros x [<-|Hx] Hxn; [|now apply Ht2].
    eapply region_within_trans; [apply Ht1; exact Hxn | exact Hw2].
Qed.

Lemma scan_from_common t0 ts : forall first st,
  (forall t, In t ts -> inc_x t = inc_x t0 /\ inc_y t = inc_y t0
                        /\ registration t = registration t0) ->
  common_inc (scan_from t0 first st ts) = common_inc st
  /\ common_reg (scan_from t0 first st ts) = common_reg st.
Proof.
  induction ts as [|t ts IH]; intros first st H; simpl; [auto|].
  destruct (H t (or_introl eq_refl)) as (Ex & Ey & Er).
  destruct (IH false (scan_tile t0 first st t) (fun x Hx => H x (or_intror Hx))) as [-> ->].
  unfold scan_tile. simpl. rewrite Ex, Ey, Er, !IEEE.same_inc_within_tolerance.
  unfold reg_eqb. rewrite Z.eqb_refl. simpl. now destruct first.
Qed.

(** The output region taken from the tiles (lines 315, 348-360 and
    366-374).  The region gathered encloses the region of every tile whose
    edges are numbers.  Increments and registration are compared with
    those of the first tile only; tiles that all carry its increments, to
    the bit, and its registration never make the job ask for [-I] or
    [-r], whatever those increments are. *)
Theorem scanned_region ts :
  let st := scan_tiles ts in
  (forall t, In t ts -> region_numbers (wesn t) -> region_within (wesn t) (scan_wesn st))
  /\ (forall t0 rest,
        ts = t0 :: rest ->
        (forall t, In t rest -> inc_x t = inc_x t0 /\ inc_y t = inc_y t0
                                /\ registration t = registration t0) ->
        forall iset gset, needs_I_or_r st iset gset = false).
Proof.
  intros st. subst st. split.
  - intros t Ht Hn. destruct ts as [|t0 rest]; [destruct Ht|].
    unfold scan_tiles.
    exact (proj2 (proj2 (scan_from_grows t0 (t0 :: rest) true scan_start
                           (conj eq_refl (conj eq_refl (conj eq_refl eq_refl))))) t Ht Hn).
  - intros t0 rest -> H iset gset. unfold scan_tiles.
    destruct (scan_from_common t0 (t0 :: rest) true scan_start) as [Hi Hr].
    { intros t [<-|Ht]; [auto | now apply H]. }
    unfold needs_I_or_r. rewrite Hi, Hr. reflexivity.
Qed.

Section JobFacts.

Variable env : Collaborators.
Variable fuel : nat.
Variable x_is_lon : bool.
Variable code_of : gmt_status -> Z.
Variable GMT_NOT_A_VALID_LOGMODE : Z.
Variable gmt_M_file_is_memory : string -> bool.
Variable memory_rows : string -> list (list float).
Variable decoder : string -> option Z.
Variable header_type : GMT_GRID_HEADER -> Z.
Variable grdblend_decode_R : string -> region.

Hypothesis codes_positive : forall s, s <> GMT_NOERROR -> 0 < code_of s.
Hypothesis logmode_positive : 0 < GMT_NOT_A_VALID_LOGMODE.

(** The set-up of a tile fails with a negated code, except where
    [gmt_get_tempname] fails (lines 474 and 490). *)
Lemma finish_tile_failure h B negated code :
  finish_tile env h B = tile_failed negated code ->
  negated = true /\ code = GMT_RUNTIME_ERROR.
Proof.
  unfold finish_tile. destruct (memory _); [discriminate|].
  destruct (GMT_Destroy_Data env _); [|discriminate].
  intros H. injection H as <- <-. auto.
Qed.

Lemma rebuild_tile_failure h ds B negated code :
  rebuild_tile env fuel h ds B = tile_failed negated code ->
  code <> GMT_NOERROR
  /\ (negated = true
      \/ code = GMT_RUNTIME_ERROR /\ exists prefix, gmt_get_tempname env prefix = None).
Proof.
  unfold rebuild_tile.
  destruct (gmt_get_tempname env _) as [buffer|] eqn:Et.
  - destruct (GMT_Call_Module env _ _);
      [intros H; injection H as <- <-; split; [discriminate | now left]|].
    destruct (GMT_Destroy_Data env _);
      [intros H; injection H as <- <-; split; [discriminate | now left]|].
    destruct (GMT_Read_Data env _) as [[t rbr]|];
      [|intros H; injection H as <- <-; split; [discriminate | now left]].
    destruct (grdblend_overlap_check env fuel _ h false) as [[[|] B3]|];
      try discriminate.
    intros H. apply finish_tile_failure in H. destruct H as [-> ->].
    split; [discriminate | now left].
  - intros H. injection H as <- <-. split; [discriminate|]. right. eauto.
Qed.

Lemma init_tile_failure h ns B negated code :
  init_tile env fuel x_is_lon h ns B = tile_failed negated code ->
  code <> GMT_NOERROR
  /\ (negated = true
      \/ code = GMT_RUNTIME_ERROR /\ exists prefix, gmt_get_tempname env prefix = None).
Proof.
  assert (Ha : forall B0, align_tile env fuel h ns B0 = tile_failed negated code ->
             code <> GMT_NOERROR
             /\ (negated = true
                 \/ code = GMT_RUNTIME_ERROR
                    /\ exists prefix, gmt_get_tempname env prefix = None)).
  { intros B0. unfold align_tile. destruct (_ =? 0).
    - intros H. apply finish_tile_failure in H. destruct H as [-> ->].
      split; [discriminate | now left].
    - apply rebuild_tile_failure. }
  unfold init_tile.
  destruct (grdblend_outside_y_range h (inner B)); [discriminate|].
  destruct x_is_lon.
  - destruct (grdblend_overlap_check env fuel B h false) as [[[|] B1]|]; try discriminate.
    destruct (grdblend_overlap_check env fuel B1 h true) as [[[|] B2]|]; try discriminate.
    apply Ha.
  - destruct (grdblend_outside_cartesian_x_range h (inner B)); [discriminate|].
    apply Ha.
Qed.

Lemma init_tiles_done h ns Bs : forall Bs',
  init_tiles env fuel x_is_lon code_of h ns Bs = loop_done Bs' ->
  Forall2 (fun B B' => init_tile env fuel x_is_lon h ns B = tile_ready B'
                       \/ init_tile env fuel x_is_lon h ns B = tile_skipped B') Bs Bs'.
Proof.
  induction Bs as [|B rest IH]; simpl; intros Bs' H.
  - injection H as <-. constructor.
  - destruct (init_tile env fuel x_is_lon h ns B) as [B'|negated code|B'|] eqn:E;
      try discriminate;
      destruct (init_tiles env fuel x_is_lon code_of h ns rest) as [rest'| |];
      try discriminate; injection H as <-; constructor; auto.
Qed.

Lemma init_tiles_returns h ns Bs status :
  init_tiles env fuel x_is_lon code_of h ns Bs = loop_returns status ->
  status < 0
  \/ status = code_of GMT_RUNTIME_ERROR
     /\ exists prefix, gmt_get_tempname env prefix = None.
Proof.
  induction Bs as [|B rest IH]; simpl; [discriminate|].
  destruct (init_tile env fuel x_is_lon h ns B) as [B'|negated code|B'|] eqn:E.
  - destruct (init_tiles env fuel x_is_lon code_of h ns rest); try discriminate. exact IH.
  - intros H. injection H as <-. apply init_tile_failure in E.
    destruct E as [Hc [-> | [-> Ht]]].
    + left. pose proof (codes_positive code Hc). lia.
    + destruct negated; [left | right; auto].
      pose proof (codes_positive GMT_RUNTIME_ERROR ltac:(discriminate)). lia.
  - destruct (init_tiles env fuel x_is_lon code_of h ns rest); try discriminate. exact IH.
  - discriminate.
Qed.

Lemma read_tiles_fails Ls : forall ns0 status,
  read_tiles env code_of GMT_NOT_A_VALID_LOGMODE gmt_M_file_is_memory memory_rows
             decoder header_type grdblend_decode_R Ls ns0 = inr status ->
  status < 0.
Proof.
  induction Ls as [|L rest IH]; intros ns0 status; simpl; [discriminate|].
  unfold read_tile.
  destruct (GMT_Read_Data env (L_file L)) as [[t rbr]|] eqn:Er.
  2:{ intros H. injection H as <-.
      pose proof (codes_positive GMT_DATA_READ_ERROR ltac:(discriminate)). lia. }
  destruct (grdblend_found_unsupported_format decoder (header_type t)) eqn:Ev.
  3:{ intros H. injection H as <-. lia. }
  all: match goal with |- context [read_tiles _ _ _ _ _ _ _ _ ?r ?n] =>
         specialize (IH n);
         destruct (read_tiles env code_of GMT_NOT_A_VALID_LOGMODE gmt_M_file_is_memory
                              memory_rows decoder header_type grdblend_decode_R r n)
           as [[Bs ns]|st]
       end; [discriminate|].
  all: intros H; injection H as <-; now apply IH.
Qed.

Lemma read_tiles_reads Ls : forall ns0 Bs ns,
  read_tiles env code_of GMT_NOT_A_VALID_LOGMODE gmt_M_file_is_memory memory_rows
             decoder header_type grdblend_decode_R Ls ns0 = inl (Bs, ns) ->
  Forall2 (fun L B => file B = L_file L /\ weight B = L_weight L
                      /\ GMT_Read_Data env (L_file L) = Some (G B, RbR B)
                      /\ (L_region L = "-"%string -> inner B = wesn (G B)))
          Ls Bs
  /\ ns = match rev Bs with
          | [] => ns0
          | B :: _ =>
              format_flag (grdblend_found_unsupported_format decoder (header_type (G B)))
          end.
Proof.
  induction Ls as [|L rest IH]; intros ns0 Bs ns; simpl.
  - intros H. injection H as <- <-. split; [constructor | reflexivity].
  - unfold read_tile.
    destruct (GMT_Read_Data env (L_file L)) as [[t rbr]|] eqn:Er; [|discriminate].
    destruct (grdblend_found_unsupported_format decoder (header_type t)) eqn:Ev;
      [| |discriminate].
    all: match goal with |- context [read_tiles _ _ _ _ _ _ _ _ ?r ?n] =>
           specialize (IH n);
           destruct (read_tiles env code_of GMT_NOT_A_VALID_LOGMODE gmt_M_file_is_memory
                                memory_rows decoder header_type grdblend_decode_R r n)
             as [[Bs0 ns1]|st]
         end; [|discriminate].
    all: intros H; injection H as <- <-; destruct (IH Bs0 ns1 eq_refl) as [Hall Hns]; split;
      [constructor; [simpl; repeat split; [exact Er|];
                     intros ->; reflexivity | exact Hall]|].
    all: simpl rev; destruct (rev Bs0) as [|Bl l] eqn:El; simpl;
      [rewrite Hns, Ev; reflexivity | exact Hns].
Qed.

End JobFacts.

(** The status of [grdblend_init_blend_job] and its reader (lines
    330-342, 474-506, 563, 573 and 917).  When the blend array is passed
    back the status is the number of tiles of the list, ignored ones
    included, and the array has that many entries.  Every failure returns
    without the array; its status is negative, which line 917 turns into
    [Return (-status)], except for a [gmt_get_tempname] that fails: lines
    474 and 490 return [GMT_RUNTIME_ERROR] itself, and line 917 lets it
    through as a number of tiles. *)
Theorem job_status_and_its_reader env fuel x_is_lon code_of logmode file_is_memory
        memory_rows decoder header_type decode_R Ls srtm_job h status blend h' :
  (forall s, s <> GMT_NOERROR -> 0 < code_of s) -> 0 < logmode ->
  grdblend_init_blend_job env fuel x_is_lon code_of logmode file_is_memory memory_rows
                          decoder header_type decode_R Ls srtm_job h
  = job_returns status blend h' ->
  match blend with
  | Some Bs' =>
      status = Z.of_nat (length Ls) /\ length Bs' = length Ls
      /\ takes_status status = inr (Z.of_nat (length Ls))
  | None =>
      status < 0 /\ takes_status status = inl (- status)
      \/ status = code_of GMT_RUNTIME_ERROR
         /\ (exists prefix, gmt_get_tempname env prefix = None)
         /\ takes_status status = inr status
  end.
Proof.
  intros Hpos Hlog. unfold grdblend_init_blend_job. cbv zeta.
  assert (Hneg : forall st, st < 0 -> takes_status st = inl (- st)).
  { intros st Hst. unfold takes_status. apply Z.ltb_lt in Hst. now rewrite Hst. }
  destruct (read_tiles _ _ _ _ _ _ _ _ Ls 0) as [[Bs ns]|st] eqn:Er.
  - pose proof (read_tiles_reads _ _ _ _ _ _ _ _ _ _ _ _ Er) as [Hall _].
    match goal with |- context [init_tiles _ _ _ _ ?hh ns Bs] => set (h1 := hh) end.
    destruct (init_tiles env fuel x_is_lon code_of h1 ns Bs) as [Bs'|st|] eqn:Ei.
    + intros H. injection H as <- <- <-.
      pose proof (init_tiles_done _ _ _ _ _ _ _ _ Ei) as Hd.
      split; [reflexivity|]. split.
      * rewrite <- (Forall2_length Hd). symmetry. exact (Forall2_length Hall).
      * unfold takes_status.
        replace (Z.of_nat (length Ls) <? 0) with false by (symmetry; apply Z.ltb_ge; lia).
        reflexivity.
    + intros H. injection H as <- <- <-.
      destruct (init_tiles_returns _ _ _ _ Hpos _ _ _ _ Ei) as [Hst | [Hst Ht]].
      * left. auto.
      * right. split; [exact Hst|]. split; [exact Ht|].
        unfold takes_status.
        pose proof (Hpos GMT_RUNTIME_ERROR ltac:(discriminate)).
        rewrite Hst.
        replace (code_of GMT_RUNTIME_ERROR <? 0) with false
          by (symmetry; apply Z.ltb_ge; lia).
        reflexivity.
    + discriminate.
  - intros H. injection H as <- <- <-. left.
    pose proof (read_tiles_fails _ _ _ _ _ _ _ _ Hpos Hlog _ _ _ Er). auto.
Qed.

(** The pixel-registered eastern half must be resampled and no temporary
    name is to be had: the status returned is the positive code, which
    the caller takes for a number of tiles. *)
Lemma job_status_and_its_reader_witness :
  Sample.job (Sample.world false true) [mk_entry "cells.nc" "-" 1] Sample.wide_out
  = job_returns 1 None Sample.wide_out
  /\ takes_status 1 = inr 1.
Proof.
  assert (E : Sample.job (Sample.world false true) [mk_entry "cells.nc" "-" 1]
                          Sample.wide_out
              = job_returns 1 None Sample.wide_out) by (vm_compute; reflexivity).
  split; [exact E|].
  destruct (job_status_and_its_reader (Sample.world false true) 8 false Sample.codes 5
              (fun _ => false) (fun _ => []) Sample.decoder Sample.header_type
              (fun _ => mk_region 0 0 0 0) [mk_entry "cells.nc" "-" 1] false
              Sample.wide_out 1 None Sample.wide_out) as [[H _] | (_ & _ & H)].
  - intros s Hs. destruct s; simpl; try lia. congruence.
  - lia.
  - exact E.
  - lia.
  - exact H.
Defined.

(** One flag for all tiles (lines 339 and 424).  The variable
    [not_supported] is set for every tile by the loop of line 318 and
    read by the loop of line 399, which starts when the first loop is
    over: every tile is set up with the flag of the last tile of the
    list.  A tile of a format without row-by-row input that is in step
    with the output is therefore not reformatted unless the last tile is
    of such a format too. *)
Theorem format_flag_is_that_of_the_last_tile env fuel x_is_lon code_of logmode
        file_is_memory memory_rows decoder header_type decode_R Ls h status Bs' h' :
  grdblend_init_blend_job env fuel x_is_lon code_of logmode file_is_memory memory_rows
                          decoder header_type decode_R Ls false h
  = job_returns status (Some Bs') h' ->
  exists Bs,
    Forall2 (fun L B => file B = L_file L /\ weight B = L_weight L
                        /\ GMT_Read_Data env (L_file L) = Some (G B, RbR B)
                        /\ (L_region L = "-"%string -> inner B = wesn (G B)))
            Ls Bs
    /\ let not_supported :=
         match rev Bs with
         | [] => 0
         | B :: _ =>
             format_flag (grdblend_found_unsupported_format decoder (header_type (G B)))
         end in
       Forall2 (fun B B' =>
                  init_tile env fuel x_is_lon h not_supported B = tile_ready B'
                  \/ init_tile env fuel x_is_lon h not_supported B = tile_skipped B')
               Bs Bs'.
Proof.
  unfold grdblend_init_blend_job. cbv zeta. simpl andb. cbv iota.
  destruct (read_tiles _ _ _ _ _ _ _ _ Ls 0) as [[Bs ns]|st] eqn:Er; [|discriminate].
  destruct (read_tiles_reads _ _ _ _ _ _ _ _ _ _ _ _ Er) as [Hall Hns].
  destruct (init_tiles env fuel x_is_lon code_of h ns Bs) as [Bs0|st|] eqn:Ei;
    try discriminate.
  intros H. injection H as _ <- _.
  exists Bs. split; [exact Hall|]. cbv zeta. rewrite <- Hns.
  exact (init_tiles_done _ _ _ _ _ _ _ _ Ei).
Qed.

(** The strip, of a format without row-by-row input, listed before a
    tile of a supported format: the flag that both are set up with is 0,
    and the strip is used as it is. *)
Lemma format_flag_is_that_of_the_last_tile_witness :
  let Ls := [mk_entry "strip.nc" "-" 1; mk_entry "whole.nc" "-" 1] in
  grdblend_found_unsupported_format Sample.decoder (Sample.header_type Sample.strip_header)
  = format_needs_reformat
  /\ map (fun B => (file B, delete B)) (Sample.job_tiles (Sample.job Sample.env Ls Sample.out_header))
     = [("strip.nc"%string, false); ("whole.nc"%string, false)]
  /\ exists Bs,
       Forall2 (fun L B => file B = L_file L /\ weight B = L_weight L
                           /\ GMT_Read_Data Sample.env (L_file L) = Some (G B, RbR B)
                           /\ (L_region L = "-"%string -> inner B = wesn (G B)))
               Ls Bs
       /\ let not_supported :=
            match rev Bs with
            | [] => 0
            | B :: _ =>
                format_flag (grdblend_found_unsupported_format Sample.decoder
                               (Sample.header_type (G B)))
            end in
          Forall2 (fun B B' =>
                     init_tile Sample.env 8 false Sample.out_header not_supported B
                     = tile_ready B'
                     \/ init_tile Sample.env 8 false Sample.out_header not_supported B
                        = tile_skipped B')
                  Bs (Sample.job_tiles (Sample.job Sample.env Ls Sample.out_header)).
Proof.
  intros Ls. split; [reflexivity|]. split; [vm_compute; reflexivity|].
  apply (format_flag_is_that_of_the_last_tile Sample.env 8 false Sample.codes 5
           (fun _ => false) (fun _ => []) Sample.decoder Sample.header_type
           (fun _ => mk_region 0 0 0 0) Ls Sample.out_header 2
           (Sample.job_tiles (Sample.job Sample.env Ls Sample.out_header))
           Sample.out_header).
  vm_compute. reflexivity.
Defined.

(* ================================================================== *)
(** ** The longitude shifts of the overlap check *)
(* ================================================================== *)

(** The loop of line 167 stops at the first turn at which the eastern
    edge is not west of the output. *)
Lemma shift_east_stops west fuel : forall w e shift w' e' shift',
  shift_east fuel west w e shift = Some (w', e', shift') ->
  exists n, (n <= fuel)%nat
            /\ w' = east_by n w /\ e' = east_by n e /\ shift' = west_by n shift
            /\ (e' <? west)%float = false
            /\ forall i, (i < n)%nat -> (east_by i e <? west)%float = true.
Proof.
  induction fuel as [|fuel IH]; intros w e shift w' e' shift'; simpl.
  - destruct (e <? west)%float eqn:E; [discriminate|].
    intros H. injection H as <- <- <-. exists 0%nat.
    split; [lia|]. do 4 (split; [reflexivity || exact E|]). intros i Hi. lia.
  - destruct (e <? west)%float eqn:E.
    + intros H. destruct (IH _ _ _ _ _ _ H) as (n & Hn & -> & -> & -> & Hstop & Hbefore).
      exists (S n). unfold east_by, west_by. rewrite !Nat.iter_succ_r.
      split; [lia|]. do 4 (split; [reflexivity || exact Hstop|]).
      intros [|i] Hi; [exact E|].
      unfold east_by in Hbefore. rewrite Nat.iter_succ_r. apply Hbefore. lia.
    + intros H. injection H as <- <- <-. exists 0%nat.
      split; [lia|]. do 4 (split; [reflexivity || exact E|]). intros i Hi. lia.
Qed.

Lemma shift_east_stuck west e :
  (e + 360)%float = e -> (e <? west)%float = true ->
  forall fuel w shift, shift_east fuel west w e shift = None.
Proof.
  intros Hfix Hlt. induction fuel as [|fuel IH]; intros w shift; simpl; rewrite Hlt.
  - reflexivity.
  - rewrite Hfix. apply IH.
Qed.

(** The three shapes of the tile that [grdblend_overlap_check] leaves. *)
Lemma overlap_check_shape env fuel B h mode skipped B' :
  grdblend_overlap_check env fuel B h mode = Some (skipped, B') ->
  B' = set_ignore true B \/ B' = B
  \/ exists w e, B' = (if mode then set_inner (set_lon (inner B) w e) B
                       else set_G (set_header_lon (G B) w e) B).
Proof.
  unfold grdblend_overlap_check.
  destruct (gmt_grd_is_global env h); [intros H; injection H as <- <-; auto|].
  destruct (gmt_grd_is_global env (G B)); [intros H; injection H as <- <-; auto|].
  cbv zeta.
  destruct (shift_east fuel _ _ _ _) as [[[w e] shift]|]; [|discriminate].
  destruct (match registration h with
            | GMT_GRID_NODE_REG => _
            | GMT_GRID_PIXEL_REG => _
            end); [intros H; injection H as <- <-; auto|].
  destruct (negb _); intros H; injection H as <- <-; [|auto].
  right. right. exists w, e. reflexivity.
Qed.

(** [grdblend_overlap_check] (lines 159-183).  When it reports the tile
    as outside, the tile is marked ignored and nothing else is changed.
    Otherwise the tile is either left as it is, or the two longitudes of
    the region examined (the header's, or the inner region's for mode 1)
    are replaced, nothing else: the new edges are the old ones less 720
    and then moved east by 360 a number of times, as few as make the
    eastern edge not lie west of the output, and the western edge is then
    not beyond the eastern edge of the output. *)
Theorem overlap_check_result env fuel B h mode skipped B' :
  grdblend_overlap_check env fuel B h mode = Some (skipped, B') ->
  let lo := if mode then XLO (inner B) else XLO (wesn (G B)) in
  let hi := if mode then XHI (inner B) else XHI (wesn (G B)) in
  (skipped = true -> B' = set_ignore true B)
  /\ (skipped = false ->
      B' = B
      \/ exists n,
           (n <= fuel)%nat
           /\ let w := east_by n (lo - 720)%float in
              let e := east_by n (hi - 720)%float in
              B' = (if mode then set_inner (set_lon (inner B) w e) B
                    else set_G (set_header_lon (G B) w e) B)
              /\ (e <? XLO (wesn h))%float = false
              /\ beyond_east h w = false
              /\ forall i, (i < n)%nat ->
                           (east_by i (hi - 720)%float <? XLO (wesn h))%float = true).
Proof.
  intros H lo hi. unfold grdblend_overlap_check in H.
  destruct (gmt_grd_is_global env h);
    [injection H as <- <-; split; [discriminate | now left]|].
  destruct (gmt_grd_is_global env (G B));
    [injection H as <- <-; split; [discriminate | now left]|].
  fold lo hi in H.
  destruct (shift_east fuel (XLO (wesn h)) (lo - 720) (hi - 720) 720) as [[[w e] shift]|] eqn:E;
    [|discriminate].
  destruct (shift_east_stops _ _ _ _ _ _ _ _ E) as (n & Hn & -> & -> & -> & Hstop & Hbefore).
  fold (beyond_east h (east_by n (lo - 720))) in H.
  destruct (beyond_east h (east_by n (lo - 720))) eqn:Eb.
  - injection H as <- <-. split; [reflexivity | discriminate].
  - destruct (negb _); injection H as <- <-; (split; [discriminate|]); intros _.
    + right. exists n. cbv zeta. auto.
    + now left.
Qed.

(** A tile one turn east of the output: its header is brought back by
    one turn of the loop. *)
Lemma overlap_check_result_witness :
  let B := Sample.raw_tile Sample.next_turn (wesn Sample.next_turn) "east.nc" false 1 in
  grdblend_overlap_check Sample.env 8 B Sample.out_header false
  = Some (false, set_G (set_header_lon Sample.next_turn 0 3) B)
  /\ (set_G (set_header_lon Sample.next_turn 0 3) B = B
      \/ exists n,
           (n <= 8)%nat
           /\ set_G (set_header_lon Sample.next_turn 0 3) B
              = set_G (set_header_lon (G B) (east_by n (360 - 720)) (east_by n (363 - 720))) B
           /\ (east_by n (363 - 720) <? 0)%float = false
           /\ beyond_east Sample.out_header (east_by n (360 - 720)) = false
           /\ forall i, (i < n)%nat -> (east_by i (363 - 720) <? 0)%float = true).
Proof.
  intros B.
  assert (E : grdblend_overlap_check Sample.env 8 B Sample.out_header false
              = Some (false, set_G (set_header_lon Sample.next_turn 0 3) B))
    by (vm_compute; reflexivity).
  split; [exact E|].
  exact (proj2 (overlap_check_result Sample.env 8 B Sample.out_header false false _ E) eq_refl).
Defined.

(** The loop of line 167 has no bound: for a tile whose eastern edge is
    so far west that adding 360 does not change it (an edge at -2^100,
    say, or minus infinity), the check of the header never returns,
    whatever the number of turns granted. *)
Theorem overlap_check_never_ends env B h :
  gmt_grd_is_global env h = false -> gmt_grd_is_global env (G B) = false ->
  let e := (XHI (wesn (G B)) - 720)%float in
  (e + 360)%float = e -> (e <? XLO (wesn h))%float = true ->
  forall fuel, grdblend_overlap_check env fuel B h false = None.
Proof.
  intros Hh Ht e Hfix Hlt fuel. unfold grdblend_overlap_check. rewrite Hh, Ht.
  fold e. now rewrite (shift_east_stuck (XLO (wesn h)) e Hfix Hlt).
Qed.

(** A tile whose eastern edge is at -2^100, and a thousand turns. *)
Lemma overlap_check_never_ends_witness :
  grdblend_overlap_check Sample.env 1000
    (Sample.raw_tile Sample.far_west (wesn Sample.far_west) "far.nc" false 1)
    Sample.out_header false = None.
Proof.
  exact (overlap_check_never_ends Sample.env
           (Sample.raw_tile Sample.far_west (wesn Sample.far_west) "far.nc" false 1)
           Sample.out_header eq_refl eq_refl eq_refl eq_refl 1000%nat).
Defined.

(* ================================================================== *)
(** ** The range tests and the check of a rebuilt tile *)
(* ================================================================== *)

Lemma ltb_irrefl x : (x <? x)%float = false.
Proof.
  destruct (x <? x)%float eqn:E; [|reflexivity].
  pose proof (IEEE.ltb_not_leb _ _ E) as H.
  rewrite (IEEE.ltb_leb _ _ E) in H. discriminate.
Qed.

(** The tests of lines 185-203.  A region outside the output in y is
    outside for the Cartesian test too; a region outside a
    gridline-registered output is outside the pixel-registered output
    over the same region; and a region that only touches the output along
    its southern edge is kept by a gridline-registered output and skipped
    by a pixel-registered one. *)
Theorem outside_tests_nest h w :
  (grdblend_outside_y_range h w = true -> grdblend_outside_cartesian_x_range h w = true)
  /\ (grdblend_outside_y_range (as_node h) w = true ->
      grdblend_outside_y_range (as_pixel h) w = true)
  /\ (grdblend_outside_cartesian_x_range (as_node h) w = true ->
      grdblend_outside_cartesian_x_range (as_pixel h) w = true)
  /\ (YHI w = YLO (wesn h) -> is_nan (YHI w) = false ->
      (YLO w <=? YHI (wesn h))%float = true ->
      grdblend_outside_y_range (as_node h) w = false
      /\ grdblend_outside_y_range (as_pixel h) w = true).
Proof.
  split; [|split; [|split]].
  - unfold grdblend_outside_y_range, grdblend_outside_cartesian_x_range.
    destruct (registration h); intros H; apply orb_true_iff in H;
      destruct H as [H|H]; rewrite H; now rewrite ?orb_true_r.
  - unfold grdblend_outside_y_range. simpl. intros H. apply orb_true_iff in H.
    destruct H as [H|H]; rewrite (IEEE.ltb_leb _ _ H); now rewrite ?orb_true_r.
  - unfold grdblend_outside_cartesian_x_range. simpl. intros H.
    repeat (apply orb_true_iff in H; destruct H as [H|H]);
      rewrite (IEEE.ltb_leb _ _ H); now rewrite ?orb_true_r.
  - intros E Hn Hle. unfold grdblend_outside_y_range. simpl. rewrite <- E. split.
    + rewrite ltb_irrefl. simpl. now apply IEEE.leb_not_ltb.
    + now rewrite (IEEE.leb_refl _ Hn).
Qed.

Lemma shift_east_at_once fuel west w e shift :
  (e <? west)%float = false -> shift_east fuel west w e shift = Some (w, e, shift).
Proof. intros H. destruct fuel; simpl; now rewrite H. Qed.

Section RebuildFacts.

Variable env : Collaborators.
Variable fuel : nat.

Lemma finish_tile_header h B B' : finish_tile env h B = tile_ready B' -> G B' = G B.
Proof.
  unfold finish_tile.
  set (B1 := if (weight B <? 0)%float then _ else B).
  assert (H1 : G B1 = G B) by (subst B1; destruct (weight B <? 0)%float; reflexivity).
  set (B3 := set_z _ (blend_skip (blend_geometry h B1))).
  assert (H3 : G B3 = G B1).
  { subst B3. unfold blend_skip. simpl.
    destruct (_ <? 0); [destruct (format _)|]; reflexivity. }
  destruct (memory B3); [|destruct (GMT_Destroy_Data env (file B3))];
    intros E; try discriminate; injection E as <-; congruence.
Qed.

(** A tile that has been rebuilt comes back under the name of the
    temporary file, re-read from it, flagged for deletion and no longer in
    memory; its header went through the longitude check. *)
Lemma rebuild_tile_outcome h ds B B' :
  rebuild_tile env fuel h ds B = tile_ready B' ->
  exists prefix buffer t rbr B3,
    gmt_get_tempname env prefix = Some buffer
    /\ GMT_Read_Data env buffer = Some (t, rbr)
    /\ grdblend_overlap_check env fuel
         (set_memory false (set_RbR rbr (set_G t (set_delete true (set_file buffer B)))))
         h false = Some (false, B3)
    /\ G B' = G B3 /\ file B' = buffer /\ delete B' = true /\ memory B' = false.
Proof.
  unfold rebuild_tile.
  destruct (gmt_get_tempname env _) as [buffer|] eqn:Et; [|discriminate].
  destruct (GMT_Call_Module env _ _); [discriminate|].
  destruct (GMT_Destroy_Data env _); [discriminate|].
  simpl file.
  destruct (GMT_Read_Data env buffer) as [[t rbr]|] eqn:Er; [|discriminate].
  destruct (grdblend_overlap_check env fuel _ h false) as [[[|] B3]|] eqn:E;
    try discriminate.
  intros H. pose proof (finish_tile_header h B3 B' H) as HG.
  apply finish_tile_ready in H. destruct H as (_ & Hf & Hd & Hm).
  assert (Hfields : file B3 = buffer /\ delete B3 = true /\ memory B3 = false).
  { destruct (overlap_check_shape env fuel _ h false false B3 E)
      as [-> | [-> | (w & e & ->)]]; repeat split. }
  destruct Hfields as (F1 & F2 & F3).
  eexists; exists buffer, t, rbr, B3.
  split; [exact Et|]. repeat split; try assumption; congruence.
Qed.

End RebuildFacts.

(** The longitude check after a rebuild (line 510) is made whether or
    not x is a longitude.  For Cartesian input, a tile that had to be
    resampled or reformatted and is ready comes back from the temporary
    file; when neither grid is flagged as global and the eastern edge of
    the file read back, less 720, is not west of the output, the loop of
    line 167 does not turn, [shift] is still 720, and the header of the
    tile is left with both x-edges moved west by 720: the index bounds of
    lines 527-534 are computed from the moved edges. *)
Theorem rebuilt_tile_is_checked_as_longitude env fuel h not_supported B B' :
  init_tile env fuel false h not_supported B = tile_ready B' ->
  do_sample_bits not_supported (G B) h <> 0 ->
  exists buffer t rbr,
    GMT_Read_Data env buffer = Some (t, rbr)
    /\ file B' = buffer /\ delete B' = true /\ memory B' = false
    /\ (gmt_grd_is_global env h = false -> gmt_grd_is_global env t = false ->
        gmt_M_is_zero env 720 = false ->
        (XHI (wesn t) - 720 <? XLO (wesn h))%float = false ->
        G B' = set_header_lon t (XLO (wesn t) - 720)%float (XHI (wesn t) - 720)%float
        /\ out_i0 B' = irint ((XLO (wesn t) - 720 - XLO (wesn h)) * r_inc_x h)%float).
Proof.
  unfold init_tile.
  destruct (grdblend_outside_y_range h (inner B)); [discriminate|].
  destruct (grdblend_outside_cartesian_x_range h (inner B)); [discriminate|].
  unfold align_tile. intros H Hds. apply Z.eqb_neq in Hds. rewrite Hds in H.
  pose proof (rebuild_tile_ready env fuel h _ B B' H) as [Hset _].
  destruct (rebuild_tile_outcome env fuel h _ B B' H)
    as (prefix & buffer & t & rbr & B3 & Ht & Hr & Ho & HG & Hf & Hd & Hm).
  exists buffer, t, rbr.
  split; [exact Hr|]. split; [exact Hf|]. split; [exact Hd|]. split; [exact Hm|].
  intros Hh Hg Hz He.
  assert (HB3 : G B3 = set_header_lon t (XLO (wesn t) - 720)%float (XHI (wesn t) - 720)%float).
  { unfold grdblend_overlap_check in Ho. simpl G in Ho.
    rewrite Hh, Hg in Ho. simpl wesn in Ho.
    rewrite (shift_east_at_once fuel _ _ _ _ He) in Ho. rewrite Hz in Ho. simpl negb in Ho.
    destruct (registration h);
      match type of Ho with (if ?c then _ else _) = _ => destruct c end;
      try discriminate; injection Ho as <-; reflexivity. }
  split; [now rewrite HG|].
  apply settled_fields in Hset. destruct Hset as ((Ho0 & _) & _).
  rewrite Ho0, HG, HB3. reflexivity.
Qed.

(** The pixel-registered eastern half of a Cartesian output over
    0/2000: resampled to the nodes 1000 to 2000, it is left with the
    x-range 280/1280 and starts at output column 280. *)
Lemma rebuilt_tile_is_checked_as_longitude_witness :
  let B := Sample.raw_tile Sample.east_cells (wesn Sample.east_cells) "cells.nc" false 1 in
  let B' := match init_tile (Sample.world true true) 8 false Sample.wide_out 0 B with
            | tile_ready B' => B'
            | _ => B
            end in
  file B' = "grdblend_resampled.nc"%string
  /\ wesn (G B') = mk_region 280 1280 0 3
  /\ out_i0 B' = 280.
Proof.
  intros B B'.
  assert (Hfile : file B' = "grdblend_resampled.nc"%string) by (vm_compute; reflexivity).
  split; [exact Hfile|].
  destruct (rebuilt_tile_is_checked_as_longitude (Sample.world true true) 8 Sample.wide_out
              0 B B') as (buffer & t & rbr & Hr & Hf & _ & _ & H).
  - vm_compute. reflexivity.
  - vm_compute. congruence.
  - rewrite Hfile in Hf. subst buffer.
    assert (Ht : t = Sample.east_part).
    { change (GMT_Read_Data (Sample.world true true) "grdblend_resampled.nc")
        with (Some (Sample.east_part, Sample.fresh_RbR)) in Hr.
      now injection Hr as <- _. }
    subst t.
    destruct H as [HG Hi]; try (vm_compute; reflexivity).
    rewrite HG, Hi. split; vm_compute; reflexivity.
Defined.

(* ================================================================== *)
(** ** Where the first read starts, and the sign of the weight *)
(* ================================================================== *)

Lemma abs_not_negative x : (abs x <? 0)%float = false.
Proof.
  rewrite ltb_spec, abs_spec.
  destruct (Prim2SF x) as [s|s| |s m e]; reflexivity.
Qed.

Section PositionFacts.

Variable env : Collaborators.
Variable fuel : nat.

Lemma overlap_check_start B h mode skipped B' :
  grdblend_overlap_check env fuel B h mode = Some (skipped, B') -> same_start B B'.
Proof.
  intros H.
  destruct (overlap_check_shape env fuel B h mode skipped B' H)
    as [-> | [-> | (w & e & ->)]]; [repeat split | repeat split |].
  destruct mode; repeat split.
Qed.

(** Lines 512-549 on the tile that reaches them. *)
Lemma finish_tile_position h B B' :
  finish_tile env h B = tile_ready B' ->
  G B' = G B /\ RbR B' = RbR B
  /\ weight B' = (if (weight B <? 0)%float then abs (weight B) else weight B)
  /\ invert B' = (if (weight B <? 0)%float then true else invert B)
  /\ skip B' = (if out_j0 B' <? 0
                then match format (G B') with
                     | fmt_other => wrap_off_t (n_byte (RbR B') * Z.abs (out_j0 B'))
                     | _ => skip B
                     end
                else skip B)
  /\ offset B' = (if out_j0 B' <? 0
                  then match format (G B') with
                       | fmt_c => (n_columns (G B') * Z.abs (out_j0 B')) mod 2 ^ 32
                       | fmt_n => out_j0 B'
                       | fmt_other => offset B
                       end
                  else offset B).
Proof.
  unfold finish_tile.
  set (B1 := if (weight B <? 0)%float then _ else B).
  assert (H1 : G B1 = G B /\ RbR B1 = RbR B /\ skip B1 = skip B /\ offset B1 = offset B
               /\ weight B1 = (if (weight B <? 0)%float then abs (weight B) else weight B)
               /\ invert B1 = (if (weight B <? 0)%float then true else invert B)).
  { subst B1. destruct (weight B <? 0)%float; repeat split. }
  destruct H1 as (a1 & a2 & a3 & a4 & a5 & a6).
  set (Bg := blend_geometry h B1).
  assert (Hg : G Bg = G B1 /\ RbR Bg = RbR B1 /\ skip Bg = skip B1 /\ offset Bg = offset B1
               /\ weight Bg = weight B1 /\ invert Bg = invert B1) by (subst Bg; repeat split).
  destruct Hg as (g1 & g2 & g3 & g4 & g5 & g6).
  set (B3 := set_z _ (blend_skip Bg)).
  assert (H3 : G B3 = G B /\ RbR B3 = RbR B
               /\ weight B3 = (if (weight B <? 0)%float then abs (weight B) else weight B)
               /\ invert B3 = (if (weight B <? 0)%float then true else invert B)
               /\ skip B3 = (if out_j0 B3 <? 0
                             then match format (G B3) with
                                  | fmt_other =>
                                      wrap_off_t (n_byte (RbR B3) * Z.abs (out_j0 B3))
                                  | _ => skip B
                                  end
                             else skip B)
               /\ offset B3 = (if out_j0 B3 <? 0
                               then match format (G B3) with
                                    | fmt_c => (n_columns (G B3) * Z.abs (out_j0 B3)) mod 2 ^ 32
                                    | fmt_n => out_j0 B3
                                    | fmt_other => offset B
                                    end
                               else offset B)).
  { assert (Hk : G B3 = G Bg /\ RbR B3 = RbR Bg /\ out_j0 B3 = out_j0 Bg
                 /\ weight B3 = weight Bg /\ invert B3 = invert Bg
                 /\ skip B3 = (if out_j0 Bg <? 0
                               then match format (G Bg) with
                                    | fmt_other =>
                                        wrap_off_t (n_byte (RbR Bg) * Z.abs (out_j0 Bg))
                                    | _ => skip Bg
                                    end
                               else skip Bg)
                 /\ offset B3 = (if out_j0 Bg <? 0
                                 then match format (G Bg) with
                                      | fmt_c => (n_columns (G Bg) * Z.abs (out_j0 Bg)) mod 2 ^ 32
                                      | fmt_n => out_j0 Bg
                                      | fmt_other => offset Bg
                                      end
                                 else offset Bg)).
    { subst B3. unfold blend_skip.
      destruct (out_j0 Bg <? 0); [destruct (format (G Bg))|]; repeat split. }
    destruct Hk as (k1 & k2 & k3 & k4 & k5 & k6 & k7).
    rewrite k1, k2, k3, k4, k5, k6, k7, g1, g2, g3, g4, g5, g6, a1, a2, a3, a4, a5, a6.
    repeat split. }
  destruct (memory B3); [|destruct (GMT_Destroy_Data env (file B3))];
    intros E; try discriminate; injection E as <-; exact H3.
Qed.

Lemma rebuild_tile_position h ds B B' :
  rebuild_tile env fuel h ds B = tile_ready B' ->
  exists Bx, finish_tile env h Bx = tile_ready B' /\ same_start B Bx.
Proof.
  unfold rebuild_tile.
  destruct (gmt_get_tempname env _) as [buffer|]; [|discriminate].
  destruct (GMT_Call_Module env _ _); [discriminate|].
  destruct (GMT_Destroy_Data env _); [discriminate|].
  destruct (GMT_Read_Data env _) as [[t rbr]|]; [|discriminate].
  destruct (grdblend_overlap_check env fuel _ h false) as [[[|] B3]|] eqn:E;
    try discriminate.
  intros H. exists B3. split; [exact H|].
  apply overlap_check_start in E. destruct E as (e1 & e2 & e3 & e4).
  repeat split; assumption.
Qed.

Lemma init_tile_position x_is_lon h ns B B' :
  init_tile env fuel x_is_lon h ns B = tile_ready B' ->
  exists Bx, finish_tile env h Bx = tile_ready B' /\ same_start B Bx.
Proof.
  assert (Ha : forall B0, same_start B B0 -> align_tile env fuel h ns B0 = tile_ready B' ->
             exists Bx, finish_tile env h Bx = tile_ready B' /\ same_start B Bx).
  { intros B0 Hs. unfold align_tile. destruct (_ =? 0); intros H.
    - exists B0. auto.
    - apply rebuild_tile_position in H. destruct H as (Bx & Hf & (x1 & x2 & x3 & x4)).
      destruct Hs as (s1 & s2 & s3 & s4).
      exists Bx. split; [exact Hf|]. repeat split; congruence. }
  unfold init_tile.
  destruct (grdblend_outside_y_range h (inner B)); [discriminate|].
  destruct x_is_lon.
  - destruct (grdblend_overlap_check env fuel B h false) as [[[|] B1]|] eqn:E1;
      try discriminate.
    destruct (grdblend_overlap_check env fuel B1 h true) as [[[|] B2]|] eqn:E2;
      try discriminate.
    apply Ha. apply overlap_check_start in E1, E2.
    destruct E1 as (a1 & a2 & a3 & a4), E2 as (b1 & b2 & b3 & b4).
    repeat split; congruence.
  - destruct (grdblend_outside_cartesian_x_range h (inner B)); [discriminate|].
    apply Ha. repeat split.
Qed.

End PositionFacts.

(** Where the first read of a tile starts (lines 541-549), for a tile
    that enters the set-up with [skip] and [offset] at zero, as
    [gmt_M_memory] leaves them.  A tile whose first row is a row of the
    output ([out_j0 >= 0]) keeps both at zero.  A tile that begins north
    of the output gets the rows above the output skipped, by the one means
    of its format, the other of the two staying zero.  For the old netCDF
    format [offset] is the number of nodes in those rows reduced modulo
    2^32, the product of line 544 being formed in [unsigned int]: it is
    the number of nodes itself only while that is below 2^32.  For the
    new netCDF format [offset] is [out_j0] itself, a negative number.  For
    a native format [skip] is the number of bytes in those rows, formed in
    [size_t] and converted to [off_t]. *)
Theorem first_row_positioning env fuel x_is_lon h not_supported B B' :
  init_tile env fuel x_is_lon h not_supported B = tile_ready B' ->
  skip B = 0 -> offset B = 0 ->
  (0 <= out_j0 B' -> skip B' = 0 /\ offset B' = 0)
  /\ (out_j0 B' < 0 ->
      match format (G B') with
      | fmt_c => offset B' = (n_columns (G B') * Z.abs (out_j0 B')) mod 2 ^ 32
                 /\ skip B' = 0
      | fmt_n => offset B' = out_j0 B' /\ skip B' = 0
      | fmt_other => skip B' = wrap_off_t (n_byte (RbR B') * Z.abs (out_j0 B'))
                     /\ offset B' = 0
      end)
  /\ (out_j0 B' < 0 -> format (G B') = fmt_c ->
      0 <= offset B' < 2 ^ 32
      /\ (0 <= n_columns (G B') * Z.abs (out_j0 B') < 2 ^ 32 ->
          offset B' = n_columns (G B') * Z.abs (out_j0 B'))).
Proof.
  intros H Hs Ho. apply init_tile_position in H.
  destruct H as (Bx & Hf & (x1 & x2 & _ & _)).
  apply finish_tile_position in Hf. destruct Hf as (_ & _ & _ & _ & Hskip & Hoff).
  rewrite x1, Hs in Hskip. rewrite x2, Ho in Hoff. split; [|split].
  - intros Hj. apply Z.ltb_ge in Hj. rewrite Hj in Hskip, Hoff. auto.
  - intros Hj. apply Z.ltb_lt in Hj. rewrite Hj in Hskip, Hoff.
    destruct (format (G B')); auto.
  - intros Hj Hfmt. apply Z.ltb_lt in Hj. rewrite Hj, Hfmt in Hoff. rewrite Hoff.
    split; [apply Z.mod_pos_bound; lia|].
    intros Hsmall. now apply Z.mod_small.
Qed.

(** A grid of 70000 columns in the old netCDF format that begins 70000
    rows north of the output: the rows to skip hold 4900000000 nodes,
    and [offset] is that number modulo 2^32, 605032704. *)
Lemma first_row_positioning_witness :
  let B := Sample.raw_tile Sample.tall_grid (wesn Sample.tall_grid) "tall.nc" false 1 in
  let B' := Sample.ready Sample.wide_rows B in
  out_j0 B' = -70000 /\ n_columns (G B') = 70000
  /\ offset B' = 605032704 /\ skip B' = 0.
Proof.
  intros B B'.
  assert (Hj : out_j0 B' = -70000) by (vm_compute; reflexivity).
  assert (Hn : n_columns (G B') = 70000) by (vm_compute; reflexivity).
  assert (Hf : format (G B') = fmt_c) by (vm_compute; reflexivity).
  split; [exact Hj|]. split; [exact Hn|].
  assert (Hready : init_tile Sample.env 8 false Sample.wide_rows 0 B = tile_ready B').
  { assert (Hr : match init_tile Sample.env 8 false Sample.wide_rows 0 B with
                 | tile_ready _ => true
                 | _ => false
                 end = true) by (vm_compute; reflexivity).
    change B' with (Sample.ready Sample.wide_rows B). unfold Sample.ready.
    destruct (init_tile Sample.env 8 false Sample.wide_rows 0 B);
      try discriminate Hr. reflexivity. }
  pose proof (proj1 (proj2 (first_row_positioning Sample.env 8 false Sample.wide_rows 0
                              B B' Hready eq_refl eq_refl))) as H.
  rewrite Hf, Hn, Hj in H. apply H. reflexivity.
Defined.

(** The sign of the weight (lines 512-515).  A tile that is ready never
    carries a negative weight: a negative weight of the blend file has
    become its absolute value with the taper inverted, and any other
    weight, NaN included, is kept with the sense of the taper as it
    was. *)
Theorem weight_sign_becomes_taper_sense env fuel x_is_lon h not_supported B B' :
  init_tile env fuel x_is_lon h not_supported B = tile_ready B' ->
  (weight B' <? 0)%float = false
  /\ ((weight B <? 0)%float = true -> weight B' = abs (weight B) /\ invert B' = true)
  /\ ((weight B <? 0)%float = false -> weight B' = weight B /\ invert B' = invert B).
Proof.
  intros H. apply init_tile_position in H.
  destruct H as (Bx & Hf & (_ & _ & x3 & x4)).
  apply finish_tile_position in Hf. destruct Hf as (_ & _ & Hw & Hi & _).
  rewrite x3 in Hw, Hi. rewrite x4 in Hi. rewrite Hw, Hi.
  destruct (weight B <? 0)%float eqn:E.
  - split; [apply abs_not_negative|]. split; [auto | discriminate].
  - split; [exact E|]. split; [discriminate | auto].
Qed.

(** The tile of the end-to-end example with weight -1 in the blend
    file. *)
Lemma weight_sign_becomes_taper_sense_witness :
  let B' := Sample.ready Sample.out_header (Sample.whole_tile true (-1)) in
  weight B' = 1%float /\ invert B' = true.
Proof.
  intros B'.
  exact (proj1 (proj2 (weight_sign_becomes_taper_sense Sample.env 8 false Sample.out_header 0
                         (Sample.whole_tile true (-1)) B' eq_refl)) eq_refl).
Defined.
